(** * Hercules: telemetry dashboards for the XIAO nRF52840 Sense

  A shallow embedding of the transport-reader pattern shared by the
  Streamlit dashboards of the repository: the line framer of the reader
  threads, the record decoders, the bounded relay channel, the ring buffer
  with its session accumulator, the Start/Stop handlers, and the
  command/response exchange of the LED controller.

  Conventions.
  - [bytes] / [bytearray] are [list byte]; [str] is a list of Unicode code
    points ([list N]); Python floats are IEEE-754 binary64 values
    ([spec_float] at precision 53, emax 1024).
  - Python exceptions are explicit: a computation yields an [outcome],
    either a value, a raised exception, or [OutOfFuel] when a loop of the
    model was given too little fuel.
  - The environment (clock readings, what the reader thread or the device
    produces while the UI thread sleeps) is an explicit [world] input. *)

From Stdlib Require Import ZArith NArith Lia Bool Floats.SpecFloat.
From Stdlib Require Import Strings.Byte Strings.Ascii Strings.String.
From stdpp Require Import base list gmap.

Local Open Scope Z_scope.

(** ** Outcomes: return values, exceptions, fuel *)

Inductive exn : Type :=
  | ValueError
  | IndexError
  | RuntimeError
  | KeyError
  | QueueFull
  | QueueEmpty.

Inductive outcome (A : Type) : Type :=
  | Ret (a : A)
  | Raise (e : exn)
  | OutOfFuel.

Arguments Ret {A} a.
Arguments Raise {A} e.
Arguments OutOfFuel {A}.

Definition bind {A B} (m : outcome A) (k : A -> outcome B) : outcome B :=
  match m with
  | Ret a => k a
  | Raise e => Raise e
  | OutOfFuel => OutOfFuel
  end.

Notation "x <- m ;; k" := (bind m (fun x => k))
  (at level 100, m at next level, right associativity).

(** [try: body / except E: handler]: the handler chooses the exceptions it
  catches; any other exception propagates. *)
Definition try_except {A} (body : outcome A) (handler : exn -> option (outcome A))
  : outcome A :=
  match body with
  | Raise e => match handler e with Some h => h | None => Raise e end
  | other => other
  end.

(** A bare [except:] and [except ValueError:], both answering [fallback]. *)
Definition except_any {A} (fallback : outcome A) : exn -> option (outcome A) :=
  fun _ => Some fallback.

Definition except_only {A} (which : exn -> bool) (fallback : outcome A)
  : exn -> option (outcome A) :=
  fun e => if which e then Some fallback else None.

Definition is_ValueError (e : exn) : bool :=
  match e with ValueError => true | _ => false end.

Definition is_QueueFull (e : exn) : bool :=
  match e with QueueFull => true | _ => false end.

Definition is_QueueEmpty (e : exn) : bool :=
  match e with QueueEmpty => true | _ => false end.

(** ** Bytes *)

Definition bytes := list byte.

Definition LF : byte := x0a.
Definition CR : byte := x0d.

#[global] Instance byte_eq_dec : EqDecision byte.
Proof.
  intros x y. destruct (Byte.eqb x y) eqn:E.
  - left. exact (Byte.byte_dec_bl x y E).
  - right. exact (Byte.eqb_false E).
Defined.

Definition len {A} (l : list A) : Z := Z.of_nat (length l).

(** [buf[lo:hi]] for [0 <= lo], the only slices the sources take. *)
Definition slice {A} (buf : list A) (lo hi : Z) : list A :=
  take (Z.to_nat (hi - lo)) (drop (Z.to_nat lo) buf).

(** [del buf[:n]] *)
Definition del_prefix {A} (buf : list A) (n : Z) : list A :=
  drop (Z.to_nat n) buf.

(** [buf.find(sub)] for a one-byte [sub]: the first index, or -1. *)
Fixpoint find (buf : bytes) (sub : byte) : Z :=
  match buf with
  | [] => -1
  | b :: rest =>
      if Byte.eqb b sub then 0
      else let i := find rest sub in if i =? -1 then -1 else i + 1
  end.

(** ** The line framer

  The same loop is written out in [handle_notify] (xiao_imu_ble_final.py,
  xiao_imu_ble.py) and in [reader_thread_fn] (xiao_usb_live.py,
  xiao_imu_stream.py); only the decoder called on each line differs. *)

Module Framer.

Definition is_term (b : byte) : bool := Byte.eqb b LF || Byte.eqb b CR.

(** npos/rpos/term, lines 151-156 of handle_notify. *)
Definition earliest_terminator (buffer : bytes) : Z :=
  let npos := find buffer LF in
  let rpos := find buffer CR in
  if negb (npos =? -1) && negb (rpos =? -1) then Z.min npos rpos
  else if negb (npos =? -1) then npos
  else if negb (rpos =? -1) then rpos
  else -1.

(** [x in (b"\n", b"\r")] *)
Definition in_terminators (x : bytes) : bool :=
  bool_decide (x = [LF]) || bool_decide (x = [CR]).

(** How many bytes one iteration deletes: the terminator and one paired
    terminator right behind it, when that byte is already buffered. *)
Definition drop_count (buffer : bytes) (term : Z) : Z :=
  let drop := term + 1 in
  if (drop <? len buffer) && in_terminators (slice buffer drop (drop + 1))
  then drop + 1 else drop.

(** The [while True] loop, with the per-line work as [on_line]. *)
Fixpoint split_lines {S : Type} (on_line : bytes -> S -> outcome S)
    (fuel : nat) (buffer : bytes) (st : S) : outcome (bytes * S) :=
  match fuel with
  | O => OutOfFuel
  | S fuel' =>
      let term := earliest_terminator buffer in
      if term =? -1 then Ret (buffer, st)
      else
        let line := slice buffer 0 term in
        let buffer' := del_prefix buffer (drop_count buffer term) in
        st' <- on_line line st ;;
        split_lines on_line fuel' buffer' st'
  end.

(** Every iteration deletes at least one byte, so this fuel is enough
    (see [split_lines_fold]). *)
Definition loop_fuel (buffer : bytes) : nat := S (length buffer).

(** The framer on its own: [feed] appends the chunk and returns the frames
    extracted together with the new buffer. *)
Definition collect (line : bytes) (frames : list bytes) : outcome (list bytes) :=
  Ret (frames ++ [line]).

Definition feed (buffer chunk : bytes) : outcome (list bytes * bytes) :=
  let buffer := buffer ++ chunk in
  r <- split_lines collect (loop_fuel buffer) buffer [] ;;
  Ret (r.2, r.1).

(** Successive calls, the buffer carried from one to the next. *)
Fixpoint feed_all (buffer : bytes) (chunks : list bytes)
  : outcome (list bytes * bytes) :=
  match chunks with
  | [] => Ret ([], buffer)
  | chunk :: more =>
      r <- feed buffer chunk ;;
      r' <- feed_all r.2 more ;;
      Ret (r.1 ++ r'.1, r'.2)
  end.

(** Reference reading used in the proofs: every terminator byte closes a
    run; [cur] is the run being accumulated. *)
Fixpoint runs (cur : bytes) (s : bytes) : list bytes * bytes :=
  match s with
  | [] => ([], cur)
  | b :: s' =>
      if is_term b then let '(fs, r) := runs [] s' in (cur :: fs, r)
      else runs (cur ++ [b]) s'
  end.

Definition nonempty (f : bytes) : bool :=
  match f with [] => false | _ => true end.

(** The line endings of the wire format. *)
Definition line_ending (e : bytes) : Prop := e = [LF] \/ e = [CR] \/ e = [CR; LF].

Definition term_free (a : bytes) : Prop := Forall (fun b => is_term b = false) a.

(** What the loop does with the lines it cuts, as a fold. *)
Fixpoint fold_lines {S : Type} (on_line : bytes -> S -> outcome S)
    (lines : list bytes) (st : S) : outcome S :=
  match lines with
  | [] => Ret st
  | l :: more => st' <- on_line l st ;; fold_lines on_line more st'
  end.

(** What is left once a terminator is deleted: a terminator byte right
    behind it goes with it. *)
Definition after_terminator (rest : bytes) : bytes :=
  match rest with
  | t2 :: rest' => if is_term t2 then rest' else rest
  | [] => []
  end.

(** A reader thread receiving [chunks] one call after the other; the
    state is the buffer and whatever [on_line] maintains. *)
Fixpoint process_chunks {S : Type} (on_line : bytes -> S -> outcome S)
    (chunks : list bytes) (st : bytes * S) : outcome (bytes * S) :=
  match chunks with
  | [] => Ret st
  | chunk :: more =>
      let buffer := st.1 ++ chunk in
      st' <- split_lines on_line (loop_fuel buffer) buffer st.2 ;;
      process_chunks on_line more st'
  end.

End Framer.

(** ** Python text and floats *)

Module Py.

(** A [str] is its sequence of code points. *)
Definition str := list N.

Definition lit (x : string) : str := map N_of_ascii (list_ascii_of_string x).
Arguments lit x%_string.

Definition chr (x : ascii) : N := N_of_ascii x.
Arguments chr x%_char.

Local Open Scope N_scope.

Definition between (lo hi ch : N) : bool := (lo <=? ch) && (ch <=? hi).

(** [Py_UNICODE_ISSPACE]: the characters [str.strip] and [str.split]
    treat as whitespace. *)
Definition isspace (ch : N) : bool :=
  between 0x09 0x0D ch || between 0x1C 0x20 ch || (ch =? 0x85) || (ch =? 0xA0)
  || (ch =? 0x1680) || between 0x2000 0x200A ch || (ch =? 0x2028)
  || (ch =? 0x2029) || (ch =? 0x202F) || (ch =? 0x205F) || (ch =? 0x3000).

Fixpoint lstrip_with (sp : N -> bool) (s : str) : str :=
  match s with
  | c :: r => if sp c then lstrip_with sp r else s
  | [] => []
  end.

Definition rstrip_with (sp : N -> bool) (s : str) : str :=
  reverse (lstrip_with sp (reverse s)).

(** [s.strip()] *)
Definition strip (s : str) : str := rstrip_with isspace (lstrip_with isspace s).

(** [s.startswith(p)] *)
Definition startswith (s p : str) : bool := bool_decide (take (length p) s = p).

(** [c in s] for a one-character [c] *)
Definition contains (c : N) (s : str) : bool := bool_decide (c ∈ s).

(** [s.split(sep)] for a one-character separator *)
Fixpoint split (sep : N) (s : str) : list str :=
  match s with
  | [] => [[]]
  | c :: r =>
      if c =? sep then [] :: split sep r
      else match split sep r with
           | p :: ps => (c :: p) :: ps
           | [] => [[c]]
           end
  end.

(** [s.split(sep, 1)] *)
Fixpoint split1 (sep : N) (s : str) : list str :=
  match s with
  | [] => [[]]
  | c :: r =>
      if c =? sep then [[]; r]
      else match split1 sep r with
           | p :: ps => (c :: p) :: ps
           | [] => [[c]]
           end
  end.

(** [s.split()]: runs of whitespace separate, empty pieces are dropped *)
Fixpoint split_ws_from (cur : str) (s : str) : list str :=
  match s with
  | [] => match cur with [] => [] | _ => [cur] end
  | c :: r =>
      if isspace c
      then match cur with [] => split_ws_from [] r | _ => cur :: split_ws_from [] r end
      else split_ws_from (cur ++ [c]) r
  end.

Definition split_ws (s : str) : list str := split_ws_from [] s.

(** [a, b = parts] *)
Definition unpack2 (parts : list str) : outcome (str * str) :=
  match parts with
  | [a; b] => Ret (a, b)
  | _ => Raise ValueError
  end.

(** [parts[i]] *)
Definition getitem {A} (parts : list A) (i : nat) : outcome A :=
  match parts !! i with
  | Some x => Ret x
  | None => Raise IndexError
  end.

(** *** [bytes.decode(errors="ignore")]: UTF-8, malformed sequences skipped

    A malformed sequence is skipped up to (not including) the byte that
    broke it; a truncated sequence at the end of the input is dropped. *)

Definition cont (b : N) : bool := between 0x80 0xBF b.

Definition second_ok (b0 b1 : N) : bool :=
  if b0 =? 0xE0 then between 0xA0 0xBF b1
  else if b0 =? 0xED then between 0x80 0x9F b1
  else if b0 =? 0xF0 then between 0x90 0xBF b1
  else if b0 =? 0xF4 then between 0x80 0x8F b1
  else cont b1.

Definition low6 (b : N) : N := N.land b 0x3F.

Fixpoint utf8_ignore (bs : list N) : str :=
  match bs with
  | [] => []
  | b0 :: t0 =>
      if b0 <? 0x80 then b0 :: utf8_ignore t0
      else if between 0xC2 0xDF b0 then
        match t0 with
        | [] => []
        | b1 :: t1 =>
            if cont b1
            then (N.shiftl (N.land b0 0x1F) 6 + low6 b1) :: utf8_ignore t1
            else utf8_ignore t0
        end
      else if between 0xE0 0xEF b0 then
        match t0 with
        | [] => []
        | b1 :: t1 =>
            if second_ok b0 b1 then
              match t1 with
              | [] => []
              | b2 :: t2 =>
                  if cont b2
                  then (N.shiftl (N.land b0 0x0F) 12 + N.shiftl (low6 b1) 6
                        + low6 b2) :: utf8_ignore t2
                  else utf8_ignore t1
              end
            else utf8_ignore t0
        end
      else if between 0xF0 0xF4 b0 then
        match t0 with
        | [] => []
        | b1 :: t1 =>
            if second_ok b0 b1 then
              match t1 with
              | [] => []
              | b2 :: t2 =>
                  if cont b2 then
                    match t2 with
                    | [] => []
                    | b3 :: t3 =>
                        if cont b3
                        then (N.shiftl (N.land b0 0x07) 18
                              + N.shiftl (low6 b1) 12 + N.shiftl (low6 b2) 6
                              + low6 b3) :: utf8_ignore t3
                        else utf8_ignore t2
                    end
                  else utf8_ignore t1
              end
            else utf8_ignore t0
        end
      else utf8_ignore t0
  end.

Definition decode_ignore (b : bytes) : str := utf8_ignore (map Byte.to_N b).

(** *** Floats: IEEE-754 binary64 *)

Definition float := spec_float.
Definition prec : Z := 53.
Definition emax : Z := 1024.

(** [0.0] *)
Definition fzero : float := S754_zero false.
Definition fsub (x y : float) : float := SFsub prec emax x y.
Definition fadd (x y : float) : float := SFadd prec emax x y.
Definition flt (x y : float) : bool := SFltb x y.
(** [float(n)] for an integer, and [bool(x)] for a float *)
Definition float_of_Z (n : Z) : float := binary_normalize prec emax n 0 false.
Definition truthy (x : float) : bool := negb (SFeqb x fzero).

(** The binary64 value nearest to [m * 10^e] (ties to even), signed. *)
Definition float_of_decimal (neg : bool) (m : N) (e : Z) : float :=
  match m with
  | N0 => S754_zero neg
  | Npos p =>
      if (0 <=? e)%Z
      then binary_normalize prec emax (cond_Zopp neg (Zpos p * 10 ^ e)) 0 neg
      else
        let d := (10 ^ (- e))%Z in
        let k := (64 + Z.log2_up d)%Z in
        let n := Z.shiftl (Zpos p) k in
        let sticky := if (n mod d =? 0)%Z then 0%Z else 1%Z in
        binary_normalize prec emax (cond_Zopp neg (2 * (n / d) + sticky))
                         (- k - 1) neg
  end.

(** *** [float(s)] for a [str]

    Non-ASCII whitespace and decimal digits are first mapped to ASCII
    ([_PyUnicode_TransformDecimalAndSpaceToASCII]); [decimal_zeros] lists
    the code points of the zero digit of each Unicode decimal-digit block;
    underscores between digits are removed; the text is stripped of ASCII
    whitespace and must then be, as a whole, a decimal literal, an
    infinity or a nan. *)

Definition decimal_zeros : list N :=
  [0x0660; 0x06F0; 0x07C0; 0x0966; 0x09E6; 0x0A66; 0x0AE6; 0x0B66; 0x0BE6;
   0x0C66; 0x0CE6; 0x0D66; 0x0DE6; 0x0E50; 0x0ED0; 0x0F20; 0x1040; 0x1090;
   0x17E0; 0x1810; 0x1946; 0x19D0; 0x1A80; 0x1A90; 0x1B50; 0x1BB0; 0x1C40;
   0x1C50; 0xA620; 0xA8D0; 0xA900; 0xA9D0; 0xA9F0; 0xAA50; 0xABF0; 0xFF10;
   0x104A0; 0x10D30; 0x11066; 0x110F0; 0x11136; 0x111D0; 0x112F0; 0x11450;
   0x114D0; 0x11650; 0x116C0; 0x11730; 0x118E0; 0x11950; 0x11C50; 0x11D50;
   0x11DA0; 0x11F50; 0x16A60; 0x16AC0; 0x16B50; 0x1D7CE; 0x1D7D8; 0x1D7E2;
   0x1D7EC; 0x1D7F6; 0x1E140; 0x1E2F0; 0x1E4F0; 0x1E950; 0x1FBF0].

(** [Py_UNICODE_TODECIMAL] on a non-ASCII character *)
Definition todecimal (ch : N) : option N :=
  match filter (fun z => between z (z + 9) ch) decimal_zeros with
  | z :: _ => Some (ch - z)
  | [] => None
  end.

Fixpoint transform_loop (s : str) : str :=
  match s with
  | [] => []
  | ch :: r =>
      if ch <? 127 then ch :: transform_loop r
      else if isspace ch then chr " " :: transform_loop r
      else match todecimal ch with
           | Some d => (chr "0" + d) :: transform_loop r
           | None => [chr "?"]
           end
  end.

Definition transform_decimal_and_space (s : str) : str :=
  if forallb (fun ch => ch <? 128) s then s else transform_loop s.

Definition is_digit (c : N) : bool := between (chr "0") (chr "9") c.

(** [Py_ISSPACE] *)
Definition isspace_ascii (c : N) : bool := (c =? chr " ") || between 0x09 0x0D c.

Fixpoint digits (s : str) (acc : N) (count : nat) : N * nat * str :=
  match s with
  | c :: r =>
      if is_digit c then digits r (10 * acc + (c - chr "0")) (S count)
      else (acc, count, s)
  | [] => (acc, count, [])
  end.

Definition parse_sign (s : str) : bool * str :=
  match s with
  | c :: r =>
      if c =? chr "-" then (true, r)
      else if c =? chr "+" then (false, r)
      else (false, s)
  | [] => (false, [])
  end.

(** An exponent part without digits is not consumed. *)
Definition parse_exponent (s : str) : Z * str :=
  match s with
  | c :: r =>
      if (c =? chr "e") || (c =? chr "E") then
        let '(neg, r') := parse_sign r in
        let '(e, n, rest) := digits r' 0 0%nat in
        match n with
        | O => (0%Z, s)
        | _ => ((if neg then - Z.of_N e else Z.of_N e)%Z, rest)
        end
      else (0%Z, s)
  | [] => (0%Z, [])
  end.

(** The decimal literal at the front of [s] and what follows it. *)
Definition strtod (s : str) : option (float * str) :=
  let '(neg, s1) := parse_sign s in
  let '(ip, n1, s2) := digits s1 0 0%nat in
  let '(m, n2, s3) :=
    match s2 with
    | c :: r => if c =? chr "." then digits r ip 0%nat else (ip, 0%nat, s2)
    | [] => (ip, 0%nat, s2)
    end in
  match (n1 + n2)%nat with
  | O => None
  | _ =>
      let '(e, s4) := parse_exponent s3 in
      Some (float_of_decimal neg m (e - Z.of_nat n2), s4)
  end.

Definition tolower (c : N) : N :=
  if between (chr "A") (chr "Z") c then c + 32 else c.

Definition parse_inf_or_nan (s : str) : option (float * str) :=
  let '(neg, r) := parse_sign s in
  if startswith (map tolower r) (lit "inf") then
    let r3 := drop 3 r in
    if startswith (map tolower r3) (lit "inity")
    then Some (S754_infinity neg, drop 5 r3)
    else Some (S754_infinity neg, r3)
  else if startswith (map tolower r) (lit "nan") then Some (S754_nan, drop 3 r)
  else None.

Definition string_to_double (s : str) : option (float * str) :=
  match strtod s with
  | Some r => Some r
  | None => parse_inf_or_nan s
  end.

Definition float_from_string_inner (s : str) : outcome float :=
  let s := rstrip_with isspace_ascii (lstrip_with isspace_ascii s) in
  match string_to_double s with
  | Some (x, []) => Ret x
  | _ => Raise ValueError
  end.

(** An underscore must stand between two digits. *)
Fixpoint strip_underscores (prev : N) (s : str) : option str :=
  match s with
  | [] => if prev =? chr "_" then None else Some []
  | c :: r =>
      if c =? chr "_"
      then (if is_digit prev then strip_underscores c r else None)
      else if (prev =? chr "_") && negb (is_digit c) then None
      else option_map (cons c) (strip_underscores c r)
  end.

Definition float_of_str (x : str) : outcome float :=
  let s := transform_decimal_and_space x in
  if negb (contains (chr "_") s) then float_from_string_inner s
  else match strip_underscores 0 s with
       | Some dup => float_from_string_inner dup
       | None => Raise ValueError
       end.

(** *** Line boundaries of [str]

    [Py_UNICODE_ISLINEBREAK]: the characters at which [str.splitlines]
    cuts. *)
Definition NL : N := 0x0A.

Definition is_linebreak (ch : N) : bool :=
  between 0x0A 0x0D ch || between 0x1C 0x1E ch || (ch =? 0x85)
  || (ch =? 0x2028) || (ch =? 0x2029).

(** [s.splitlines()]: a CR followed by LF is one boundary; what follows the
    last boundary is a line only when it is not empty. *)
Fixpoint splitlines_from (cur : str) (s : str) : list str :=
  match s with
  | [] => match cur with [] => [] | _ => [cur] end
  | c :: r =>
      if is_linebreak c then
        match r with
        | c' :: r' =>
            if (c =? 0x0D) && (c' =? 0x0A) then cur :: splitlines_from [] r'
            else cur :: splitlines_from [] r
        | [] => [cur]
        end
      else splitlines_from (cur ++ [c]) r
  end.

Definition splitlines (s : str) : list str := splitlines_from [] s.

(** [s.endswith(p)] *)
Definition endswith (s p : str) : bool :=
  (length p <=? length s)%nat && bool_decide (drop (length s - length p) s = p).

(** The complete LF-terminated lines of [s] and what follows the last LF;
    [cur] is the line being read. *)
Fixpoint lf_cut (cur : str) (s : str) : list str * str :=
  match s with
  | [] => ([], cur)
  | c :: r =>
      if c =? NL then let '(ls, rest) := lf_cut [] r in (cur :: ls, rest)
      else lf_cut (cur ++ [c]) r
  end.

(** Text in which LF is the only line boundary. *)
Definition lf_only (s : str) : Prop :=
  Forall (fun c => is_linebreak c = true -> c = NL) s.


(** [l[lo:hi]]: a negative index counts from the end, and both are clamped
    to the list. *)
Definition slice_index {A} (l : list A) (i : Z) : Z :=
  if (i <? 0)%Z then Z.max 0 (len l + i)%Z else Z.min i (len l).

Definition getslice {A} (l : list A) (lo hi : Z) : list A :=
  slice l (slice_index l lo) (slice_index l hi).
End Py.

(** ** Containers of the standard library *)

(** [queue.Queue(maxsize)]: the bounded relay channel. *)
Module Queue.

Record t (A : Type) : Type := mk { maxsize : Z; items : list A }.
Arguments mk {A} maxsize items.
Arguments maxsize {A} _.
Arguments items {A} _.

Definition full {A} (q : t A) : bool :=
  (0 <? maxsize q) && (maxsize q <=? len (items q)).

Definition empty {A} (q : t A) : bool :=
  match items q with [] => true | _ => false end.

(** A non-positive [maxsize] means an unbounded queue. *)
Definition put_nowait {A} (q : t A) (x : A) : outcome (t A) :=
  if full q then Raise QueueFull
  else Ret (mk (maxsize q) (items q ++ [x])).

Definition get_nowait {A} (q : t A) : outcome (A * t A) :=
  match items q with
  | [] => Raise QueueEmpty
  | x :: rest => Ret (x, mk (maxsize q) rest)
  end.

End Queue.

(** [collections.deque(maxlen=n)]: the ring buffer. *)
Module Deque.

Record t (A : Type) : Type := mk { maxlen : nat; items : list A }.
Arguments mk {A} maxlen items.
Arguments maxlen {A} _.
Arguments items {A} _.

(** [d.append(x)]: the item goes in on the right and, when the deque is
    then longer than [maxlen], the leftmost item is discarded. *)
Definition append {A} (d : t A) (x : A) : t A :=
  let l := items d ++ [x] in
  mk (maxlen d) (if (maxlen d <? length l)%nat then drop 1 l else l).

Definition clear {A} (d : t A) : t A := mk (maxlen d) [].

End Deque.

(** What survives the body of a loop or of a branch: either control goes
  on, or the enclosing function has returned. *)
Inductive flow (A R : Type) : Type :=
  | Continue (a : A)
  | Return (r : R).
Arguments Continue {A R} a.
Arguments Return {A R} r.

(** Applying [f] to each element in order, stopping at the first failure. *)
Fixpoint mapM {A B} (f : A -> outcome B) (l : list A) : outcome (list B) :=
  match l with
  | [] => Ret []
  | x :: r => y <- f x ;; ys <- mapM f r ;; Ret (y :: ys)
  end.

(** The relay channel of every reader thread:
  [try: q.put_nowait(parsed) / except queue.Full: pass]. *)
Definition relay_put {A} (q : Queue.t A) (parsed : A) : outcome (Queue.t A) :=
  try_except (Queue.put_nowait q parsed) (except_only is_QueueFull (Ret q)).

Fixpoint relay_put_all {A} (q : Queue.t A) (rows : list A) : outcome (Queue.t A) :=
  match rows with
  | [] => Ret q
  | r :: more => q' <- relay_put q r ;; relay_put_all q' more
  end.

(** A CSV document as pandas is asked to build it: the column names and one
  line of values per row ([DataFrame(rows, columns=...).to_csv(index=False)]);
  the rendering of each value as text is left to pandas. *)
Record csv_document : Type := { csv_header : list Py.str; csv_rows : list (list Py.float) }.

(** The IMU record [(t, ax, ay, az, gx, gy, gz)]. *)
Record imu_row : Type := Row {
  r_t : Py.float;
  r_ax : Py.float; r_ay : Py.float; r_az : Py.float;
  r_gx : Py.float; r_gy : Py.float; r_gz : Py.float }.

Definition imu_values (r : imu_row) : list Py.float :=
  [r_t r; r_ax r; r_ay r; r_az r; r_gx r; r_gy r; r_gz r].

(** [(t, ax, ay, az, gx, gy, gz)] with [t] replaced:
  [full = (t_rel, ax, ay, az, gx, gy, gz)] *)
Definition retime (t_rel : Py.float) (row : imu_row) : imu_row :=
  Row t_rel (r_ax row) (r_ay row) (r_az row) (r_gx row) (r_gy row) (r_gz row).

(** [t, ax, ay, az, gx, gy, gz = values] *)
Definition unpack7 (values : list Py.float) : outcome imu_row :=
  match values with
  | [t; ax; ay; az; gx; gy; gz] => Ret (Row t ax ay az gx gy gz)
  | _ => Raise ValueError
  end.

(** [kv[k]] *)
Definition dict_get (kv : gmap Py.str Py.float) (k : Py.str) : outcome Py.float :=
  match kv !! k with
  | Some x => Ret x
  | None => Raise KeyError
  end.

(** The [key:value] shape shared by [parse_csv_line] and
  xiao_imu_stream's [parse_line]:
<<
  kv = {}
  for tok in s.split():
      if ":" not in tok: continue
      k, v = tok.split(":", 1)
      if k in EXPECTED_KEYS:
          try: kv[k] = float(v)
          except ValueError: return None
  if all(k in kv for k in EXPECTED_KEYS):
      return (0.0, kv["ax"], kv["ay"], kv["az"], kv["gx"], kv["gy"], kv["gz"])
>> *)
Module KeyValue.
Import Py.

Definition EXPECTED_KEYS : list str :=
  [lit "ax"; lit "ay"; lit "az"; lit "gx"; lit "gy"; lit "gz"].

Fixpoint kv_loop (toks : list str) (kv : gmap str float)
  : outcome (flow (gmap str float) (option imu_row)) :=
  match toks with
  | [] => Ret (Continue kv)
  | tok :: more =>
      if negb (contains (chr ":") tok) then kv_loop more kv
      else
        p <- unpack2 (split1 (chr ":") tok) ;;
        let '(k, v) := p in
        if bool_decide (k ∈ EXPECTED_KEYS) then
          step <- try_except
                    (x <- float_of_str v ;; Ret (Continue (<[k := x]> kv)))
                    (except_only is_ValueError (Ret (Return None))) ;;
          match step with
          | Continue kv' => kv_loop more kv'
          | Return r => Ret (Return r)
          end
        else kv_loop more kv
  end.

Definition all_keys_present (kv : gmap str float) : bool :=
  forallb (fun k => bool_decide (is_Some (kv !! k))) EXPECTED_KEYS.

Definition key_value_shape (s : str) : outcome (flow unit (option imu_row)) :=
  step <- kv_loop (split_ws s) ∅ ;;
  match step with
  | Return r => Ret (Return r)
  | Continue kv =>
      if all_keys_present kv then
        ax <- dict_get kv (lit "ax") ;; ay <- dict_get kv (lit "ay") ;;
        az <- dict_get kv (lit "az") ;; gx <- dict_get kv (lit "gx") ;;
        gy <- dict_get kv (lit "gy") ;; gz <- dict_get kv (lit "gz") ;;
        Ret (Return (Some (Row fzero ax ay az gx gy gz)))
      else Ret (Continue tt)
  end.

End KeyValue.

(** ** xiao_imu_ble_final.py (xiao_imu_ble.py has the same decoder, reader
  callback, Start, Stop and pump) *)

Module xiao_imu_ble_final.
Import Py.

Definition RING : nat := 4000.
Definition CSV_NAME_BASE : str := lit "data_xiao".
Definition FAST_START_WAIT_S : float := float_of_Z 1.
Definition CHANNEL_SIZE : Z := 20000.
Definition COLUMNS : list str :=
  [lit "t"; lit "ax"; lit "ay"; lit "az"; lit "gx"; lit "gy"; lit "gz"].

(** *** The record decoder *)

Definition csv_shape (s : str) : outcome (flow unit (option imu_row)) :=
  if contains (chr ",") s && negb (contains (chr ":") s) then
    let parts := split (chr ",") s in
    if 7 <=? len parts then
      try_except
        (values <- mapM float_of_str (take 7 parts) ;;
         row <- unpack7 values ;;
         Ret (Return (Some row)))
        (except_only is_ValueError (Ret (Return None)))
    else Ret (Continue tt)
  else Ret (Continue tt).

Definition parse_csv_line (line : str) : outcome (option imu_row) :=
  let s := strip line in
  if bool_decide (s = []) || startswith s (lit "#") || startswith s (lit "err")
  then Ret None
  else
    step <- csv_shape s ;;
    match step with
    | Return r => Ret r
    | Continue _ =>
        step <- (if contains (chr ":") s then KeyValue.key_value_shape s
                 else Ret (Continue tt)) ;;
        match step with
        | Return r => Ret r
        | Continue _ => Ret None
        end
    end.

Definition safe_decode (b : bytes) : str := decode_ignore b.

(** *** The notification callback of the reader thread

    Its state is the [buffer] of [run] and the relay channel. *)

Definition on_line (line : bytes) (q_parsed : Queue.t imu_row)
  : outcome (Queue.t imu_row) :=
  parsed <- parse_csv_line (safe_decode line) ;;
  match parsed with
  | Some row => relay_put q_parsed row
  | None => Ret q_parsed
  end.

Definition handle_notify (data : bytes) (st : bytes * Queue.t imu_row)
  : outcome (bytes * Queue.t imu_row) :=
  let buffer := st.1 ++ data in
  Framer.split_lines on_line (Framer.loop_fuel buffer) buffer st.2.

Fixpoint handle_notify_all (chunks : list bytes) (st : bytes * Queue.t imu_row)
  : outcome (bytes * Queue.t imu_row) :=
  match chunks with
  | [] => Ret st
  | data :: more => st' <- handle_notify data st ;; handle_notify_all more st'
  end.

(** *** The session state of the UI thread ([st.session_state])

    Chart placeholders and widgets are left out.  [reader_thread] is
    [Some alive]; [stop_event] is [Some is_set]; [download_bytes] is [None]
    for [b""].  [reads] and [slept] count the clock readings and the sleeps
    of the UI thread so far: they index the [world]. *)

Record session : Type := Session {
  reader_thread : option bool;
  stop_event : option bool;
  connected : bool;
  last_error : str;
  t0 : option float;
  q_parsed : Queue.t imu_row;
  data : Deque.t imu_row;
  all_rows : list imu_row;
  plotted_n : Z;
  download_bytes : option csv_document;
  download_name : str;
  reads : nat;
  slept : list float }.

(** The session as the script first creates it (the [setdefault] loop). *)
Definition initial : session :=
  Session None None false [] None (Queue.mk CHANNEL_SIZE []) (Deque.mk RING [])
          [] 0 None [] 0 [].

(** What the UI thread cannot decide: the clock, the records the reader
    thread offers to the channel while the UI thread sleeps (or joins),
    what the thread has left in its holders, whether it ends when joined. *)
Record world : Type := World {
  time_time : nat -> float;
  produced : nat -> list imu_row;
  err_holder : str;
  conn_flag : bool;
  strftime : str;
  exits_on_join : bool }.

Definition set_q_parsed (ss : session) (q : Queue.t imu_row) : session :=
  Session (reader_thread ss) (stop_event ss) (connected ss) (last_error ss)
          (t0 ss) q (data ss) (all_rows ss) (plotted_n ss) (download_bytes ss)
          (download_name ss) (reads ss) (slept ss).

(** [time.time()] *)
Definition now (w : world) (ss : session) : float * session :=
  (time_time w (reads ss),
   Session (reader_thread ss) (stop_event ss) (connected ss) (last_error ss)
           (t0 ss) (q_parsed ss) (data ss) (all_rows ss) (plotted_n ss)
           (download_bytes ss) (download_name ss) (S (reads ss)) (slept ss)).

(** [time.sleep(d)] (and [th.join(timeout=d)]): meanwhile the reader thread
    offers its records to the channel. *)
Definition sleep (w : world) (d : float) (ss : session) : outcome session :=
  q <- relay_put_all (q_parsed ss) (produced w (length (slept ss))) ;;
  Ret (Session (reader_thread ss) (stop_event ss) (connected ss) (last_error ss)
               (t0 ss) q (data ss) (all_rows ss) (plotted_n ss)
               (download_bytes ss) (download_name ss) (reads ss)
               (slept ss ++ [d])).

(** [ss.data.append(full); ss.all_rows.append(full)] *)
Definition push (full : imu_row) (ss : session) : session :=
  Session (reader_thread ss) (stop_event ss) (connected ss) (last_error ss)
          (t0 ss) (q_parsed ss) (Deque.append (data ss) full)
          (all_rows ss ++ [full]) (plotted_n ss) (download_bytes ss)
          (download_name ss) (reads ss) (slept ss).

(** [t_rel = (time.time() - ss.t0) if ss.t0 else (t if t else 0.0)] *)
Definition t_rel_of (w : world) (t : float) (ss : session) : float * session :=
  match t0 ss with
  | Some start =>
      if truthy start
      then let '(clock, ss') := now w ss in (fsub clock start, ss')
      else (if truthy t then t else fzero, ss)
  | None => (if truthy t then t else fzero, ss)
  end.

(** [row = ss.q_parsed.get_nowait()], [None] standing for the [break]. *)
Definition next_row (q : Queue.t imu_row) : outcome (option (imu_row * Queue.t imu_row)) :=
  try_except (r <- Queue.get_nowait q ;; Ret (Some r))
             (except_only is_QueueEmpty (Ret None)).

(** The inner [while True] of [pump_queue_into_buffers]. *)
Fixpoint drain (fuel : nat) (w : world) (ss : session) (added : Z)
  : outcome (session * Z) :=
  match fuel with
  | O => OutOfFuel
  | S fuel' =>
      got <- next_row (q_parsed ss) ;;
      match got with
      | None => Ret (ss, added)
      | Some (row, q) =>
          let ss := set_q_parsed ss q in
          let '(t_rel, ss) := t_rel_of w (r_t row) ss in
          let full := retime t_rel row in
          drain fuel' w (push full ss) (added + 1)
      end
  end.

(** One turn of that loop, on the row at the head of the channel. *)
Definition absorb (w : world) (ss : session) (row : imu_row) : session :=
  let q := q_parsed ss in
  let ss := set_q_parsed ss (Queue.mk (Queue.maxsize q) (tail (Queue.items q))) in
  let '(t_rel, ss) := t_rel_of w (r_t row) ss in
  push (retime t_rel row) ss.

(** The same session with another accumulator. *)
Definition with_all_rows (ss : session) (rows : list imu_row) : session :=
  Session (reader_thread ss) (stop_event ss) (connected ss) (last_error ss)
          (t0 ss) (q_parsed ss) (data ss) rows (plotted_n ss) (download_bytes ss)
          (download_name ss) (reads ss) (slept ss).

(** The timestamp the pump gives to the [i]-th row it takes from the
    channel in one drain. *)
Definition stamp (w : world) (ss : session) (i : nat) (row : imu_row) : float :=
  match t0 ss with
  | Some start =>
      if truthy start then fsub (time_time w (reads ss + i)) start
      else if truthy (r_t row) then r_t row else fzero
  | None => if truthy (r_t row) then r_t row else fzero
  end.

Definition f_0_01 : float := float_of_decimal false 1 (-2).
Definition f_0_02 : float := float_of_decimal false 2 (-2).
Definition f_0_5 : float := float_of_decimal false 5 (-1).
Definition f_2_0 : float := float_of_Z 2.

Fixpoint pump_passes (passes : nat) (w : world) (ss : session) (total : Z)
  : outcome (session * Z) :=
  match passes with
  | O => Ret (ss, total)
  | S passes' =>
      r <- drain (S (length (Queue.items (q_parsed ss)))) w ss 0 ;;
      let '(ss, added) := r in
      let total := total + added in
      if added =? 0 then Ret (ss, total)
      else ss <- sleep w f_0_01 ss ;; pump_passes passes' w ss total
  end.

Definition pump_queue_into_buffers (w : world) (repeat : Z) (ss : session)
  : outcome (session * Z) :=
  pump_passes (Z.to_nat (Z.max 1 repeat)) w ss 0.

(** The fast-start wait of [start_reader]:
    [while time.time() < t_deadline: if not q.empty(): break; sleep(0.02)] *)
Fixpoint fast_start_wait (fuel : nat) (w : world) (t_deadline : float)
    (ss : session) : outcome session :=
  match fuel with
  | O => OutOfFuel
  | S fuel' =>
      let '(clock, ss) := now w ss in
      if flt clock t_deadline then
        if negb (Queue.empty (q_parsed ss)) then Ret ss
        else ss <- sleep w f_0_02 ss ;; fast_start_wait fuel' w t_deadline ss
      else Ret ss
  end.

Definition thread_alive (ss : session) : bool :=
  match reader_thread ss with Some alive => alive | None => false end.

(** The assignments at the top of [start_reader], up to [ss.t0]. *)
Definition reset_for_start (w : world) (ss : session) : session :=
  Session (reader_thread ss) (Some false) (connected ss) [] 
          (Some (time_time w (reads ss))) (q_parsed ss) (Deque.clear (data ss))
          [] 0 None [] (S (reads ss)) (slept ss).

Definition start_reader (fuel : nat) (w : world) (ss : session) : outcome session :=
  if thread_alive ss then Ret ss
  else
    let ss := reset_for_start w ss in
    (* th.start(); ss.reader_thread = th *)
    let ss := Session (Some true) (stop_event ss) (connected ss) (last_error ss)
                      (t0 ss) (q_parsed ss) (data ss) (all_rows ss) (plotted_n ss)
                      (download_bytes ss) (download_name ss) (reads ss) (slept ss) in
    ss <- sleep w f_0_5 ss ;;
    let ss := Session (reader_thread ss) (stop_event ss) (conn_flag w) (err_holder w)
                      (t0 ss) (q_parsed ss) (data ss) (all_rows ss) (plotted_n ss)
                      (download_bytes ss) (download_name ss) (reads ss) (slept ss) in
    let '(clock, ss) := now w ss in
    ss <- fast_start_wait fuel w (fadd clock FAST_START_WAIT_S) ss ;;
    r <- pump_queue_into_buffers w 3 ss ;;
    Ret r.1.

(** [pd.DataFrame(rows, columns=COLUMNS).to_csv(index=False)] *)
Definition to_csv (rows : list imu_row) : csv_document :=
  {| csv_header := COLUMNS; csv_rows := map imu_values rows |}.

Definition stop_reader_and_save (w : world) (ss : session) : outcome session :=
  (* if ev: ev.set() ; if th and th.is_alive(): th.join(timeout=2.0) *)
  ss <- (if thread_alive ss then sleep w f_2_0 ss else Ret ss) ;;
  let name := CSV_NAME_BASE ++ lit "_" ++ strftime w ++ lit ".csv" in
  Ret (Session None None false (last_error ss) (t0 ss) (q_parsed ss) (data ss)
               (all_rows ss) (plotted_n ss)
               (match all_rows ss with
                | [] => download_bytes ss
                | _ => Some (to_csv (all_rows ss))
                end)
               (match all_rows ss with
                | [] => download_name ss
                | _ => name
                end)
               (reads ss) (slept ss)).

(** The ring buffer shows the tail of the accumulator. *)
Definition ring_is_tail (ss : session) : Prop :=
  Deque.items (data ss)
  = drop (length (all_rows ss) - Deque.maxlen (data ss)) (all_rows ss).


(** The fields of the session that only the buttons assign. *)
Definition controls (ss : session) :=
  (reader_thread ss, stop_event ss, connected ss, last_error ss, t0 ss,
   plotted_n ss, download_bytes ss, download_name ss).

(** *** The charts

    The two chart elements, each with the rows it has been given (the index
    [t] and its three columns); [None] before the first row is drawn.
<<
    if ss.acc_chart is None and len(ss.data):
        df0 = pd.DataFrame([ss.data[-1]], columns=[...]).set_index("t")
        ss.acc_chart  = ss.acc_ph.line_chart(df0[["ax","ay","az"]], ...)
        ss.gyro_chart = ss.gyro_ph.line_chart(df0[["gx","gy","gz"]], ...)
        ss.plotted_n = len(ss.data)
    if ss.acc_chart is not None:
        n_total = len(ss.data)
        if n_total > ss.plotted_n:
            new_slice = list(ss.data)[ss.plotted_n:n_total]
            df_new = pd.DataFrame(new_slice, columns=[...]).set_index("t")
            try:
                ss.acc_chart.add_rows(df_new[["ax","ay","az"]])
                ss.gyro_chart.add_rows(df_new[["gx","gy","gz"]])
            except Exception as e:
                ss.last_error = f"Chart update error: {e}"
            ss.plotted_n = n_total
>> *)
Definition chart := list (float * list float).

Definition acc_view (r : imu_row) : float * list float :=
  (r_t r, [r_ax r; r_ay r; r_az r]).

Definition gyro_view (r : imu_row) : float * list float :=
  (r_t r, [r_gx r; r_gy r; r_gz r]).

Record charts : Type := Charts {
  acc_chart : option chart;
  gyro_chart : option chart }.

Definition set_plotted_n (ss : session) (n : Z) : session :=
  Session (reader_thread ss) (stop_event ss) (connected ss) (last_error ss)
          (t0 ss) (q_parsed ss) (data ss) (all_rows ss) n (download_bytes ss)
          (download_name ss) (reads ss) (slept ss).

Definition set_last_error (ss : session) (e : str) : session :=
  Session (reader_thread ss) (stop_event ss) (connected ss) e
          (t0 ss) (q_parsed ss) (data ss) (all_rows ss) (plotted_n ss)
          (download_bytes ss) (download_name ss) (reads ss) (slept ss).

Definition chart_error (e : str) : str := lit "Chart update error: " ++ e.

Definition none_has_no_add_rows : str :=
  lit "'NoneType' object has no attribute 'add_rows'".

(** The [try] block: [acc_err] and [gyro_err] tell whether the element's
    [add_rows] raises, and with what text. *)
Definition add_rows (acc_err gyro_err : option str) (new_slice : list imu_row)
    (acc : chart) (ch : charts) (ss : session) : charts * session :=
  match acc_err with
  | Some e => (ch, set_last_error ss (chart_error e))
  | None =>
      let ch := Charts (Some (acc ++ map acc_view new_slice)) (gyro_chart ch) in
      match gyro_chart ch with
      | None => (ch, set_last_error ss (chart_error none_has_no_add_rows))
      | Some gyro =>
          match gyro_err with
          | Some e => (ch, set_last_error ss (chart_error e))
          | None =>
              (Charts (acc_chart ch) (Some (gyro ++ map gyro_view new_slice)), ss)
          end
      end
  end.

Definition update_charts (acc_err gyro_err : option str) (st : charts * session)
  : charts * session :=
  let '(ch, ss) :=
    match acc_chart st.1, last (Deque.items (data st.2)) with
    | None, Some r =>
        (Charts (Some [acc_view r]) (Some [gyro_view r]),
         set_plotted_n st.2 (len (Deque.items (data st.2))))
    | _, _ => st
    end in
  match acc_chart ch with
  | None => (ch, ss)
  | Some acc =>
      let n_total := len (Deque.items (data ss)) in
      if plotted_n ss <? n_total then
        let new_slice := getslice (Deque.items (data ss)) (plotted_n ss) n_total in
        let '(ch, ss) := add_rows acc_err gyro_err new_slice acc ch ss in
        (ch, set_plotted_n ss n_total)
      else (ch, ss)
  end.

(** Reading aids for the statements about Start: the records the reader
    thread offers during [k] sleeps of the UI thread, the first being sleep
    number [from]; and a row of [srcs] with its first field replaced. *)
Definition offered_during (w : world) (from k : nat) : list imu_row :=
  concat (map (produced w) (seq from k)).

Definition restamped (srcs : list imu_row) (r : imu_row) : Prop :=
  exists src, src ∈ srcs /\ r = retime (r_t r) src.

(** *** The pump while the reader thread runs

    [pump_queue_into_buffers] again, this time with the reader thread
    putting records on the channel while the UI thread is inside the inner
    [while True] loop: [arrivals g] are the records the thread offers just
    before the [g]-th [get_nowait] of the session (a full channel drops
    them), and [gets] counts the calls made so far.  During [time.sleep] the
    thread offers the records of [produced], as before. *)
Definition offer (rows : list imu_row) (ss : session) : outcome session :=
  q <- relay_put_all (q_parsed ss) rows ;; Ret (set_q_parsed ss q).

Fixpoint drain_live (fuel : nat) (w : world) (arrivals : nat -> list imu_row)
    (gets : nat) (ss : session) (added : Z) : outcome (session * Z * nat) :=
  match fuel with
  | O => OutOfFuel
  | S fuel' =>
      ss <- offer (arrivals gets) ss ;;
      got <- next_row (q_parsed ss) ;;
      match got with
      | None => Ret (ss, added, S gets)
      | Some (row, q) =>
          let ss := set_q_parsed ss q in
          let '(t_rel, ss) := t_rel_of w (r_t row) ss in
          let full := retime t_rel row in
          drain_live fuel' w arrivals (S gets) (push full ss) (added + 1)
      end
  end.

Fixpoint pump_passes_live (fuel passes : nat) (w : world)
    (arrivals : nat -> list imu_row) (gets : nat) (ss : session) (total : Z)
  : outcome (session * Z * nat) :=
  match passes with
  | O => Ret (ss, total, gets)
  | S passes' =>
      r <- drain_live fuel w arrivals gets ss 0 ;;
      let '(ss, added, gets) := r in
      let total := total + added in
      if added =? 0 then Ret (ss, total, gets)
      else ss <- sleep w f_0_01 ss ;;
           pump_passes_live fuel passes' w arrivals gets ss total
  end.

Definition pump_live (fuel : nat) (w : world) (arrivals : nat -> list imu_row)
    (gets : nat) (repeat : Z) (ss : session) : outcome (session * Z * nat) :=
  pump_passes_live fuel (Z.to_nat (Z.max 1 repeat)) w arrivals gets ss 0.

End xiao_imu_ble_final.

(** ** xiao_imu_stream.py *)

Module xiao_imu_stream.
Import Py.

Definition RING : nat := 2000.
Definition CHANNEL_SIZE : Z := 20000.
Definition COLUMNS : list str := xiao_imu_ble_final.COLUMNS.

Definition parse_line (line : str) : outcome (option imu_row) :=
  let s := strip line in
  if bool_decide (s = []) || startswith s (lit "err") then Ret None
  else
    step <- KeyValue.key_value_shape s ;;
    match step with
    | Return r => Ret r
    | Continue _ => Ret None
    end.

Definition on_line (line : bytes) (q_parsed : Queue.t imu_row)
  : outcome (Queue.t imu_row) :=
  parsed <- parse_line (decode_ignore line) ;;
  match parsed with
  | Some row => relay_put q_parsed row
  | None => Ret q_parsed
  end.

(** The body of [if chunk:] in [reader_thread_fn]; state: [buf], channel. *)
Definition on_chunk (chunk : bytes) (st : bytes * Queue.t imu_row)
  : outcome (bytes * Queue.t imu_row) :=
  let buf := st.1 ++ chunk in
  Framer.split_lines on_line (Framer.loop_fuel buf) buf st.2.

Record session : Type := Session {
  reader_thread : option bool;
  stop_event : option bool;
  ser_open : bool;
  last_error : str;
  t0 : option float;
  q_parsed : Queue.t imu_row;
  data : Deque.t imu_row;
  all_rows : list imu_row;
  download_bytes : option csv_document;
  download_name : str;
  reads : nat;
  slept : list float }.

Record world : Type := World {
  time_time : nat -> float;
  produced : nat -> list imu_row;
  err_holder : str;
  ser_open_flag : bool;
  strftime : str }.

Definition thread_alive (ss : session) : bool :=
  match reader_thread ss with Some alive => alive | None => false end.

Definition sleep (w : world) (d : float) (ss : session) : outcome session :=
  q <- relay_put_all (q_parsed ss) (produced w (length (slept ss))) ;;
  Ret (Session (reader_thread ss) (stop_event ss) (ser_open ss) (last_error ss)
               (t0 ss) q (data ss) (all_rows ss) (download_bytes ss)
               (download_name ss) (reads ss) (slept ss ++ [d])).

Definition f_0_25 : float := float_of_decimal false 25 (-2).
Definition f_1_5 : float := float_of_decimal false 15 (-1).

Definition start_reader (w : world) (ss : session) : outcome session :=
  if thread_alive ss then Ret ss
  else
    let ss := Session (Some true) (Some false) (ser_open ss) []
                      (Some (time_time w (reads ss))) (q_parsed ss)
                      (Deque.clear (data ss)) [] None (lit "data_xiao.csv")
                      (S (reads ss)) (slept ss) in
    ss <- sleep w f_0_25 ss ;;
    Ret (Session (reader_thread ss) (stop_event ss) (ser_open_flag w) (err_holder w)
                 (t0 ss) (q_parsed ss) (data ss) (all_rows ss) (download_bytes ss)
                 (download_name ss) (reads ss) (slept ss)).

Definition to_csv (rows : list imu_row) : csv_document :=
  {| csv_header := COLUMNS; csv_rows := map imu_values rows |}.

Definition stop_reader_and_save (w : world) (ss : session) : outcome session :=
  ss <- (if thread_alive ss then sleep w f_1_5 ss else Ret ss) ;;
  let name := lit "data_xiao_" ++ strftime w ++ lit ".csv" in
  Ret (Session None None false (last_error ss) (t0 ss) (q_parsed ss) (data ss)
               (all_rows ss)
               (match all_rows ss with
                | [] => download_bytes ss
                | _ => Some (to_csv (all_rows ss))
                end)
               (match all_rows ss with
                | [] => download_name ss
                | _ => name
                end)
               (reads ss) (slept ss)).

(** [t_rel = time.time() - ss.t0 if ss.t0 else 0.0]: the first field of
    the row is discarded ([_, ax, ay, az, gx, gy, gz = row]). *)
Definition t_rel_of (w : world) (ss : session) : float * nat :=
  match t0 ss with
  | Some start =>
      if truthy start then (fsub (time_time w (reads ss)) start, S (reads ss))
      else (fzero, reads ss)
  | None => (fzero, reads ss)
  end.

Fixpoint drain (fuel : nat) (w : world) (ss : session) (new_rows : list imu_row)
  : outcome (session * list imu_row) :=
  match fuel with
  | O => OutOfFuel
  | S fuel' =>
      got <- xiao_imu_ble_final.next_row (q_parsed ss) ;;
      match got with
      | None => Ret (ss, new_rows)
      | Some (row, q) =>
          let '(t_rel, reads') := t_rel_of w ss in
          let full := retime t_rel row in
          drain fuel' w
                (Session (reader_thread ss) (stop_event ss) (ser_open ss)
                         (last_error ss) (t0 ss) q (Deque.append (data ss) full)
                         (all_rows ss ++ [full]) (download_bytes ss)
                         (download_name ss) reads' (slept ss))
                (new_rows ++ [full])
      end
  end.

Definition pump_queue_into_buffers (w : world) (ss : session)
  : outcome (session * list imu_row) :=
  drain (S (length (Queue.items (q_parsed ss)))) w ss [].

Definition with_all_rows (ss : session) (rows : list imu_row) : session :=
  Session (reader_thread ss) (stop_event ss) (ser_open ss) (last_error ss) (t0 ss)
          (q_parsed ss) (data ss) rows (download_bytes ss) (download_name ss)
          (reads ss) (slept ss).

(** The timestamp of the [i]-th row of one drain: the field the device sent
    plays no part. *)
Definition stamp (w : world) (ss : session) (i : nat) : float :=
  match t0 ss with
  | Some start => if truthy start then fsub (time_time w (reads ss + i)) start else fzero
  | None => fzero
  end.

End xiao_imu_stream.

(** ** xiao_usb_live.py *)

Module xiao_usb_live.
Import Py.

Definition CSV_HEADER : list str := xiao_imu_ble_final.COLUMNS.
Definition MAX_POINTS : nat := 5000.
Definition RAW_TAIL_BYTES : Z := 256.
Definition CHANNEL_SIZE : Z := 10000.

(** A row is the tuple of floats [try_parse] returns. *)
Definition row := list float.

Definition try_parse (line : str) : outcome (option row) :=
  let s := strip line in
  if bool_decide (s = []) || startswith s (lit "#") then Ret None
  else
    let parts := split (chr ",") s in
    if len parts <? len CSV_HEADER then Ret None
    else
      try_except
        (vals <- mapM float_of_str (take (length CSV_HEADER) parts) ;;
         Ret (Some vals))
        (except_only is_ValueError (Ret None)).

(** [if parsed:] on a tuple: an empty tuple is falsy. *)
Definition tuple_truthy (parsed : option row) : bool :=
  match parsed with
  | Some (_ :: _) => true
  | _ => false
  end.

Definition on_line (line : bytes) (q_parsed : Queue.t row) : outcome (Queue.t row) :=
  parsed <- try_parse (decode_ignore line) ;;
  match parsed with
  | Some r => if tuple_truthy parsed then relay_put q_parsed r else Ret q_parsed
  | None => Ret q_parsed
  end.

(** The body of [if chunk:] in [reader_thread_fn]; state: [buf], the two
    channels. *)
Definition on_chunk (chunk : bytes) (st : bytes * Queue.t row * Queue.t bytes)
  : outcome (bytes * Queue.t row * Queue.t bytes) :=
  let '(buf, q_parsed, q_raw) := st in
  q_raw <- relay_put q_raw chunk ;;
  let buf := buf ++ chunk in
  r <- Framer.split_lines on_line (Framer.loop_fuel buf) buf q_parsed ;;
  Ret (r.1, r.2, q_raw).

Record session : Type := Session {
  reader_thread : option bool;
  stop_event : option bool;
  ser_open : bool;
  parsed : Deque.t row;
  raw_tail : bytes;
  bytes_total : Z;
  lines_total : Z;
  last_rx_ts : float;
  last_error : str;
  q_parsed : Queue.t row;
  q_raw : Queue.t bytes;
  logging : bool;
  log_rows : list row;
  reads : nat;
  slept : list float }.

Record world : Type := World {
  time_time : nat -> float;
  produced : nat -> list row;
  produced_raw : nat -> list bytes;
  err_holder : str;
  ser_open_flag : bool }.

Definition thread_alive (ss : session) : bool :=
  match reader_thread ss with Some alive => alive | None => false end.

Definition sleep (w : world) (d : float) (ss : session) : outcome session :=
  q <- relay_put_all (q_parsed ss) (produced w (length (slept ss))) ;;
  qr <- relay_put_all (q_raw ss) (produced_raw w (length (slept ss))) ;;
  Ret (Session (reader_thread ss) (stop_event ss) (ser_open ss) (parsed ss)
               (raw_tail ss) (bytes_total ss) (lines_total ss) (last_rx_ts ss)
               (last_error ss) q qr (logging ss) (log_rows ss) (reads ss)
               (slept ss ++ [d])).

Definition f_0_3 : float := float_of_decimal false 3 (-1).

(** "do not clear log here so you can keep logging across reconnects" *)
Definition start_reader (w : world) (ss : session) : outcome session :=
  if thread_alive ss then Ret ss
  else
    let ss := Session (Some true) (Some false) false (Deque.clear (parsed ss))
                      [] 0 0 fzero [] (q_parsed ss) (q_raw ss) (logging ss)
                      (log_rows ss) (reads ss) (slept ss) in
    ss <- sleep w f_0_3 ss ;;
    Ret (Session (reader_thread ss) (stop_event ss) (ser_open_flag w) (parsed ss)
                 (raw_tail ss) (bytes_total ss) (lines_total ss) (last_rx_ts ss)
                 (err_holder w) (q_parsed ss) (q_raw ss) (logging ss)
                 (log_rows ss) (reads ss) (slept ss)).


Definition next_raw (q : Queue.t bytes) : outcome (option (bytes * Queue.t bytes)) :=
  try_except (r <- Queue.get_nowait q ;; Ret (Some r))
             (except_only is_QueueEmpty (Ret None)).

Definition next_row (q : Queue.t row) : outcome (option (row * Queue.t row)) :=
  try_except (r <- Queue.get_nowait q ;; Ret (Some r))
             (except_only is_QueueEmpty (Ret None)).

(** [tail[-RAW_TAIL_BYTES:]] *)
Definition last_bytes (n : Z) (b : bytes) : bytes :=
  drop (Z.to_nat (len b - n)) b.

Fixpoint drain_raw (fuel : nat) (w : world) (ss : session) : outcome session :=
  match fuel with
  | O => OutOfFuel
  | S fuel' =>
      got <- next_raw (q_raw ss) ;;
      match got with
      | None => Ret ss
      | Some (ch, q) =>
          let tail := raw_tail ss ++ ch in
          let tail := if RAW_TAIL_BYTES <? len tail
                      then last_bytes RAW_TAIL_BYTES tail else tail in
          drain_raw fuel' w
            (Session (reader_thread ss) (stop_event ss) (ser_open ss) (parsed ss)
                     tail (bytes_total ss + len ch) (lines_total ss)
                     (time_time w (reads ss)) (last_error ss) (q_parsed ss) q
                     (logging ss) (log_rows ss) (S (reads ss)) (slept ss))
      end
  end.

Fixpoint drain_parsed (fuel : nat) (w : world) (ss : session) : outcome session :=
  match fuel with
  | O => OutOfFuel
  | S fuel' =>
      got <- next_row (q_parsed ss) ;;
      match got with
      | None => Ret ss
      | Some (r, q) =>
          drain_parsed fuel' w
            (Session (reader_thread ss) (stop_event ss) (ser_open ss)
                     (Deque.append (parsed ss) r) (raw_tail ss) (bytes_total ss)
                     (lines_total ss + 1) (time_time w (reads ss)) (last_error ss)
                     q (q_raw ss) (logging ss)
                     (if logging ss then log_rows ss ++ [r] else log_rows ss)
                     (S (reads ss)) (slept ss))
      end
  end.

Definition pump_queues (w : world) (ss : session) : outcome session :=
  ss <- drain_raw (S (length (Queue.items (q_raw ss)))) w ss ;;
  drain_parsed (S (length (Queue.items (q_parsed ss)))) w ss.

(** The [while not stop_event.is_set()] loop of [reader_thread_fn], over
    the chunks [ser.read(256)] returned until the stop flag was seen; an
    empty chunk (a read timeout) is skipped by [if chunk:]. *)
Fixpoint reader_loop (chunks : list bytes) (st : bytes * Queue.t row * Queue.t bytes)
  : outcome (bytes * Queue.t row * Queue.t bytes) :=
  match chunks with
  | [] => Ret st
  | chunk :: more =>
      st' <- (if Framer.nonempty chunk then on_chunk chunk st else Ret st) ;;
      reader_loop more st'
  end.

(** The session seen by the UI thread once the reader thread has worked on
    the two channels. *)
Definition with_channels (ss : session) (q : Queue.t row) (qr : Queue.t bytes)
  : session :=
  Session (reader_thread ss) (stop_event ss) (ser_open ss) (parsed ss)
          (raw_tail ss) (bytes_total ss) (lines_total ss) (last_rx_ts ss)
          (last_error ss) q qr (logging ss) (log_rows ss) (reads ss) (slept ss).

(** *** The pump while the reader thread runs

    [pump_queues] again, this time with the reader thread at work while the
    UI thread is inside the two [while True] loops: just before the [g]-th
    [get_nowait] of the session (on either channel) the thread has put the
    chunks [raw_arrivals g] on [q_raw] and the rows [row_arrivals g] on
    [q_parsed] (a full channel drops them); [gets] counts the calls made so
    far. *)
Definition offer (chunks : list bytes) (rows : list row) (ss : session)
  : outcome session :=
  qr <- relay_put_all (q_raw ss) chunks ;;
  q <- relay_put_all (q_parsed ss) rows ;;
  Ret (with_channels ss q qr).

Fixpoint drain_raw_live (fuel : nat) (w : world) (raw_arrivals : nat -> list bytes)
    (row_arrivals : nat -> list row) (gets : nat) (ss : session)
  : outcome (session * nat) :=
  match fuel with
  | O => OutOfFuel
  | S fuel' =>
      ss <- offer (raw_arrivals gets) (row_arrivals gets) ss ;;
      got <- next_raw (q_raw ss) ;;
      match got with
      | None => Ret (ss, S gets)
      | Some (ch, q) =>
          let tail := raw_tail ss ++ ch in
          let tail := if RAW_TAIL_BYTES <? len tail
                      then last_bytes RAW_TAIL_BYTES tail else tail in
          drain_raw_live fuel' w raw_arrivals row_arrivals (S gets)
            (Session (reader_thread ss) (stop_event ss) (ser_open ss) (parsed ss)
                     tail (bytes_total ss + len ch) (lines_total ss)
                     (time_time w (reads ss)) (last_error ss) (q_parsed ss) q
                     (logging ss) (log_rows ss) (S (reads ss)) (slept ss))
      end
  end.

Fixpoint drain_parsed_live (fuel : nat) (w : world) (raw_arrivals : nat -> list bytes)
    (row_arrivals : nat -> list row) (gets : nat) (ss : session)
  : outcome (session * nat) :=
  match fuel with
  | O => OutOfFuel
  | S fuel' =>
      ss <- offer (raw_arrivals gets) (row_arrivals gets) ss ;;
      got <- next_row (q_parsed ss) ;;
      match got with
      | None => Ret (ss, S gets)
      | Some (r, q) =>
          drain_parsed_live fuel' w raw_arrivals row_arrivals (S gets)
            (Session (reader_thread ss) (stop_event ss) (ser_open ss)
                     (Deque.append (parsed ss) r) (raw_tail ss) (bytes_total ss)
                     (lines_total ss + 1) (time_time w (reads ss)) (last_error ss)
                     q (q_raw ss) (logging ss)
                     (if logging ss then log_rows ss ++ [r] else log_rows ss)
                     (S (reads ss)) (slept ss))
      end
  end.

Definition pump_queues_live (fuel : nat) (w : world) (raw_arrivals : nat -> list bytes)
    (row_arrivals : nat -> list row) (gets : nat) (ss : session)
  : outcome (session * nat) :=
  r <- drain_raw_live fuel w raw_arrivals row_arrivals gets ss ;;
  drain_parsed_live fuel w raw_arrivals row_arrivals r.2 r.1.

End xiao_usb_live.

(** ** The text-buffer framer of xiao_usb.py and Test_BLE_Sense.py

    Both scripts keep the undecoded tail in a [str] and cut it with
    [str.splitlines] once it holds an LF:
<<
    buffer += text
    if "\n" in buffer:
        lines = buffer.splitlines()
        if not buffer.endswith("\n"):
            buffer = lines.pop()
        else:
            buffer = ""
        for ln in lines:
            parsed = parse(ln)
            if parsed:
                data.append(parsed)
>> *)
Module LineBuffer.
Import Py.

(** [lines.pop()] *)
Definition pop (lines : list str) : outcome (str * list str) :=
  match last lines with
  | Some l => Ret (l, take (length lines - 1) lines)
  | None => Raise IndexError
  end.

Section Feed.
Context {A : Type} (parse : str -> outcome (option A)) (truthy : A -> bool).

(** The [for ln in lines] loop. *)
Fixpoint append_parsed (lines : list str) (data : Deque.t A) : outcome (Deque.t A) :=
  match lines with
  | [] => Ret data
  | ln :: more =>
      parsed <- parse ln ;;
      append_parsed more
        (match parsed with
         | Some r => if truthy r then Deque.append data r else data
         | None => data
         end)
  end.

Definition feed_text (text : str) (st : str * Deque.t A) : outcome (str * Deque.t A) :=
  let buffer := st.1 ++ text in
  if contains NL buffer then
    let lines := splitlines buffer in
    cut <- (if negb (endswith buffer [NL])
            then p <- pop lines ;; Ret p
            else Ret ([], lines)) ;;
    data <- append_parsed cut.2 st.2 ;;
    Ret (cut.1, data)
  else Ret (buffer, st.2).

Fixpoint feed_texts (texts : list str) (st : str * Deque.t A) : outcome (str * Deque.t A) :=
  match texts with
  | [] => Ret st
  | text :: more => st' <- feed_text text st ;; feed_texts more st'
  end.

End Feed.

End LineBuffer.

(** ** xiao_usb.py: the 3-field decoder [t,v1,v2] *)

Module xiao_usb.
Import Py.

Definition CSV_HEADER : list str := [lit "t"; lit "v1"; lit "v2"].

Definition try_parse (line : str) : outcome (option (list float)) :=
  try_except
    (vals <- mapM float_of_str (split (chr ",") (strip line)) ;;
     if len vals =? len CSV_HEADER then Ret (Some vals) else Ret None)
    (except_any (Ret None)).

Definition MAX_POINTS : nat := 500.

(** A tuple is truthy when it is not empty. *)
Definition tuple_truthy (vals : list float) : bool :=
  match vals with [] => false | _ => true end.

(** The "Read new data" block, given what [ser.read(ser.in_waiting)] returned;
    state: [st.session_state.buffer] and [st.session_state.data]. *)
Definition read_new_data (chunk : bytes) (st : str * Deque.t (list float))
  : outcome (str * Deque.t (list float)) :=
  LineBuffer.feed_text try_parse tuple_truthy (decode_ignore chunk) st.

End xiao_usb.

(** ** Test_BLE_Sense.py: the 3-field decoder of the BLE dashboard *)

Module Test_BLE_Sense.
Import Py.

Definition parse_line (line : str) : outcome (option (float * float * float)) :=
  let parts := split (chr ",") (strip line) in
  if negb (len parts =? 3) then Ret None
  else
    try_except
      (a <- (p <- getitem parts 0 ;; float_of_str p) ;;
       b <- (p <- getitem parts 1 ;; float_of_str p) ;;
       c <- (p <- getitem parts 2 ;; float_of_str p) ;;
       Ret (Some (a, b, c)))
      (except_only is_ValueError (Ret None)).

Definition MAX_POINTS : nat := 600.

(** [handle_notify] of [connect_and_listen]; state: the session's [buffer]
    and [queue].  Decoding with [errors="ignore"] does not fail, so the
    [except: return] is not taken; a 3-tuple is truthy. *)
Definition handle_notify (data : bytes) (st : str * Deque.t (float * float * float))
  : outcome (str * Deque.t (float * float * float)) :=
  LineBuffer.feed_text parse_line (fun _ => true) (decode_ignore data) st.

End Test_BLE_Sense.

(** ** controll_LEDs_BLE.py: the command/response exchange *)

Module controll_LEDs_BLE.
Import Py.

(** [client] is [Some is_connected]; [written] lists the texts handed to
    [write_gatt_char] (before [.encode()]); [reads] and [slept] count the
    clock readings and the sleeps of the calling thread. *)
Record BLEManager : Type := Manager {
  client : option bool;
  last_reply : str;
  connected : bool;
  written : list str;
  reads : nat;
  slept : list float }.

(** The other side: the clock, the notifications the BLE thread delivers
    while the caller sleeps or waits for a write, and whether a write
    fails. *)
Record world : Type := World {
  perf_counter : nat -> float;
  notified : nat -> list bytes;
  notified_on_write : nat -> list bytes;
  write_error : nat -> option exn }.

Definition NO_REPLY : str := lit "(no reply)".
(** [0.02] *)
Definition POLL_S : float := float_of_decimal false 2 (-2).

(** [_notify]: the cell keeps the latest notification only.  Decoding with
    [errors="ignore"] does not fail, so the [except] branch is not taken. *)
Definition _notify (data : bytes) (m : BLEManager) : BLEManager :=
  Manager (client m) (strip (decode_ignore data)) (connected m) (written m)
          (reads m) (slept m).

Definition deliver (datas : list bytes) (m : BLEManager) : BLEManager :=
  foldl (fun m data => _notify data m) m datas.

Definition client_ok (m : BLEManager) : bool :=
  match client m with Some c => c | None => false end.

Definition send (w : world) (text : str) (m : BLEManager) : outcome BLEManager :=
  if negb (client_ok m) then Raise RuntimeError
  else
    let n := length (written m) in
    let m := Manager (client m) [] (connected m)
                     (written m ++ [text ++ [0x0A%N]]) (reads m) (slept m) in
    match write_error w n with
    | Some e => Raise e
    | None => Ret (deliver (notified_on_write w n) m)
    end.

Definition read_clock (w : world) (m : BLEManager) : float * BLEManager :=
  (perf_counter w (reads m),
   Manager (client m) (last_reply m) (connected m) (written m) (S (reads m))
           (slept m)).

Definition sleep (w : world) (d : float) (m : BLEManager) : BLEManager :=
  let m := deliver (notified w (length (slept m))) m in
  Manager (client m) (last_reply m) (connected m) (written m) (reads m)
          (slept m ++ [d]).

(** [while time.perf_counter() - t0 < timeout_s: ...] *)
Fixpoint wait_loop (fuel : nat) (w : world) (t0 timeout_s : float)
    (m : BLEManager) : outcome (str * BLEManager) :=
  match fuel with
  | O => OutOfFuel
  | S fuel' =>
      let '(clock, m) := read_clock w m in
      if flt (fsub clock t0) timeout_s then
        match last_reply m with
        | _ :: _ => Ret (last_reply m, m)
        | [] => wait_loop fuel' w t0 timeout_s (sleep w POLL_S m)
        end
      else Ret (NO_REPLY, m)
  end.

Definition send_and_wait (fuel : nat) (w : world) (text : str)
    (timeout_s : float) (m : BLEManager) : outcome (str * BLEManager) :=
  m <- send w text m ;;
  let '(t0, m) := read_clock w m in
  wait_loop fuel w t0 timeout_s m.

(** Reading aids for the statements about [send_and_wait]. *)



(** Whether the [j]-th poll after [t0] still falls within the timeout. *)
Definition in_window (w : world) (t0 timeout_s : float) (first_read j : nat) : bool :=
  flt (fsub (perf_counter w (first_read + j)) t0) timeout_s.

(** Two stub devices for the examples: the clock ticks one second per
    reading; the first device never replies, the second answers "OK D7"
    (with its line ending) during the first sleep. *)
Definition ready : BLEManager := Manager (Some true) (lit "READY") true [] 0 [].

Definition silent_device : world :=
  World (fun i => float_of_Z (Z.of_nat i)) (fun _ => []) (fun _ => []) (fun _ => None).

Definition ok_d7 : bytes := ["O"; "K"; " "; "D"; "7"; x0d; x0a]%byte.

Definition obliging_device : world :=
  World (fun i => float_of_Z (Z.of_nat i))
        (fun i => match i with O => [ok_d7] | _ => [] end)
        (fun _ => []) (fun _ => None).

End controll_LEDs_BLE.

(** ** app.py (and controll_LEDs_USB.py): the command exchange over serial *)

Module app.
Import Py.

(** The serial port as [send_cmd] meets it: whether opening, the buffer
    resets, the write or the closing fail (with the text of the exception),
    what the [k]-th [readline] returns (the bytes read, empty on a read
    timeout, or the text of an exception), and the clock. *)
Record world : Type := World {
  open_error : option str;
  reset_error : option str;
  write_error : option str;
  readline : nat -> str + bytes;
  close_error : option str;
  time_time : nat -> float }.

Definition NO_REPLY : str := lit "(no reply)".

(** [f"(error: {e})"] *)
Definition error_text (msg : str) : str := lit "(error: " ++ msg ++ lit ")".

(** [1.2] *)
Definition WINDOW_S : float := float_of_decimal false 12 (-1).

(** [while time.time() < t_end: line = ser.readline()...strip(); if line:
    reply = line; break]; the result is the reply ([""] when none came) or
    the text of the exception a [readline] raised.  The [k]-th turn makes the
    clock reading number [k + 1] and the [k]-th [readline]. *)
Fixpoint read_reply (fuel : nat) (w : world) (t_end : float) (k : nat)
  : outcome (str + str) :=
  match fuel with
  | O => OutOfFuel
  | S fuel' =>
      if flt (time_time w (S k)) t_end then
        match readline w k with
        | inl msg => Ret (inl msg)
        | inr raw =>
            match strip (decode_ignore raw) with
            | [] => read_reply fuel' w t_end (S k)
            | line => Ret (inr line)
            end
        end
      else Ret (inr [])
  end.

(** [send_cmd(port, cmd)]: every exception inside the [try] becomes the
    returned text.  Once the port is open, the [with] block closes it on the
    way out, also when its body raised; an exception of [close] then
    replaces the one of the body (or the value being returned).  ([cmd] only
    reaches the device through the write.) *)
Definition send_cmd (fuel : nat) (w : world) (cmd : str) : outcome str :=
  match open_error w with
  | Some msg => Ret (error_text msg)
  | None =>
      body <- match reset_error w with
              | Some msg => Ret (inl msg)
              | None =>
                  match write_error w with
                  | Some msg => Ret (inl msg)
                  | None => read_reply fuel w (fadd (time_time w 0) WINDOW_S) 0
                  end
              end ;;
      match close_error w with
      | Some msg => Ret (error_text msg)
      | None =>
          match body with
          | inl msg => Ret (error_text msg)
          | inr reply => Ret (match reply with [] => NO_REPLY | _ => reply end)
          end
      end
  end.

End app.

(** ** Reading aids for the statements *)

(** A bounded channel within its capacity. *)
Definition channel_ok {A} (q : Queue.t A) : Prop :=
  0 < Queue.maxsize q /\ len (Queue.items q) <= Queue.maxsize q.

(** A 7-tuple of floats read as an IMU record. *)
Definition row_of_values (vals : list Py.float) : option imu_row :=
  match vals with
  | [t; ax; ay; az; gx; gy; gz] => Some (Row t ax ay az gx gy gz)
  | _ => None
  end.

(** A 3-tuple as the list of its components. *)
Definition triple_values (r : Py.float * Py.float * Py.float) : list Py.float :=
  [r.1.1; r.1.2; r.2].

(** What a thread still has to offer between the reads of a channel, from
    the [g]-th read on, when it offers nothing from the [K]-th read on. *)
Definition pending {A} (arrivals : nat -> list A) (K g : nat) : nat :=
  length (concat (map arrivals (seq g (K - g)))).

(** * Facts *)

(** ** The line framer *)

Section FramerFacts.
Import Framer.

Lemma find_ge buf c : -1 <= find buf c.
Proof.
  induction buf as [|b buf IH]; cbn; [lia|].
  destruct (Byte.eqb b c); [lia|].
  destruct (Z.eqb_spec (find buf c) (-1)); lia.
Qed.

Lemma earliest_cons b buf :
  earliest_terminator (b :: buf) =
  if is_term b then 0
  else if earliest_terminator buf =? -1 then -1 else earliest_terminator buf + 1.
Proof.
  unfold earliest_terminator, is_term. cbn [find].
  pose proof (find_ge buf LF). pose proof (find_ge buf CR).
  destruct (Z.eqb_spec (find buf LF) (-1)) as [e1|n1],
           (Z.eqb_spec (find buf CR) (-1)) as [e2|n2];
    destruct (Byte.eqb b LF), (Byte.eqb b CR); cbn [orb negb andb];
    rewrite ?e1, ?e2, ?Z.eqb_refl; cbn [negb andb];
    repeat (match goal with
            | |- context [Z.eqb ?x ?y] => destruct (Z.eqb_spec x y)
            end; cbn [negb andb]); try lia.
Qed.

Lemma earliest_ge buf : -1 <= earliest_terminator buf.
Proof.
  induction buf as [|b buf IH]; [cbn; lia|].
  rewrite earliest_cons. destruct (is_term b); [lia|].
  destruct (Z.eqb_spec (earliest_terminator buf) (-1)); lia.
Qed.

Lemma earliest_term_free buf : term_free buf -> earliest_terminator buf = -1.
Proof.
  induction 1 as [|b buf Hb _ IH]; [reflexivity|].
  rewrite earliest_cons, Hb, IH. reflexivity.
Qed.

(** The buffer either holds no terminator, or splits at its first one. *)
Lemma earliest_split buf :
  (term_free buf /\ earliest_terminator buf = -1) \/
  (exists a t rest, buf = a ++ t :: rest /\ term_free a /\ is_term t = true
                    /\ earliest_terminator buf = len a).
Proof.
  induction buf as [|b buf IH].
  - left. split; [constructor | reflexivity].
  - rewrite earliest_cons. destruct (is_term b) eqn:Hb.
    + right. exists [], b, buf. repeat split; [constructor | assumption].
    + destruct IH as [[Hfree He] | (a & t & rest & -> & Ha & Ht & He)].
      * left. rewrite He. split; [constructor; assumption | reflexivity].
      * right. exists (b :: a), t, rest. rewrite He.
        repeat split; [constructor; assumption | assumption |].
        unfold len. cbn [length].
        destruct (Z.eqb_spec (Z.of_nat (length a)) (-1)); lia.
Qed.



Lemma byte_eqb_decide (b c : byte) : Byte.eqb b c = bool_decide (b = c).
Proof.
  destruct (Byte.eqb b c) eqn:E; symmetry.
  - apply bool_decide_eq_true. exact (Byte.byte_dec_bl _ _ E).
  - apply bool_decide_eq_false. exact (Byte.eqb_false E).
Qed.

Lemma in_terminators_one t : in_terminators [t] = is_term t.
Proof.
  unfold in_terminators, is_term. rewrite !byte_eqb_decide.
  f_equal; apply bool_decide_ext; split; congruence.
Qed.

Lemma slice_front (a rest : bytes) : slice (a ++ rest) 0 (len a) = a.
Proof.
  unfold slice, len. rewrite Z.sub_0_r, Nat2Z.id. cbn [Z.to_nat drop].
  apply take_app_length.
Qed.

Lemma to_nat_len_plus {A} (a : list A) (k : nat) :
  Z.to_nat (len a + Z.of_nat k) = (length a + k)%nat.
Proof. unfold len. lia. Qed.

(** One iteration deletes the line, its terminator and a paired one. *)
Lemma del_after a t rest :
  del_prefix (a ++ t :: rest) (drop_count (a ++ t :: rest) (len a))
  = after_terminator rest.
Proof.
  unfold drop_count, del_prefix, after_terminator.
  assert (Hlen : len (a ++ t :: rest) = len a + 1 + len rest).
  { unfold len. rewrite length_app. cbn [length]. lia. }
  assert (Hdrop : forall k (l : bytes), drop (length a + S k) (a ++ t :: l) = drop k l).
  { intros k l. rewrite drop_app_add'; [reflexivity | reflexivity]. }
  destruct rest as [|t2 rest'].
  - replace (len a + 1 <? len (a ++ [t])) with false
      by (symmetry; apply Z.ltb_ge; rewrite Hlen; unfold len; cbn; lia).
    cbn [andb]. change 1 with (Z.of_nat 1). rewrite to_nat_len_plus.
    rewrite (Hdrop 0%nat). reflexivity.
  - replace (len a + 1 <? len (a ++ t :: t2 :: rest')) with true
      by (symmetry; apply Z.ltb_lt; rewrite Hlen; unfold len; cbn [length]; lia).
    cbn [andb]. unfold slice.
    replace (len a + 1 + 1 - (len a + 1)) with 1 by lia.
    change (len a + 1) with (len a + Z.of_nat 1) at 1. rewrite to_nat_len_plus.
    rewrite (Hdrop 0%nat). cbn [drop].
    change (take (Z.to_nat 1) (t2 :: rest')) with [t2].
    rewrite in_terminators_one. destruct (is_term t2).
    + replace (len a + 1 + 1) with (len a + Z.of_nat 2) by lia.
      rewrite to_nat_len_plus. rewrite (Hdrop 1%nat). reflexivity.
    + change (len a + 1) with (len a + Z.of_nat 1). rewrite to_nat_len_plus.
      rewrite (Hdrop 0%nat). reflexivity.
Qed.

Lemma after_terminator_length rest : (length (after_terminator rest) <= length rest)%nat.
Proof.
  destruct rest as [|t2 r]; cbn; [lia|]. destruct (is_term t2); cbn; lia.
Qed.

Lemma split_lines_done {S} (on_line : bytes -> S -> outcome S) fuel buf st :
  term_free buf -> split_lines on_line (Datatypes.S fuel) buf st = Ret (buf, st).
Proof. intros H. cbn. rewrite (earliest_term_free _ H). reflexivity. Qed.

Lemma split_lines_step {S} (on_line : bytes -> S -> outcome S) fuel a t rest st :
  term_free a -> is_term t = true ->
  split_lines on_line (Datatypes.S fuel) (a ++ t :: rest) st
  = (st' <- on_line a st ;; split_lines on_line fuel (after_terminator rest) st').
Proof.
  intros Ha Ht. cbn [split_lines].
  destruct (earliest_split (a ++ t :: rest))
    as [[Hfree _] | (a' & t' & rest' & Heq & Ha' & Ht' & He)].
  - exfalso. apply Forall_app in Hfree as [_ Hfree].
    apply Forall_cons in Hfree as [Hfree _]. congruence.
  - assert (a' = a) as ->.
    { clear He. revert a' Heq Ha'. induction Ha as [|x a Hx Ha IH]; intros a' Heq Ha'.
      - destruct a' as [|y a']; [reflexivity|]. cbn in Heq. injection Heq as -> _.
        apply Forall_cons in Ha' as [Hy _]. congruence.
      - destruct a' as [|y a'].
        + cbn in Heq. injection Heq as <- _. congruence.
        + cbn in Heq. injection Heq as -> Heq.
          apply Forall_cons in Ha' as [_ Ha']. f_equal. apply IH; assumption. }
    rewrite He.
    replace (len a =? -1) with false by (symmetry; apply Z.eqb_neq; unfold len; lia).
    rewrite slice_front, del_after. reflexivity.
Qed.



(** *** The reference reading [runs] *)

Lemma runs_free cur a s : term_free a -> runs cur (a ++ s) = runs (cur ++ a) s.
Proof.
  intros Ha. revert cur. induction Ha as [|x a Hx _ IH]; intros cur.
  - rewrite app_nil_r. reflexivity.
  - cbn [app runs]. rewrite Hx, IH, <- app_assoc. reflexivity.
Qed.

Lemma runs_free_all cur a : term_free a -> runs cur a = ([], cur ++ a).
Proof.
  intros Ha. rewrite <- (app_nil_r a) at 1. rewrite runs_free by assumption.
  reflexivity.
Qed.

Lemma runs_app cur s1 s2 :
  runs cur (s1 ++ s2)
  = ((runs cur s1).1 ++ (runs (runs cur s1).2 s2).1, (runs (runs cur s1).2 s2).2).
Proof.
  revert cur. induction s1 as [|b s1 IH]; intros cur; cbn [app runs fst snd].
  - destruct (runs cur s2); reflexivity.
  - destruct (is_term b).
    + rewrite (IH []). destruct (runs [] s1) as [fs r]. reflexivity.
    + apply IH.
Qed.

Lemma runs_rest_free cur s : term_free cur -> term_free (runs cur s).2.
Proof.
  revert cur. induction s as [|b s IH]; intros cur Hcur; cbn [runs]; [assumption|].
  destruct (is_term b) eqn:Hb.
  - specialize (IH [] (Forall_nil_2 _)). destruct (runs [] s); assumption.
  - apply IH. apply Forall_app; split; [assumption|]. repeat constructor. assumption.
Qed.

Lemma runs_after rest :
  filter nonempty (runs [] (after_terminator rest)).1 = filter nonempty (runs [] rest).1
  /\ (runs [] (after_terminator rest)).2 = (runs [] rest).2.
Proof.
  destruct rest as [|t2 r]; [split; reflexivity|]. cbn [after_terminator].
  destruct (is_term t2) eqn:Ht; [|split; reflexivity].
  cbn [runs]. rewrite Ht. destruct (runs [] r) as [fs q]. split; reflexivity.
Qed.

Lemma fold_lines_app {S} (on_line : bytes -> S -> outcome S) l1 l2 st :
  fold_lines on_line (l1 ++ l2) st
  = (st' <- fold_lines on_line l1 st ;; fold_lines on_line l2 st').
Proof.
  revert st. induction l1 as [|l l1 IH]; intros st; cbn; [reflexivity|].
  destruct (on_line l st); cbn; [apply IH | reflexivity | reflexivity].
Qed.

Lemma fold_lines_collect fs acc : fold_lines collect fs acc = Ret (acc ++ fs).
Proof.
  revert acc. induction fs as [|f fs IH]; intros acc; cbn.
  - rewrite app_nil_r. reflexivity.
  - rewrite IH, <- app_assoc. reflexivity.
Qed.

(** The loop cuts the buffer into lines [fs] and a remainder [rest], which
    do not depend on the per-line work; given fuel beyond the length of the
    buffer it runs to its [break]. *)
Lemma split_lines_fold (buf : bytes) :
  exists fs rest,
    (forall (S : Type) (on_line : bytes -> S -> outcome S) fuel st,
        (length buf < fuel)%nat ->
        split_lines on_line fuel buf st
        = (st' <- fold_lines on_line fs st ;; Ret (rest, st')))
    /\ filter nonempty fs = filter nonempty (runs [] buf).1
    /\ rest = (runs [] buf).2
    /\ Forall term_free fs /\ term_free rest.
Proof.
  remember (length buf) as n eqn:Hn. revert buf Hn.
  induction n as [n IH] using lt_wf_ind. intros buf ->.
  destruct (earliest_split buf) as [[Hfree _] | (a & t & rest0 & -> & Ha & Ht & _)].
  - exists [], buf. repeat split.
    + intros S on_line [|fuel] st Hf; [lia|]. rewrite split_lines_done by assumption.
      reflexivity.
    + rewrite runs_free_all by assumption. reflexivity.
    + rewrite runs_free_all by assumption. reflexivity.
    + constructor.
    + assumption.
  - pose proof (after_terminator_length rest0) as Hshort.
    destruct (IH (length (after_terminator rest0))) with (buf := after_terminator rest0)
      as (fs & rest & Hrun & Hfs & Hrest & Hfrees & Hfree); [|reflexivity|].
    { rewrite length_app. cbn [length]. lia. }
    destruct (runs_after rest0) as [Hf1 Hf2].
    assert (Hruns : runs [] (a ++ t :: rest0) = (a :: (runs [] rest0).1, (runs [] rest0).2)).
    { rewrite runs_free by assumption. cbn [app runs]. rewrite Ht.
      destruct (runs [] rest0); reflexivity. }
    exists (a :: fs), rest. repeat split.
    + intros S on_line [|fuel] st Hf; [lia|].
      rewrite split_lines_step by assumption. cbn [fold_lines].
      destruct (on_line a st) as [st'| |]; cbn [bind]; [|reflexivity|reflexivity].
      apply Hrun. rewrite length_app in Hf. cbn [length] in Hf. lia.
    + rewrite Hruns. cbn [fst]. rewrite !filter_cons.
      rewrite Hfs, Hf1. reflexivity.
    + rewrite Hruns. cbn [snd]. rewrite Hrest. exact Hf2.
    + constructor; assumption.
    + assumption.
Qed.

Lemma feed_runs buffer chunk :
  term_free buffer ->
  exists fs rest,
    feed buffer chunk = Ret (fs, rest)
    /\ filter nonempty fs = filter nonempty (runs buffer chunk).1
    /\ rest = (runs buffer chunk).2
    /\ Forall term_free fs /\ term_free rest.
Proof.
  intros Hb. destruct (split_lines_fold (buffer ++ chunk))
    as (fs & rest & Hrun & Hfs & Hrest & Hfrees & Hfree).
  exists fs, rest. unfold feed, loop_fuel.
  rewrite Hrun by lia. rewrite fold_lines_collect. cbn.
  rewrite runs_free in Hfs, Hrest by assumption. cbn [app] in Hfs, Hrest.
  repeat split; assumption.
Qed.

Lemma feed_all_runs chunks : forall buffer,
  term_free buffer ->
  exists fs rest,
    feed_all buffer chunks = Ret (fs, rest)
    /\ filter nonempty fs = filter nonempty (runs buffer (concat chunks)).1
    /\ rest = (runs buffer (concat chunks)).2
    /\ Forall term_free fs /\ term_free rest.
Proof.
  induction chunks as [|chunk more IH]; intros buffer Hb.
  - exists [], buffer. cbn. repeat split; [constructor | assumption].
  - destruct (feed_runs buffer chunk Hb) as (fs1 & r1 & E1 & F1 & R1 & T1 & Hr1).
    destruct (IH r1 Hr1) as (fs2 & r2 & E2 & F2 & R2 & T2 & Hr2).
    exists (fs1 ++ fs2), r2. cbn [feed_all concat]. rewrite E1. cbn [bind snd fst].
    rewrite E2. cbn [bind snd fst]. rewrite runs_app. cbn [fst snd].
    rewrite !filter_app, F1, F2, R2, R1.
    repeat split; [apply Forall_app; split; assumption |].
    rewrite <- R1, <- R2. assumption.
Qed.



Lemma split_lines_fuel {S} (on_line : bytes -> S -> outcome S) buf fuel fuel' st :
  (length buf < fuel)%nat -> (length buf < fuel')%nat ->
  split_lines on_line fuel buf st = split_lines on_line fuel' buf st.
Proof.
  intros H H'. destruct (split_lines_fold buf) as (fs & rest & Hrun & _).
  rewrite (Hrun S on_line fuel st H), (Hrun S on_line fuel' st H'). reflexivity.
Qed.

Lemma fold_lines_skip_empty {S} (on_line : bytes -> S -> outcome S) :
  (forall st, on_line [] st = Ret st) ->
  forall fs st, fold_lines on_line fs st = fold_lines on_line (filter nonempty fs) st.
Proof.
  intros Hskip fs. induction fs as [|f fs IH]; intros st; [reflexivity|].
  rewrite filter_cons. destruct f as [|b f]; cbn [nonempty fold_lines].
  - rewrite Hskip. cbn [bind]. rewrite decide_False by (cbn; tauto). apply IH.
  - rewrite decide_True by (cbn; tauto). cbn [fold_lines].
    destruct (on_line (b :: f) st); cbn [bind]; [apply IH | reflexivity | reflexivity].
Qed.

Lemma process_chunks_fold chunks : forall buffer,
  term_free buffer ->
  exists fs rest,
    (forall (S : Type) (on_line : bytes -> S -> outcome S) st,
        process_chunks on_line chunks (buffer, st)
        = (st' <- fold_lines on_line fs st ;; Ret (rest, st')))
    /\ filter nonempty fs = filter nonempty (runs buffer (concat chunks)).1
    /\ rest = (runs buffer (concat chunks)).2.
Proof.
  induction chunks as [|chunk more IH]; intros buffer Hb.
  - exists [], buffer. repeat split; reflexivity.
  - destruct (split_lines_fold (buffer ++ chunk))
      as (fs1 & r1 & Hrun & F1 & R1 & _ & Hr1).
    rewrite runs_free in F1, R1 by assumption. cbn [app] in F1, R1.
    destruct (IH r1 Hr1) as (fs2 & r2 & Hmore & F2 & R2).
    exists (fs1 ++ fs2), r2. repeat split.
    + intros S on_line st. cbn [process_chunks fst snd]. unfold loop_fuel.
      rewrite Hrun by lia. rewrite fold_lines_app.
      destruct (fold_lines on_line fs1 st) as [st1| |]; cbn [bind];
        [apply Hmore | reflexivity | reflexivity].
    + cbn [concat]. rewrite runs_app. cbn [fst]. rewrite !filter_app, F1, F2, R1.
      reflexivity.
    + cbn [concat]. rewrite runs_app. cbn [snd]. rewrite R2, R1. reflexivity.
Qed.

(** A reader whose per-line work ignores empty lines ends in the same state
    however the stream is cut into chunks. *)
Lemma process_chunks_whole {S} (on_line : bytes -> S -> outcome S) :
  (forall st, on_line [] st = Ret st) ->
  forall chunks st,
    process_chunks on_line chunks ([], st)
    = process_chunks on_line [concat chunks] ([], st).
Proof.
  intros Hskip chunks st.
  destruct (process_chunks_fold chunks [] (Forall_nil_2 _)) as (fs1 & r1 & H1 & F1 & R1).
  destruct (process_chunks_fold [concat chunks] [] (Forall_nil_2 _))
    as (fs2 & r2 & H2 & F2 & R2).
  cbn [concat] in F2, R2. rewrite app_nil_r in F2, R2.
  rewrite H1, H2, (fold_lines_skip_empty on_line Hskip fs1),
    (fold_lines_skip_empty on_line Hskip fs2), F1, F2, R1, R2.
  reflexivity.
Qed.

Lemma handle_notify_all_chunks chunks st :
  xiao_imu_ble_final.handle_notify_all chunks st
  = process_chunks xiao_imu_ble_final.on_line chunks st.
Proof.
  revert st. induction chunks as [|c more IH]; intros st; [reflexivity|].
  cbn [xiao_imu_ble_final.handle_notify_all process_chunks].
  unfold xiao_imu_ble_final.handle_notify.
  destruct (split_lines _ _ _ _); cbn [bind]; [apply IH | reflexivity | reflexivity].
Qed.

End FramerFacts.

(** ** The relay channel and the ring buffer *)

Lemma relay_put_spec {A} (q : Queue.t A) (x : A) :
  relay_put q x
  = Ret (if Queue.full q then q else Queue.mk (Queue.maxsize q) (Queue.items q ++ [x])).
Proof.
  unfold relay_put, Queue.put_nowait. destruct (Queue.full q); reflexivity.
Qed.

Lemma relay_put_all_spec {A} (xs : list A) : forall (q : Queue.t A),
  0 < Queue.maxsize q -> len (Queue.items q) <= Queue.maxsize q ->
  relay_put_all q xs
  = Ret (Queue.mk (Queue.maxsize q)
                  (take (Z.to_nat (Queue.maxsize q)) (Queue.items q ++ xs))).
Proof.
  induction xs as [|x xs IH]; intros [m items] Hm Hlen; cbn in Hm, Hlen |- *.
  - rewrite app_nil_r, take_ge by (unfold len in Hlen; lia). reflexivity.
  - rewrite relay_put_spec. cbn [bind]. unfold Queue.full. cbn [Queue.maxsize Queue.items].
    replace (0 <? m) with true by (symmetry; apply Z.ltb_lt; assumption).
    cbn [andb]. destruct (Z.leb_spec m (len items)) as [Hfull|Hroom].
    + rewrite IH by assumption. cbn [Queue.maxsize Queue.items].
      rewrite !take_app_le by (unfold len in *; lia). reflexivity.
    + rewrite IH; cbn [Queue.maxsize Queue.items].
      * rewrite <- app_assoc. reflexivity.
      * assumption.
      * unfold len in *. rewrite length_app. cbn [length]. lia.
Qed.

(** C6: a push onto the relay channel never raises and never blocks; on a
  full channel the new record is dropped and the channel is left exactly as
  it was.  Pushing a run of records onto a bounded channel therefore keeps
  the records already there, in order, followed by as many of the new ones
  as fit, oldest first; and the consumer takes them from the front. *)
Theorem channel_backpressure {A : Type} (q : Queue.t A) (xs : list A) :
  0 < Queue.maxsize q -> len (Queue.items q) <= Queue.maxsize q ->
  (forall x, relay_put q x
             = Ret (if Queue.full q then q
                    else Queue.mk (Queue.maxsize q) (Queue.items q ++ [x])))
  /\ (forall x, Queue.full q = true -> relay_put q x = Ret q)
  /\ relay_put_all q xs
     = Ret (Queue.mk (Queue.maxsize q)
                     (take (Z.to_nat (Queue.maxsize q)) (Queue.items q ++ xs)))
  /\ (forall x rest, Queue.items q = x :: rest ->
                     Queue.get_nowait q = Ret (x, Queue.mk (Queue.maxsize q) rest)).
Proof.
  intros Hm Hlen. repeat split.
  - intros x. apply relay_put_spec.
  - intros x Hfull. rewrite relay_put_spec, Hfull. reflexivity.
  - apply relay_put_all_spec; assumption.
  - intros x rest Hq. unfold Queue.get_nowait. rewrite Hq. reflexivity.
Qed.

Lemma channel_backpressure_witness :
  relay_put_all (Queue.mk 2 [1%nat]) [2%nat; 3%nat; 4%nat] = Ret (Queue.mk 2 [1%nat; 2%nat]).
Proof.
  apply (channel_backpressure (Queue.mk 2 [1%nat]) [2%nat; 3%nat; 4%nat]);
    unfold len; cbn [length Queue.items Queue.maxsize]; lia.
Defined.

Lemma deque_append_all {A} (xs : list A) (d : Deque.t A) :
  (length (Deque.items d) <= Deque.maxlen d)%nat ->
  foldl Deque.append d xs
  = Deque.mk (Deque.maxlen d)
             (drop (length (Deque.items d ++ xs) - Deque.maxlen d) (Deque.items d ++ xs)).
Proof.
  intros Hd. induction xs as [|x xs IH] using rev_ind.
  - cbn [foldl]. rewrite app_nil_r.
    replace (length (Deque.items d) - Deque.maxlen d)%nat with 0%nat by lia.
    destruct d; reflexivity.
  - rewrite foldl_snoc, IH. unfold Deque.append. cbn [Deque.maxlen Deque.items].
    f_equal. set (M := Deque.items d ++ xs). set (m := Deque.maxlen d).
    rewrite app_assoc. fold M.
    rewrite !length_app, length_drop. cbn [length].
    destruct (Nat.ltb_spec m (length M - (length M - m) + 1)) as [Hlt|Hge].
    + rewrite <- (drop_app_le M [x]) by lia. rewrite drop_drop. f_equal. lia.
    + replace (length M + 1 - m)%nat with 0%nat by lia.
      replace (length M - m)%nat with 0%nat by lia. reflexivity.
Qed.

Lemma push_all (records : list imu_row) : forall ss : xiao_imu_ble_final.session,
  xiao_imu_ble_final.all_rows (foldl (fun s r => xiao_imu_ble_final.push r s) ss records)
  = xiao_imu_ble_final.all_rows ss ++ records
  /\ xiao_imu_ble_final.data (foldl (fun s r => xiao_imu_ble_final.push r s) ss records)
     = foldl Deque.append (xiao_imu_ble_final.data ss) records.
Proof.
  induction records as [|r records IH]; intros ss; cbn [foldl].
  - rewrite app_nil_r. split; reflexivity.
  - destruct (IH (xiao_imu_ble_final.push r ss)) as [H1 H2]. rewrite H1, H2.
    cbn. rewrite <- app_assoc. split; reflexivity.
Qed.

(** C5: when N+k records are pushed (each appended to the ring and to the
  accumulator) in a session whose ring has capacity N, the ring then holds
  exactly the last N of them, oldest first, the accumulator has gained all
  N+k in order, and the ring never held more than N records on the way. *)
Theorem ring_eviction (N k : nat) (records : list imu_row)
    (ss : xiao_imu_ble_final.session) :
  Deque.maxlen (xiao_imu_ble_final.data ss) = N ->
  (length (Deque.items (xiao_imu_ble_final.data ss)) <= N)%nat ->
  length records = (N + k)%nat ->
  let pushed := fun j => foldl (fun s r => xiao_imu_ble_final.push r s) ss (take j records) in
  Deque.items (xiao_imu_ble_final.data (pushed (N + k)%nat)) = drop k records
  /\ length (Deque.items (xiao_imu_ble_final.data (pushed (N + k)%nat))) = N
  /\ xiao_imu_ble_final.all_rows (pushed (N + k)%nat)
     = xiao_imu_ble_final.all_rows ss ++ records
  /\ (forall j, length (Deque.items (xiao_imu_ble_final.data (pushed j))) <= N)%nat.
Proof.
  intros Hmax Hlen Hrec pushed.
  assert (Hdata : forall j,
    Deque.items (xiao_imu_ble_final.data (pushed j))
    = drop (length (Deque.items (xiao_imu_ble_final.data ss) ++ take j records) - N)
           (Deque.items (xiao_imu_ble_final.data ss) ++ take j records)).
  { intros j. unfold pushed.
    destruct (push_all (take j records) ss) as [_ ->].
    rewrite deque_append_all by lia. rewrite Hmax. reflexivity. }
  assert (Hall : take (N + k) records = records) by (apply take_ge; lia).
  assert (Hlast : Deque.items (xiao_imu_ble_final.data (pushed (N + k)%nat)) = drop k records).
  { rewrite Hdata, Hall, length_app, Hrec.
    set (old := Deque.items (xiao_imu_ble_final.data ss)) in *.
    replace (length old + (N + k) - N)%nat with (length old + k)%nat by lia.
    rewrite drop_app_add'; reflexivity. }
  repeat split.
  - exact Hlast.
  - rewrite Hlast, length_drop. lia.
  - unfold pushed. rewrite Hall. apply push_all.
  - intros j. rewrite Hdata, length_drop. lia.
Qed.

Lemma ring_eviction_witness :
  let r := fun n => Row (Py.float_of_Z n) Py.fzero Py.fzero Py.fzero Py.fzero Py.fzero Py.fzero in
  let ss := xiao_imu_ble_final.Session None None false [] None (Queue.mk 20000 [])
              (Deque.mk 2 []) [] 0 None [] 0 [] in
  Deque.items (xiao_imu_ble_final.data
                 (foldl (fun s x => xiao_imu_ble_final.push x s) ss
                        (take (2 + 1) [r 1; r 2; r 3])))
  = drop 1 [r 1; r 2; r 3].
Proof.
  intros r ss.
  apply (ring_eviction 2 1 [r 1; r 2; r 3] ss); cbn; lia.
Defined.


(** ** Python text and floats: the model on known values *)

Example float_of_str_values :
  Py.float_of_str (Py.lit "1") = Ret (Py.float_of_Z 1)
  /\ Py.float_of_str (Py.lit "0.1") = Ret (S754_finite false 0x1999999999999A (-56))
  /\ Py.float_of_str (Py.lit " -2.5e3 ") = Ret (Py.float_of_Z (-2500))
  /\ Py.float_of_str (Py.lit "1e400") = Ret (S754_infinity false)
  /\ Py.float_of_str (Py.lit "-Infinity") = Ret (S754_infinity true)
  /\ Py.float_of_str (Py.lit "1_0") = Ret (Py.float_of_Z 10)
  /\ Py.float_of_str (Py.lit "1.") = Ret (Py.float_of_Z 1)
  /\ Py.float_of_str (Py.lit "9007199254740993") = Ret (Py.float_of_Z 9007199254740992)
  /\ Py.float_of_str (Py.lit "1e-320") = Ret (S754_finite false 2024 (-1074))
  /\ Py.float_of_str (Py.lit "1.7976931348623157e308")
     = Ret (S754_finite false 0x1FFFFFFFFFFFFF 971)
  /\ Py.float_of_str [0x661%N] = Ret (Py.float_of_Z 1).
Proof. repeat split; vm_compute; reflexivity. Qed.

Example float_of_str_errors :
  Py.float_of_str (Py.lit "x") = Raise ValueError
  /\ Py.float_of_str (Py.lit "") = Raise ValueError
  /\ Py.float_of_str (Py.lit "1e") = Raise ValueError
  /\ Py.float_of_str (Py.lit ".") = Raise ValueError
  /\ Py.float_of_str (Py.lit "1__0") = Raise ValueError
  /\ Py.float_of_str (Py.lit "1 2") = Raise ValueError.
Proof. repeat split; vm_compute; reflexivity. Qed.

Example text_values :
  Py.decode_ignore ["a"; xc3; xa9; xff; "b"; xe2]%byte = [97; 233; 98]%N
  /\ Py.strip (Py.lit "  a b ") = Py.lit "a b"
  /\ Py.split (Py.chr ",") (Py.lit "1,,2") = [Py.lit "1"; Py.lit ""; Py.lit "2"]
  /\ Py.split_ws (Py.lit " ax:1  ay:2 ") = [Py.lit "ax:1"; Py.lit "ay:2"]
  /\ Py.split1 (Py.chr ":") (Py.lit "a:b:c") = [Py.lit "a"; Py.lit "b:c"].
Proof. repeat split; vm_compute; reflexivity. Qed.

(** ** The record decoders *)

Section DecoderFacts.
Import Py.

(** [float(s)] returns a float or raises [ValueError], nothing else. *)
Lemma float_of_str_outcome (x : str) :
  (exists v, float_of_str x = Ret v) \/ float_of_str x = Raise ValueError.
Proof.
  assert (Hinner : forall s, (exists v, float_from_string_inner s = Ret v)
                             \/ float_from_string_inner s = Raise ValueError).
  { intros s. unfold float_from_string_inner.
    destruct (string_to_double _) as [[v [|c r]]|]; eauto. }
  unfold float_of_str. destruct (negb _); [apply Hinner|].
  destruct (strip_underscores _ _); [apply Hinner | right; reflexivity].
Qed.

Lemma mapM_float_outcome (l : list str) :
  (exists vs, mapM float_of_str l = Ret vs /\ length vs = length l)
  \/ mapM float_of_str l = Raise ValueError.
Proof.
  induction l as [|x l IH]; cbn [mapM].
  - left. exists []. split; reflexivity.
  - destruct (float_of_str_outcome x) as [[v ->] | ->]; cbn [bind]; [|right; reflexivity].
    destruct IH as [(vs & -> & Hlen) | ->]; cbn [bind]; [|right; reflexivity].
    left. exists (v :: vs). split; [reflexivity | cbn; lia].
Qed.

Lemma parse_line_total (line : str) : exists r, Test_BLE_Sense.parse_line line = Ret r.
Proof.
  unfold Test_BLE_Sense.parse_line.
  destruct (Z.eqb_spec (len (split (chr ",") (strip line))) 3) as [H3|H3];
    cbn [negb]; [|eauto].
  destruct (split (chr ",") (strip line)) as [|a [|b [|c [|d parts]]]];
    try (unfold len in H3; cbn [length] in H3; lia).
  cbn [getitem lookup list_lookup bind].
  destruct (float_of_str_outcome a) as [[va ->] | ->]; cbn; eauto.
  destruct (float_of_str_outcome b) as [[vb ->] | ->]; cbn; eauto.
  destruct (float_of_str_outcome c) as [[vc ->] | ->]; cbn; eauto.
Qed.

Lemma try_parse_total (line : str) :
  exists r, xiao_usb.try_parse line = Ret r
            /\ (r = None \/ exists a b c, r = Some [a; b; c]).
Proof.
  unfold xiao_usb.try_parse.
  destruct (mapM_float_outcome (split (chr ",") (strip line))) as [(vs & -> & _) | ->];
    cbn [bind try_except except_any]; [|eauto].
  destruct (Z.eqb_spec (len vs) (len xiao_usb.CSV_HEADER)) as [H3|H3]; cbn; [|eauto].
  exists (Some vs). split; [reflexivity|]. right.
  destruct vs as [|a [|b [|c [|d vs]]]]; try (unfold len in H3; cbn in H3; lia).
  eauto.
Qed.

Lemma split1_two (sep : N) (tok : str) :
  sep ∈ tok -> exists a b, split1 sep tok = [a; b].
Proof.
  induction tok as [|c r IH]; intros Hin; [inversion Hin|].
  cbn [split1]. destruct (N.eqb_spec c sep) as [->|Hne]; [eauto|].
  apply elem_of_cons in Hin as [->|Hin]; [congruence|].
  destruct (IH Hin) as (a & b & ->). eauto.
Qed.

Lemma kv_loop_total (toks : list str) : forall kv,
  exists r, KeyValue.kv_loop toks kv = Ret r.
Proof.
  induction toks as [|tok toks IH]; intros kv; cbn [KeyValue.kv_loop]; [eauto|].
  unfold contains. destruct (bool_decide (chr ":" ∈ tok)) eqn:Hin; cbn [negb]; [|apply IH].
  apply bool_decide_eq_true in Hin. destruct (split1_two _ _ Hin) as (k & v & ->).
  cbn [unpack2 bind]. destruct (bool_decide (k ∈ KeyValue.EXPECTED_KEYS)); [|apply IH].
  destruct (float_of_str_outcome v) as [[x ->] | ->]; cbn; [apply IH | eauto].
Qed.

Lemma key_value_shape_total (s : str) : exists r, KeyValue.key_value_shape s = Ret r.
Proof.
  unfold KeyValue.key_value_shape.
  destruct (kv_loop_total (split_ws s) ∅) as [[kv|r] ->]; cbn [bind]; [|eauto].
  unfold KeyValue.all_keys_present, dict_get. cbn [forallb KeyValue.EXPECTED_KEYS].
  destruct (kv !! lit "ax"); cbn [bool_decide decide_rel andb]; [|cbn; eauto].
  destruct (kv !! lit "ay"); [|cbn; eauto].
  destruct (kv !! lit "az"); [|cbn; eauto].
  destruct (kv !! lit "gx"); [|cbn; eauto].
  destruct (kv !! lit "gy"); [|cbn; eauto].
  destruct (kv !! lit "gz"); cbn; eauto.
Qed.

Lemma csv_shape_total (s : str) : exists r, xiao_imu_ble_final.csv_shape s = Ret r.
Proof.
  unfold xiao_imu_ble_final.csv_shape.
  destruct (contains _ s && negb (contains _ s)); [|eauto].
  destruct (7 <=? len (split (chr ",") s))%Z; [|eauto].
  destruct (mapM_float_outcome (take 7 (split (chr ",") s))) as [(vs & -> & _) | ->];
    cbn; [|eauto].
  destruct vs as [|a [|b [|c [|d [|e [|f [|g [|h vs]]]]]]]]; cbn; eauto.
Qed.

Lemma parse_csv_line_total (line : str) :
  exists r, xiao_imu_ble_final.parse_csv_line line = Ret r.
Proof.
  unfold xiao_imu_ble_final.parse_csv_line.
  destruct (_ || _); [eauto|].
  destruct (csv_shape_total (strip line)) as [[[]|r] ->]; cbn [bind]; [|eauto].
  destruct (contains _ _); cbn [bind]; [|eauto].
  destruct (key_value_shape_total (strip line)) as [[[]|r] ->]; cbn [bind]; eauto.
Qed.

Lemma stream_parse_line_total (line : str) :
  exists r, xiao_imu_stream.parse_line line = Ret r.
Proof.
  unfold xiao_imu_stream.parse_line.
  destruct (_ || _); [eauto|].
  destruct (key_value_shape_total (strip line)) as [[[]|r] ->]; cbn [bind]; eauto.
Qed.

Lemma usb_live_try_parse_total (line : str) :
  exists r, xiao_usb_live.try_parse line = Ret r.
Proof.
  unfold xiao_usb_live.try_parse.
  destruct (_ || _); [eauto|]. destruct (_ <? _)%Z; [eauto|].
  destruct (mapM_float_outcome
              (take (length xiao_usb_live.CSV_HEADER) (split (chr ",") (strip line))))
    as [(vs & -> & _) | ->]; cbn; eauto.
Qed.

(** No reader raises on a line, whatever the line. *)
Lemma ble_on_line_total line q : exists q', xiao_imu_ble_final.on_line line q = Ret q'.
Proof.
  unfold xiao_imu_ble_final.on_line.
  destruct (parse_csv_line_total (xiao_imu_ble_final.safe_decode line)) as [[row|] ->];
    cbn [bind]; [rewrite relay_put_spec|]; eauto.
Qed.

Lemma stream_on_line_total line q : exists q', xiao_imu_stream.on_line line q = Ret q'.
Proof.
  unfold xiao_imu_stream.on_line.
  destruct (stream_parse_line_total (decode_ignore line)) as [[row|] ->];
    cbn [bind]; [rewrite relay_put_spec|]; eauto.
Qed.

Lemma usb_live_on_line_total line q : exists q', xiao_usb_live.on_line line q = Ret q'.
Proof.
  unfold xiao_usb_live.on_line.
  destruct (usb_live_try_parse_total (decode_ignore line)) as [[row|] ->];
    cbn [bind]; [|eauto].
  destruct (xiao_usb_live.tuple_truthy _); [rewrite relay_put_spec|]; eauto.
Qed.

Lemma fold_lines_total {S} (on_line : bytes -> S -> outcome S) :
  (forall line st, exists st', on_line line st = Ret st') ->
  forall lines st, exists st', Framer.fold_lines on_line lines st = Ret st'.
Proof.
  intros Htotal lines. induction lines as [|l lines IH]; intros st; cbn; [eauto|].
  destruct (Htotal l st) as [st' ->]. cbn [bind]. apply IH.
Qed.

Lemma process_chunks_total {S} (on_line : bytes -> S -> outcome S) :
  (forall line st, exists st', on_line line st = Ret st') ->
  forall chunks st, exists st',
    Framer.process_chunks on_line chunks ([], st) = Ret st'.
Proof.
  intros Htotal chunks st.
  destruct (process_chunks_fold chunks [] (Forall_nil_2 _)) as (fs & rest & Hrun & _).
  rewrite Hrun. destruct (fold_lines_total on_line Htotal fs st) as [st' ->].
  cbn [bind]. eauto.
Qed.

End DecoderFacts.

(** C3: in 3-field mode, both decoders send "1,2" (wrong arity) and "1,x,3"
  (a field that is no float) to none and "1,2,3" to the record
  (1.0, 2.0, 3.0); on every line they return, without raising, either none
  or a complete record of three floats. *)
Theorem decoder_rejection_total :
  let f := Py.float_of_Z in
  Test_BLE_Sense.parse_line (Py.lit "1,2") = Ret None
  /\ Test_BLE_Sense.parse_line (Py.lit "1,x,3") = Ret None
  /\ Test_BLE_Sense.parse_line (Py.lit "1,2,3") = Ret (Some (f 1, f 2, f 3))
  /\ xiao_usb.try_parse (Py.lit "1,2") = Ret None
  /\ xiao_usb.try_parse (Py.lit "1,x,3") = Ret None
  /\ xiao_usb.try_parse (Py.lit "1,2,3") = Ret (Some [f 1; f 2; f 3])
  /\ (forall line, exists r, Test_BLE_Sense.parse_line line = Ret r)
  /\ (forall line, exists r, xiao_usb.try_parse line = Ret r
                             /\ (r = None \/ exists a b c, r = Some [a; b; c])).
Proof.
  cbv zeta.
  split; [vm_compute; reflexivity|].
  split; [vm_compute; reflexivity|].
  split; [vm_compute; reflexivity|].
  split; [vm_compute; reflexivity|].
  split; [vm_compute; reflexivity|].
  split; [vm_compute; reflexivity|].
  split.
  - apply parse_line_total.
  - apply try_parse_total.
Qed.

Lemma bind_ret_r {A} (m : outcome A) : (x <- m ;; Ret x) = m.
Proof. destruct m; reflexivity. Qed.

Lemma ble_on_line_empty (q : Queue.t imu_row) : xiao_imu_ble_final.on_line [] q = Ret q.
Proof. reflexivity. Qed.

Lemma usb_live_on_line_empty (q : Queue.t xiao_usb_live.row) :
  xiao_usb_live.on_line [] q = Ret q.
Proof. reflexivity. Qed.

Lemma imu_stream_on_line_empty (q : Queue.t imu_row) : xiao_imu_stream.on_line [] q = Ret q.
Proof. reflexivity. Qed.

(** C1, as stated, fails: a stream cut between a CR and the LF that follows
  it yields an extra empty frame.  Here "a\r" then "\nb\r\n" gives the
  frames "a", "", "b", while the whole stream gives "a", "b". *)
Lemma framer_chunking_counterexample :
  ~ (forall (chunks : list bytes) fs1 r1 fs2 r2,
        Framer.feed_all [] chunks = Ret (fs1, r1) ->
        Framer.feed [] (concat chunks) = Ret (fs2, r2) ->
        fs1 = fs2).
Proof.
  intros H.
  specialize (H [["a"; CR]; [LF; "b"; CR; LF]]%byte
                [["a"]; []; ["b"]]%byte [] [["a"]; ["b"]]%byte []
                eq_refl eq_refl).
  discriminate H.
Qed.

(** C1 (amended): for every byte stream and every way of cutting it into
  chunks, feeding the chunks in order and feeding the whole stream at once
  extract the same sequence of non-empty frames and leave the same partial
  frame buffered (the runs may differ only in empty frames); the decoders
  ignore an empty frame, so the reader threads of xiao_imu_ble_final,
  xiao_usb_live and xiao_imu_stream end with the same buffer and the same
  relay channel either way. *)
Theorem framer_chunking_nonempty_frames (chunks : list bytes) :
  (exists fs1 fs2 rest,
      Framer.feed_all [] chunks = Ret (fs1, rest)
      /\ Framer.feed [] (concat chunks) = Ret (fs2, rest)
      /\ filter Framer.nonempty fs1 = filter Framer.nonempty fs2)
  /\ (forall q, exists st,
         xiao_imu_ble_final.handle_notify_all chunks ([], q) = Ret st
         /\ xiao_imu_ble_final.handle_notify (concat chunks) ([], q) = Ret st)
  /\ (forall q, exists st,
         Framer.process_chunks xiao_usb_live.on_line chunks ([], q) = Ret st
         /\ Framer.process_chunks xiao_usb_live.on_line [concat chunks] ([], q) = Ret st)
  /\ (forall q, exists st,
         Framer.process_chunks xiao_imu_stream.on_line chunks ([], q) = Ret st
         /\ xiao_imu_stream.on_chunk (concat chunks) ([], q) = Ret st).
Proof.
  split; [|split; [|split]].
  - destruct (feed_all_runs chunks [] (Forall_nil_2 _)) as (fs1 & r1 & E1 & F1 & R1 & _).
    destruct (feed_runs [] (concat chunks) (Forall_nil_2 _)) as (fs2 & r2 & E2 & F2 & R2 & _).
    exists fs1, fs2, r1. rewrite E1, E2, F1, F2, R1, R2. repeat split; reflexivity.
  - intros q.
    destruct (process_chunks_total _ ble_on_line_total chunks q) as [st Hst].
    exists st. rewrite handle_notify_all_chunks. split; [exact Hst|].
    rewrite (process_chunks_whole _ ble_on_line_empty) in Hst.
    cbn [Framer.process_chunks] in Hst. rewrite bind_ret_r in Hst. exact Hst.
  - intros q.
    destruct (process_chunks_total _ usb_live_on_line_total chunks q) as [st Hst].
    exists st. split; [exact Hst|].
    rewrite <- (process_chunks_whole _ usb_live_on_line_empty). exact Hst.
  - intros q.
    destruct (process_chunks_total _ stream_on_line_total chunks q) as [st Hst].
    exists st. split; [exact Hst|].
    rewrite (process_chunks_whole _ imu_stream_on_line_empty) in Hst.
    cbn [Framer.process_chunks] in Hst. rewrite bind_ret_r in Hst. exact Hst.
Qed.

(** C4, as stated, fails: the stream "a\r\nb\r\n" delivered as "a\r" and
  then "\nb\r\n" yields the three frames "a", "", "b". *)
Lemma crlf_split_counterexample :
  ~ (forall (chunks : list bytes) fs rest,
        concat chunks = ["a"; CR; LF; "b"; CR; LF]%byte ->
        Framer.feed_all [] chunks = Ret (fs, rest) ->
        fs = [["a"]; ["b"]]%byte).
Proof.
  intros H.
  specialize (H [["a"; CR]; [LF; "b"; CR; LF]]%byte [["a"]; []; ["b"]]%byte []
                eq_refl eq_refl).
  discriminate H.
Qed.

(** C4 (amended): fed "a\r\nb\r\n" in one call, the framer yields exactly
  the two frames "a" and "b" (which decode to the texts "a" and "b") and
  keeps nothing buffered.  However the stream is cut into chunks, the frames
  that are not empty are exactly "a" and "b", in this order, nothing is left
  buffered, and any further frame is empty (one appears when a cut separates
  a CR from its LF).  No frame the framer ever emits, nor the remainder it
  keeps, contains a terminator byte. *)
Theorem crlf_collapse :
  Framer.feed [] ["a"; CR; LF; "b"; CR; LF]%byte = Ret ([["a"]; ["b"]]%byte, [])
  /\ map xiao_imu_ble_final.safe_decode [["a"]; ["b"]]%byte = [Py.lit "a"; Py.lit "b"]
  /\ (forall chunks : list bytes,
         concat chunks = ["a"; CR; LF; "b"; CR; LF]%byte ->
         exists fs,
           Framer.feed_all [] chunks = Ret (fs, [])
           /\ filter Framer.nonempty fs = [["a"]; ["b"]]%byte
           /\ Forall (fun f => f = [] \/ f = ["a"]%byte \/ f = ["b"]%byte) fs)
  /\ (forall buffer chunk, exists fs rest,
         Framer.feed buffer chunk = Ret (fs, rest)
         /\ Forall Framer.term_free fs /\ Framer.term_free rest).
Proof.
  split; [reflexivity | split; [reflexivity | split]].
  - intros chunks Hstream.
    destruct (feed_all_runs chunks [] (Forall_nil_2 _)) as (fs & rest & Hrun & Hfs & Hrest & _).
    rewrite Hstream in Hfs, Hrest. cbn in Hrest. subst rest.
    exists fs. split; [exact Hrun|].
    assert (Hne : filter Framer.nonempty fs = [["a"]; ["b"]]%byte) by (rewrite Hfs; reflexivity).
    split; [exact Hne|].
    apply Forall_forall. intros f Hf. destruct f as [|x f]; [left; reflexivity|]. right.
    assert (Hin : (x :: f) ∈ filter Framer.nonempty fs).
    { apply list_elem_of_filter. split; [exact I | exact Hf]. }
    rewrite Hne in Hin. apply elem_of_cons in Hin as [->|Hin]; [left; reflexivity|].
    apply list_elem_of_singleton in Hin as ->. right. reflexivity.
  - intros buffer chunk.
    destruct (split_lines_fold (buffer ++ chunk)) as (fs & rest & Hrun & _ & _ & Hfs & Hrest).
    exists fs, rest. unfold Framer.feed, Framer.loop_fuel.
    rewrite Hrun by lia. rewrite fold_lines_collect. repeat split; assumption.
Qed.

(** C10, as stated, fails for CRLF line endings: in "a\r\n\r\nb\r\n" the
  blank line between the records "a" and "b" comes out as an empty frame. *)
Lemma blank_line_counterexample :
  ~ (forall (a b e : bytes) fs rest,
        a <> [] -> b <> [] -> Framer.term_free a -> Framer.term_free b ->
        Framer.line_ending e ->
        Framer.feed [] (a ++ e ++ e ++ b ++ e) = Ret (fs, rest) ->
        [] ∉ fs).
Proof.
  intros H.
  apply (H ["a"]%byte ["b"]%byte [CR; LF] [["a"]; []; ["b"]]%byte []);
    try discriminate.
  - repeat constructor.
  - repeat constructor.
  - right. right. reflexivity.
  - reflexivity.
  - apply list_elem_of_further, list_elem_of_here.
Qed.

(** C10 (amended): after cutting a line at a terminator the framer also
  deletes the byte right behind it when that byte is a terminator of either
  kind and is already in the buffer; so a line followed in the same buffer
  by exactly two terminator bytes (\n\n, \r\r, \r\n or \n\r) and then by
  the next line yields the two lines and no empty frame: a blank line
  between two records is swallowed when lines end in a single terminator
  byte. *)
Theorem paired_terminator_consumed (a b : bytes) (t1 t2 t3 : byte) :
  Framer.term_free a -> Framer.term_free b -> b <> [] ->
  Framer.is_term t1 = true -> Framer.is_term t2 = true -> Framer.is_term t3 = true ->
  Framer.feed [] (a ++ [t1; t2] ++ b ++ [t3]) = Ret ([a; b], [])
  /\ (forall (S : Type) (on_line : bytes -> S -> outcome S) fuel st rest,
         Framer.split_lines on_line (Datatypes.S fuel) (a ++ t1 :: t2 :: rest) st
         = (st' <- on_line a st ;; Framer.split_lines on_line fuel rest st')).
Proof.
  intros Ha Hb Hne H1 H2 H3. split.
  - unfold Framer.feed, Framer.loop_fuel. cbn [app].
    set (buf := a ++ t1 :: t2 :: b ++ [t3]).
    rewrite (split_lines_fuel _ buf _ (S (S (S (length buf))))) by lia.
    subst buf. rewrite split_lines_step by assumption.
    cbn [Framer.collect bind Framer.after_terminator app]. rewrite H2.
    rewrite split_lines_step by assumption.
    cbn [Framer.collect bind Framer.after_terminator app].
    rewrite split_lines_done by constructor. reflexivity.
  - intros S on_line fuel st rest. rewrite split_lines_step by assumption.
    cbn [Framer.after_terminator]. rewrite H2. reflexivity.
Qed.

Lemma paired_terminator_consumed_witness :
  Framer.feed [] (["a"]%byte ++ [LF; LF] ++ ["b"]%byte ++ [LF]) = Ret ([["a"]; ["b"]]%byte, []).
Proof.
  apply (paired_terminator_consumed ["a"]%byte ["b"]%byte LF LF LF);
    solve [repeat constructor | discriminate | reflexivity].
Defined.




(** xiao_imu_stream's [parse_line] has no test for "#": a comment line that
    carries the six keys is decoded as a record. *)
Example imu_stream_hash_line :
  xiao_imu_stream.parse_line (Py.lit "# ax:1 ay:2 az:3 gx:4 gy:5 gz:6")
  = Ret (Some (Row Py.fzero (Py.float_of_Z 1) (Py.float_of_Z 2) (Py.float_of_Z 3)
                   (Py.float_of_Z 4) (Py.float_of_Z 5) (Py.float_of_Z 6))).
Proof. vm_compute. reflexivity. Qed.

Example parse_csv_line_both_shapes :
  xiao_imu_ble_final.parse_csv_line (Py.lit "0,1,2,3,4,5,6,7")
  = Ret (Some (Row Py.fzero (Py.float_of_Z 1) (Py.float_of_Z 2) (Py.float_of_Z 3)
                   (Py.float_of_Z 4) (Py.float_of_Z 5) (Py.float_of_Z 6)))
  /\ xiao_imu_ble_final.parse_csv_line (Py.lit "gz:6 gy:5 gx:4 az:3 ay:2 ax:1 t:9")
     = Ret (Some (Row Py.fzero (Py.float_of_Z 1) (Py.float_of_Z 2) (Py.float_of_Z 3)
                      (Py.float_of_Z 4) (Py.float_of_Z 5) (Py.float_of_Z 6)))
  /\ xiao_imu_ble_final.parse_csv_line (Py.lit "ax:1 ay:2 az:3 gx:4 gy:5 gz:oops") = Ret None
  /\ xiao_imu_ble_final.parse_csv_line (Py.lit "1,2,3,4,5,6") = Ret None.
Proof. repeat split; vm_compute; reflexivity. Qed.

(** ** The pump, Start and Stop *)

Lemma relay_put_all_total {A} (xs : list A) : forall q : Queue.t A,
  exists q', relay_put_all q xs = Ret q'.
Proof.
  induction xs as [|x xs IH]; intros q; cbn [relay_put_all]; [eauto|].
  rewrite relay_put_spec. cbn [bind]. apply IH.
Qed.

Section BleSession.
Import Py.
Import xiao_imu_ble_final.


Lemma drain_spec w (rows : list imu_row) : forall fuel ss added,
  Queue.items (q_parsed ss) = rows -> (length rows < fuel)%nat ->
  drain fuel w ss added = Ret (foldl (absorb w) ss rows, added + len rows).
Proof.
  induction rows as [|row rows IH]; intros [|fuel] ss added Hq Hfuel;
    cbn [length] in Hfuel; try lia.
  - cbn [drain]. unfold next_row, Queue.get_nowait. rewrite Hq. cbn.
    unfold len. cbn. rewrite Z.add_0_r. reflexivity.
  - cbn [drain foldl]. unfold next_row, Queue.get_nowait. rewrite Hq.
    cbn [bind try_except].
    assert (Hstep : (let '(t_rel, ss0) :=
                       t_rel_of w (r_t row)
                         (set_q_parsed ss (Queue.mk (Queue.maxsize (q_parsed ss)) rows)) in
                     push (retime t_rel row) ss0) = absorb w ss row).
    { unfold absorb. rewrite Hq. reflexivity. }
    destruct (t_rel_of w (r_t row) _) as [t_rel ss1] eqn:Ht.
    rewrite <- Hstep. rewrite IH.
    + f_equal. f_equal. unfold len. cbn [length]. lia.
    + unfold t_rel_of in Ht. cbn [t0 set_q_parsed] in Ht.
      destruct (t0 ss) as [start|]; [destruct (truthy start)|];
        injection Ht as _ <-; reflexivity.
    + lia.
Qed.

(** What one drain appends, in terms of [stamp]. *)
Lemma absorb_all w (rows : list imu_row) : forall ss,
  let stamped := imap (fun i row => retime (stamp w ss i row) row) rows in
  all_rows (foldl (absorb w) ss rows) = all_rows ss ++ stamped
  /\ data (foldl (absorb w) ss rows) = foldl Deque.append (data ss) stamped
  /\ t0 (foldl (absorb w) ss rows) = t0 ss.
Proof.
  induction rows as [|row rows IH]; intros ss; cbn [foldl imap].
  - rewrite app_nil_r. repeat split.
  - destruct (IH (absorb w ss row)) as (H1 & H2 & H3). cbv zeta.
    assert (Hhead : all_rows (absorb w ss row) = all_rows ss ++ [retime (stamp w ss 0 row) row]
                    /\ data (absorb w ss row)
                       = Deque.append (data ss) (retime (stamp w ss 0 row) row)
                    /\ t0 (absorb w ss row) = t0 ss
                    /\ forall i r, stamp w (absorb w ss row) i r = stamp w ss (S i) r).
    { unfold absorb, stamp, t_rel_of. cbn [t0 set_q_parsed reads].
      destruct (t0 ss) as [start|] eqn:Et; [destruct (truthy start) eqn:Hs|];
        cbn; rewrite ?Et, ?Hs, ?Nat.add_0_r; repeat split.
      intros i r. do 2 f_equal. lia. }
    destruct Hhead as (Ha & Hd & Ht & Hst).
    rewrite H1, H2, H3, Ha, Hd, Ht, <- app_assoc. cbn [app foldl].
    assert (Hext : imap (fun i r => retime (stamp w (absorb w ss row) i r) r) rows
                   = imap ((fun i r => retime (stamp w ss i r) r) ∘ S) rows).
    { apply imap_ext. intros i r _. cbn. rewrite Hst. reflexivity. }
    rewrite Hext. repeat split.
Qed.


End BleSession.

Section StreamSession.
Import Py.
Import xiao_imu_stream.

Lemma stream_drain_spec w (rows : list imu_row) : forall fuel ss acc,
  Queue.items (q_parsed ss) = rows -> (length rows < fuel)%nat ->
  let stamped := imap (fun i row => retime (stamp w ss i) row) rows in
  exists ss',
    drain fuel w ss acc = Ret (ss', acc ++ stamped)
    /\ all_rows ss' = all_rows ss ++ stamped
    /\ data ss' = foldl Deque.append (data ss) stamped.
Proof.
  induction rows as [|row rows IH]; intros [|fuel] ss acc Hq Hfuel;
    cbn [length] in Hfuel; try lia; cbv zeta.
  - exists ss. cbn [drain imap foldl]. unfold xiao_imu_ble_final.next_row, Queue.get_nowait.
    rewrite Hq, !app_nil_r. repeat split.
  - cbn [drain]. unfold xiao_imu_ble_final.next_row, Queue.get_nowait. rewrite Hq.
    cbn [bind try_except].
    destruct (t_rel_of w ss) as [t_rel reads'] eqn:Ht.
    set (ss1 := Session _ _ _ _ _ _ _ _ _ _ _ _).
    assert (Hstamp : t_rel = stamp w ss 0 /\ forall i, stamp w ss1 i = stamp w ss (S i)).
    { unfold stamp, t_rel_of in *. subst ss1. cbn [t0 reads].
      destruct (t0 ss) as [start|]; [destruct (truthy start)|];
        injection Ht as <- <-; rewrite ?Nat.add_0_r; split; try reflexivity.
      intros i. do 2 f_equal. lia. }
    destruct Hstamp as [-> Hshift].
    destruct (IH fuel ss1 (acc ++ [retime (stamp w ss 0) row])) as (ss' & Hrun & Hall & Hdata);
      [reflexivity | lia |].
    exists ss'. cbv zeta in Hrun, Hall, Hdata. rewrite Hrun, Hall, Hdata.
    assert (Hext : imap (fun i r => retime (stamp w ss1 i) r) rows
                   = imap ((fun i r => retime (stamp w ss i) r) ∘ S) rows).
    { apply imap_ext. intros i r _. cbn. rewrite Hshift. reflexivity. }
    rewrite Hext. subst ss1. cbn [imap all_rows data foldl]. rewrite <- !app_assoc.
    repeat split.
Qed.

End StreamSession.

(** C2, as stated, fails: with the session started at 100.0 and the clock at
    105.0, a record the device stamped 42.0 enters the accumulator stamped
    5.0. *)
Lemma device_timestamp_counterexample :
  ~ (forall (w : xiao_imu_ble_final.world) (ss ss' : xiao_imu_ble_final.session)
            (row : imu_row) (n : Z),
        Queue.items (xiao_imu_ble_final.q_parsed ss) = [row] ->
        Py.truthy (r_t row) = true ->
        xiao_imu_ble_final.drain 2 w ss 0 = Ret (ss', n) ->
        xiao_imu_ble_final.all_rows ss' = xiao_imu_ble_final.all_rows ss ++ [row]).
Proof.
  intros H.
  pose (f := Py.float_of_Z).
  pose (row := Row (f 42) (f 1) (f 2) (f 3) (f 4) (f 5) (f 6)).
  pose (w := xiao_imu_ble_final.World (fun _ => f 105) (fun _ => []) [] true [] true).
  pose (ss := xiao_imu_ble_final.Session (Some true) (Some false) true [] (Some (f 100))
                (Queue.mk 20000 [row]) (Deque.mk 4000 []) [] 0 None [] 1 []).
  specialize (H w ss _ row _ eq_refl eq_refl eq_refl).
  vm_compute in H. discriminate H.
Qed.

(** C2 (amended): one drain of the channel appends to the ring buffer and to
    the accumulator, for each record taken, the record with its first field
    replaced.  In xiao_imu_ble_final, when the session start time [t0] is set
    (and non-zero), that field becomes the wall-clock offset
    [time.time() - t0] read for that record, whatever timestamp the device
    sent; only when [t0] is unset (or zero) is a non-zero device timestamp
    kept, a zero one becoming 0.0.  In xiao_imu_stream the device field is
    always discarded: the offset when [t0] is set, else 0.0. *)
Theorem pump_timestamps :
  (forall (w : xiao_imu_ble_final.world) (ss : xiao_imu_ble_final.session),
      let rows := Queue.items (xiao_imu_ble_final.q_parsed ss) in
      let t_of := fun (i : nat) (row : imu_row) =>
        match xiao_imu_ble_final.t0 ss with
        | Some start =>
            if Py.truthy start
            then Py.fsub (xiao_imu_ble_final.time_time w (xiao_imu_ble_final.reads ss + i)) start
            else if Py.truthy (r_t row) then r_t row else Py.fzero
        | None => if Py.truthy (r_t row) then r_t row else Py.fzero
        end in
      let stamped := imap (fun i row => retime (t_of i row) row) rows in
      exists ss',
        xiao_imu_ble_final.drain (S (length rows)) w ss 0 = Ret (ss', len rows)
        /\ xiao_imu_ble_final.all_rows ss' = xiao_imu_ble_final.all_rows ss ++ stamped
        /\ xiao_imu_ble_final.data ss'
           = foldl Deque.append (xiao_imu_ble_final.data ss) stamped)
  /\ (forall (w : xiao_imu_stream.world) (ss : xiao_imu_stream.session),
      let rows := Queue.items (xiao_imu_stream.q_parsed ss) in
      let t_of := fun (i : nat) =>
        match xiao_imu_stream.t0 ss with
        | Some start =>
            if Py.truthy start
            then Py.fsub (xiao_imu_stream.time_time w (xiao_imu_stream.reads ss + i)) start
            else Py.fzero
        | None => Py.fzero
        end in
      let stamped := imap (fun i row => retime (t_of i) row) rows in
      exists ss',
        xiao_imu_stream.pump_queue_into_buffers w ss = Ret (ss', stamped)
        /\ xiao_imu_stream.all_rows ss' = xiao_imu_stream.all_rows ss ++ stamped
        /\ xiao_imu_stream.data ss'
           = foldl Deque.append (xiao_imu_stream.data ss) stamped).
Proof.
  split.
  - intros w ss rows t_of stamped.
    exists (foldl (xiao_imu_ble_final.absorb w) ss rows).
    rewrite (drain_spec w rows) by (reflexivity || lia).
    destruct (absorb_all w rows ss) as (Hrows & Hdata & _).
    repeat split; assumption.
  - intros w ss rows t_of stamped. unfold xiao_imu_stream.pump_queue_into_buffers.
    destruct (stream_drain_spec w rows (S (length rows)) ss [] eq_refl (Nat.lt_succ_diag_r _))
      as (ss' & Hrun & Hall & Hdata).
    exists ss'. repeat split; assumption.
Qed.



(** ** The command/response exchange *)

Section LedFacts.
Import Py.
Import controll_LEDs_BLE.





End LedFacts.



(** The two round trips of the specification, the clock advancing 1 s per
    reading: a device that answers "OK D7" during the first sleep (timeout
    3 s), and one that never answers (timeout 2 s); the stale "READY" is not
    returned. *)
Example round_trips :
  (exists m', controll_LEDs_BLE.send_and_wait 5 controll_LEDs_BLE.obliging_device
                (Py.lit "7") (Py.float_of_Z 3) controll_LEDs_BLE.ready
              = Ret (Py.lit "OK D7", m'))
  /\ (exists m', controll_LEDs_BLE.send_and_wait 5 controll_LEDs_BLE.silent_device
                   (Py.lit "7") (Py.float_of_Z 2) controll_LEDs_BLE.ready
                 = Ret (controll_LEDs_BLE.NO_REPLY, m')
                 /\ length (controll_LEDs_BLE.slept m') = 1%nat
                 /\ controll_LEDs_BLE.reads m' = 3%nat).
Proof.
  split; eexists.
  - vm_compute. reflexivity.
  - vm_compute. repeat split.
Qed.

(** * Further properties of the code *)

(** ** The line framer: nothing lost, nothing kept that is complete *)

Lemma runs_conserve (s : list byte) : forall cur : list byte,
  concat (Framer.runs cur s).1 ++ (Framer.runs cur s).2
  = cur ++ filter (fun b => negb (Framer.is_term b)) s.
Proof.
  induction s as [|b s IH]; intros cur; cbn [Framer.runs].
  - cbn. rewrite app_nil_r. reflexivity.
  - destruct (Framer.is_term b) eqn:Hb.
    + specialize (IH []). destruct (Framer.runs [] s) as [fs r]. cbn [fst snd concat] in *.
      rewrite filter_cons_False by (rewrite Hb; cbn; tauto).
      rewrite <- app_assoc, IH. reflexivity.
    + rewrite IH, filter_cons_True by (rewrite Hb; cbn; tauto).
      rewrite <- app_assoc. reflexivity.
Qed.

Lemma runs_suffix (s : bytes) : forall cur,
  exists pre, cur ++ s = pre ++ (Framer.runs cur s).2
              /\ (pre = [] \/ exists p t, pre = p ++ [t] /\ Framer.is_term t = true).
Proof.
  induction s as [|b s IH]; intros cur; cbn [Framer.runs].
  - exists []. rewrite app_nil_r. split; [reflexivity | left; reflexivity].
  - destruct (Framer.is_term b) eqn:Hb.
    + destruct (IH []) as (pre & Hpre & Hend). destruct (Framer.runs [] s) as [fs r].
      cbn [snd app] in *. exists (cur ++ b :: pre). split.
      * rewrite Hpre, <- app_assoc. reflexivity.
      * right. destruct Hend as [-> | (p & t & -> & Ht)].
        -- exists cur, b. split; [reflexivity | assumption].
        -- exists (cur ++ b :: p), t. split; [|assumption].
           rewrite <- app_assoc. reflexivity.
    + destruct (IH (cur ++ [b])) as (pre & Hpre & Hend). exists pre. split; [|assumption].
      rewrite <- Hpre, <- app_assoc. reflexivity.
Qed.

Lemma concat_nonempty (fs : list (list byte)) : concat (filter Framer.nonempty fs) = concat fs.
Proof.
  induction fs as [|f fs IH]; [reflexivity|].
  rewrite filter_cons. destruct f as [|b f]; cbn [Framer.nonempty].
  - rewrite decide_False by (cbn; tauto). exact IH.
  - rewrite decide_True by (cbn; tauto). cbn [concat]. f_equal. exact IH.
Qed.

(** X1: one call of the framer loses no data byte and invents none: the
    frames it emits, followed by the remainder it keeps, are the buffered
    bytes and the chunk with the terminator bytes taken out; the remainder is
    the unterminated tail of the input (everything after its last
    terminator); and without a terminator nothing is emitted. *)
Theorem framer_conserves_bytes (buffer chunk : bytes) :
  exists fs rest,
    Framer.feed buffer chunk = Ret (fs, rest)
    /\ concat fs ++ rest = filter (fun b => negb (Framer.is_term b)) (buffer ++ chunk)
    /\ Framer.term_free rest
    /\ (exists pre, buffer ++ chunk = pre ++ rest
                    /\ (pre = [] \/ exists p t, pre = p ++ [t] /\ Framer.is_term t = true))
    /\ (Framer.term_free (buffer ++ chunk) -> fs = [] /\ rest = buffer ++ chunk).
Proof.
  destruct (split_lines_fold (buffer ++ chunk)) as (fs & rest & Hrun & Hfs & Hrest & _ & Hfree).
  exists fs, rest.
  assert (Hfeed : Framer.feed buffer chunk = Ret (fs, rest)).
  { unfold Framer.feed, Framer.loop_fuel. rewrite Hrun by lia.
    rewrite fold_lines_collect. reflexivity. }
  split; [exact Hfeed|]. split; [|split; [exact Hfree|split]].
  - assert (E : concat fs = concat (Framer.runs [] (buffer ++ chunk)).1).
    { rewrite <- (concat_nonempty fs),
        <- (concat_nonempty (Framer.runs [] (buffer ++ chunk)).1).
      f_equal. exact Hfs. }
    rewrite E, Hrest. apply (runs_conserve (buffer ++ chunk) []).
  - destruct (runs_suffix (buffer ++ chunk) []) as (pre & Hpre & Hend).
    exists pre. rewrite Hrest. split; assumption.
  - intros Hnone. unfold Framer.feed, Framer.loop_fuel in Hfeed.
    rewrite split_lines_done in Hfeed by assumption. cbn in Hfeed.
    injection Hfeed as <- <-. split; reflexivity.
Qed.

(** ** The reader callback and the relay channel *)

Lemma fold_lines_channel {A} (on_line : bytes -> Queue.t A -> outcome (Queue.t A)) :
  (forall line q, exists q',
      on_line line q = Ret q' /\ Queue.maxsize q' = Queue.maxsize q
      /\ (q' = q \/ (Queue.full q = false /\ exists x, Queue.items q' = Queue.items q ++ [x]))) ->
  forall fs q, channel_ok q ->
    exists q', Framer.fold_lines on_line fs q = Ret q'
               /\ channel_ok q' /\ Queue.maxsize q' = Queue.maxsize q
               /\ Queue.items q `prefix_of` Queue.items q'.
Proof.
  intros Hstep fs. induction fs as [|f fs IH]; intros q Hq; cbn [Framer.fold_lines].
  - exists q. repeat split; try apply Hq. reflexivity.
  - destruct (Hstep f q) as (q1 & -> & Hmax & Hcase). cbn [bind].
    assert (Hq1 : channel_ok q1 /\ Queue.items q `prefix_of` Queue.items q1).
    { destruct Hq as [Hpos Hlen]. destruct Hcase as [-> | (Hroom & x & Hitems)].
      - repeat split; assumption || reflexivity.
      - unfold channel_ok. rewrite Hmax, Hitems. repeat split; [assumption| |].
        + unfold Queue.full in Hroom.
          apply andb_false_iff in Hroom as [Hroom|Hroom];
            [apply Z.ltb_ge in Hroom; lia|].
          apply Z.leb_gt in Hroom. unfold len in *. rewrite length_app. cbn [length]. lia.
        + apply prefix_app_r. reflexivity. }
    destruct Hq1 as [Hok Hpre].
    destruct (IH q1 Hok) as (q' & Hrun & Hok' & Hmax' & Hpre').
    exists q'. repeat split; try apply Hok'; try assumption.
    + congruence.
    + etransitivity; eassumption.
Qed.

Lemma ble_on_line_step line (q : Queue.t imu_row) :
  exists q', xiao_imu_ble_final.on_line line q = Ret q'
             /\ Queue.maxsize q' = Queue.maxsize q
             /\ (q' = q \/ (Queue.full q = false
                            /\ exists x, Queue.items q' = Queue.items q ++ [x])).
Proof.
  unfold xiao_imu_ble_final.on_line.
  destruct (parse_csv_line_total (xiao_imu_ble_final.safe_decode line)) as [[row|] ->];
    cbn [bind]; [|exists q; repeat split; left; reflexivity].
  rewrite relay_put_spec. destruct (Queue.full q) eqn:Hfull.
  - exists q. repeat split. left. reflexivity.
  - eexists. split; [reflexivity|]. split; [reflexivity|]. right.
    split; [reflexivity|]. exists row. reflexivity.
Qed.

Lemma stream_on_line_step line (q : Queue.t imu_row) :
  exists q', xiao_imu_stream.on_line line q = Ret q'
             /\ Queue.maxsize q' = Queue.maxsize q
             /\ (q' = q \/ (Queue.full q = false
                            /\ exists x, Queue.items q' = Queue.items q ++ [x])).
Proof.
  unfold xiao_imu_stream.on_line.
  destruct (stream_parse_line_total (Py.decode_ignore line)) as [[row|] ->];
    cbn [bind]; [|exists q; repeat split; left; reflexivity].
  rewrite relay_put_spec. destruct (Queue.full q) eqn:Hfull.
  - exists q. repeat split. left. reflexivity.
  - eexists. split; [reflexivity|]. split; [reflexivity|]. right.
    split; [reflexivity|]. exists row. reflexivity.
Qed.

(** X2: whatever bytes a notification (or a serial read) carries, the reader
    callback returns without raising, leaves a buffer free of terminator
    bytes, never lets the bounded channel grow beyond its capacity, and never
    touches the records already in the channel: what was queued stays, in
    order, at the front. *)
Theorem reader_keeps_channel_bounded (data buffer : bytes) (q : Queue.t imu_row) :
  channel_ok q ->
  (exists buffer' q',
      xiao_imu_ble_final.handle_notify data (buffer, q) = Ret (buffer', q')
      /\ Framer.term_free buffer' /\ channel_ok q'
      /\ Queue.maxsize q' = Queue.maxsize q
      /\ Queue.items q `prefix_of` Queue.items q')
  /\ (exists buffer' q',
      xiao_imu_stream.on_chunk data (buffer, q) = Ret (buffer', q')
      /\ Framer.term_free buffer' /\ channel_ok q'
      /\ Queue.maxsize q' = Queue.maxsize q
      /\ Queue.items q `prefix_of` Queue.items q').
Proof.
  intros Hq.
  destruct (split_lines_fold (buffer ++ data)) as (fs & rest & Hrun & _ & _ & _ & Hfree).
  split.
  - destruct (fold_lines_channel _ ble_on_line_step fs q Hq) as (q' & Hfold & Hok & Hmax & Hpre).
    exists rest, q'. unfold xiao_imu_ble_final.handle_notify, Framer.loop_fuel. cbn [fst snd].
    rewrite Hrun by lia. rewrite Hfold. repeat split; try apply Hok; assumption.
  - destruct (fold_lines_channel _ stream_on_line_step fs q Hq) as (q' & Hfold & Hok & Hmax & Hpre).
    exists rest, q'. unfold xiao_imu_stream.on_chunk, Framer.loop_fuel. cbn [fst snd].
    rewrite Hrun by lia. rewrite Hfold. repeat split; try apply Hok; assumption.
Qed.

Lemma reader_keeps_channel_bounded_witness :
  let f := Py.float_of_Z in
  let old := Row (f 9) (f 9) (f 9) (f 9) (f 9) (f 9) (f 9) in
  let q := Queue.mk 2 [old] in
  let line := fun s : string => list_byte_of_string s ++ [x0a]%byte in
  let data := line "ax:1 ay:2 az:3 gx:4 gy:5 gz:6"%string
              ++ line "ax:7 ay:8 az:9 gx:1 gy:2 gz:3"%string
              ++ list_byte_of_string "ax:4"%string in
  let first := Row Py.fzero (f 1) (f 2) (f 3) (f 4) (f 5) (f 6) in
  ((exists buffer' q',
       xiao_imu_ble_final.handle_notify data ([], q) = Ret (buffer', q')
       /\ Framer.term_free buffer' /\ channel_ok q'
       /\ Queue.maxsize q' = Queue.maxsize q
       /\ Queue.items q `prefix_of` Queue.items q')
   /\ (exists buffer' q',
       xiao_imu_stream.on_chunk data ([], q) = Ret (buffer', q')
       /\ Framer.term_free buffer' /\ channel_ok q'
       /\ Queue.maxsize q' = Queue.maxsize q
       /\ Queue.items q `prefix_of` Queue.items q'))
  /\ xiao_imu_ble_final.handle_notify data ([], q)
     = Ret (list_byte_of_string "ax:4"%string, Queue.mk 2 [old; first])
  /\ xiao_imu_stream.on_chunk data ([], q)
     = Ret (list_byte_of_string "ax:4"%string, Queue.mk 2 [old; first]).
Proof.
  intros f old q line data first. split; [|split; vm_compute; reflexivity].
  apply (reader_keeps_channel_bounded data [] q).
  split; unfold len; cbn; lia.
Defined.

(** ** The decoders of the different dashboards compared *)

(** X3: the two 3-field decoders, written differently in xiao_usb.py (parse
    every field, then check the count) and in Test_BLE_Sense.py (check the
    count, then parse three fields), accept the same lines and return the
    same values on every line. *)
Theorem three_field_decoders_agree (line : Py.str) :
  xiao_usb.try_parse line
  = (r <- Test_BLE_Sense.parse_line line ;; Ret (option_map triple_values r)).
Proof.
  unfold xiao_usb.try_parse, Test_BLE_Sense.parse_line.
  set (parts := Py.split (Py.chr ",") (Py.strip line)).
  destruct (Z.eqb_spec (len parts) 3) as [H3|H3]; cbn [negb].
  - destruct parts as [|a [|b [|c [|d parts]]]];
      try (unfold len in H3; cbn [length] in H3; lia).
    cbn [mapM Py.getitem lookup list_lookup bind].
    destruct (float_of_str_outcome a) as [[va ->] | ->]; cbn; [|reflexivity].
    destruct (float_of_str_outcome b) as [[vb ->] | ->]; cbn; [|reflexivity].
    destruct (float_of_str_outcome c) as [[vc ->] | ->]; cbn; reflexivity.
  - cbn [bind option_map].
    destruct (mapM_float_outcome parts) as [(vs & -> & Hlen) | ->]; cbn; [|reflexivity].
    replace (len vs =? len xiao_usb.CSV_HEADER) with false; [reflexivity|].
    symmetry. apply Z.eqb_neq. unfold len in *. cbn [length xiao_usb.CSV_HEADER]. lia.
Qed.

(** X4: every row the decoder of xiao_usb_live returns has exactly the seven
    values of CSV_HEADER, so it is a non-empty tuple and the reader always
    offers it to the channel. *)
Theorem usb_live_rows_have_seven_values (line : Py.str) (r : xiao_usb_live.row) :
  xiao_usb_live.try_parse line = Ret (Some r) ->
  length r = length xiao_usb_live.CSV_HEADER
  /\ xiao_usb_live.tuple_truthy (Some r) = true
  /\ (forall frame q, Py.decode_ignore frame = line ->
                      xiao_usb_live.on_line frame q = relay_put q r).
Proof.
  intros Hparse. assert (Hlen : length r = 7%nat).
  { unfold xiao_usb_live.try_parse in Hparse.
    destruct (_ || _); [discriminate|].
    destruct (Z.ltb_spec (len (Py.split (Py.chr ",") (Py.strip line)))
                         (len xiao_usb_live.CSV_HEADER)) as [Hlt|Hge]; [discriminate|].
    destruct (mapM_float_outcome
                (take (length xiao_usb_live.CSV_HEADER)
                      (Py.split (Py.chr ",") (Py.strip line))))
      as [(vs & Hvs & Hl) | Hvs]; rewrite Hvs in Hparse; cbn in Hparse; [|discriminate].
    injection Hparse as <-. rewrite Hl, length_take.
    unfold len in Hge. cbn [length xiao_usb_live.CSV_HEADER xiao_imu_ble_final.COLUMNS] in *.
    lia. }
  split; [exact Hlen|]. split.
  - destruct r; [discriminate Hlen | reflexivity].
  - intros frame q Hdec. unfold xiao_usb_live.on_line. rewrite Hdec, Hparse. cbn [bind].
    destruct r; [discriminate Hlen | reflexivity].
Qed.

Lemma usb_live_rows_have_seven_values_witness :
  length (map Py.float_of_Z [0; 1; 2; 3; 4; 5; 6]) = length xiao_usb_live.CSV_HEADER.
Proof.
  apply (usb_live_rows_have_seven_values (Py.lit "0,1,2,3,4,5,6,7")).
  vm_compute. reflexivity.
Defined.

Lemma split_without_sep (sep : N) (s : Py.str) : sep ∉ s -> Py.split sep s = [s].
Proof.
  induction s as [|c s IH]; intros Hs; [reflexivity|].
  cbn [Py.split]. destruct (N.eqb_spec c sep) as [->|Hne].
  - exfalso. apply Hs. left.
  - rewrite IH; [reflexivity|]. intros Hin. apply Hs. right. exact Hin.
Qed.

(** X5: on every line without a colon that does not start with "err", the
    decoder of the BLE dashboard and the decoder of the USB dashboard agree:
    the BLE record is the USB row read as [(t, ax, ay, az, gx, gy, gz)]. *)
Theorem imu_csv_decoders_agree (line : Py.str) :
  Py.contains (Py.chr ":") (Py.strip line) = false ->
  Py.startswith (Py.strip line) (Py.lit "err") = false ->
  xiao_imu_ble_final.parse_csv_line line
  = (r <- xiao_usb_live.try_parse line ;;
     Ret (match r with Some vals => row_of_values vals | None => None end)).
Proof.
  intros Hcolon Herr.
  unfold xiao_imu_ble_final.parse_csv_line, xiao_usb_live.try_parse.
  rewrite Herr, orb_false_r.
  destruct (bool_decide (Py.strip line = []) || Py.startswith (Py.strip line) (Py.lit "#"));
    [reflexivity|].
  unfold xiao_imu_ble_final.csv_shape. rewrite Hcolon. cbn [negb andb].
  rewrite andb_true_r.
  set (s := Py.strip line) in *.
  destruct (Py.contains (Py.chr ",") s) eqn:Hcomma.
  - change (len xiao_usb_live.CSV_HEADER) with 7.
    change (length xiao_usb_live.CSV_HEADER) with 7%nat.
    destruct (Z.leb_spec 7 (len (Py.split (Py.chr ",") s))) as [Hge|Hlt].
    + replace (len (Py.split (Py.chr ",") s) <? 7) with false
        by (symmetry; apply Z.ltb_ge; exact Hge).
      destruct (mapM_float_outcome (take 7 (Py.split (Py.chr ",") s)))
        as [(vs & -> & Hl) | ->]; cbn; [|reflexivity].
      rewrite length_take in Hl. unfold len in Hge.
      destruct vs as [|a [|b [|c [|d [|e [|f [|g [|h vs]]]]]]]];
        cbn [length] in Hl; try lia.
      reflexivity.
    + replace (len (Py.split (Py.chr ",") s) <? 7) with true
        by (symmetry; apply Z.ltb_lt; exact Hlt).
      reflexivity.
  - unfold Py.contains in Hcomma. apply bool_decide_eq_false in Hcomma.
    rewrite (split_without_sep _ _ Hcomma). cbn. reflexivity.
Qed.

Lemma imu_csv_decoders_agree_witness :
  xiao_imu_ble_final.parse_csv_line (Py.lit "0.5,1,2,3,4,5,6")
  = (r <- xiao_usb_live.try_parse (Py.lit "0.5,1,2,3,4,5,6") ;;
     Ret (match r with Some vals => row_of_values vals | None => None end)).
Proof.
  apply (imu_csv_decoders_agree (Py.lit "0.5,1,2,3,4,5,6")); vm_compute; reflexivity.
Defined.

(** ** The BLE session: pump, Start and Stop together *)

Lemma relay_put_all_prefix {A} (xs : list A) : forall q : Queue.t A,
  exists q', relay_put_all q xs = Ret q'
             /\ Queue.maxsize q' = Queue.maxsize q
             /\ Queue.items q `prefix_of` Queue.items q'.
Proof.
  induction xs as [|x xs IH]; intros q; cbn [relay_put_all].
  - exists q. repeat split. reflexivity.
  - rewrite relay_put_spec. cbn [bind]. destruct (Queue.full q).
    + apply IH.
    + destruct (IH (Queue.mk (Queue.maxsize q) (Queue.items q ++ [x])))
        as (q' & Hrun & Hmax & Hpre).
      exists q'. repeat split; [assumption..|].
      etransitivity; [|exact Hpre]. apply prefix_app_r. reflexivity.
Qed.

Lemma ring_append_all {A} (d : Deque.t A) (rows xs : list A) :
  Deque.items d = drop (length rows - Deque.maxlen d) rows ->
  foldl Deque.append d xs
  = Deque.mk (Deque.maxlen d)
             (drop (length (rows ++ xs) - Deque.maxlen d) (rows ++ xs)).
Proof.
  intros H. rewrite deque_append_all by (rewrite H, length_drop; lia).
  f_equal. rewrite H. rewrite <- (drop_app_le rows xs) by lia.
  rewrite drop_drop. f_equal. rewrite length_drop, !length_app. lia.
Qed.

Section BleSessionMore.
Import Py.
Import xiao_imu_ble_final.

Lemma ring_is_tail_grow ss ss' new :
  ring_is_tail ss ->
  all_rows ss' = all_rows ss ++ new ->
  data ss' = foldl Deque.append (data ss) new ->
  ring_is_tail ss' /\ Deque.maxlen (data ss') = Deque.maxlen (data ss).
Proof.
  unfold ring_is_tail. intros H Hrows Hdata.
  rewrite Hdata, Hrows, (ring_append_all _ _ _ H). split; reflexivity.
Qed.

Lemma sleep_full w d ss :
  exists ss', sleep w d ss = Ret ss'
    /\ all_rows ss' = all_rows ss /\ data ss' = data ss
    /\ controls ss' = controls ss /\ reads ss' = reads ss
    /\ slept ss' = slept ss ++ [d]
    /\ Queue.maxsize (q_parsed ss') = Queue.maxsize (q_parsed ss)
    /\ Queue.items (q_parsed ss) `prefix_of` Queue.items (q_parsed ss').
Proof.
  unfold sleep.
  destruct (relay_put_all_prefix (produced w (length (slept ss))) (q_parsed ss))
    as (q & -> & Hmax & Hpre).
  cbn [bind]. eexists. split; [reflexivity|]. cbn. repeat split; assumption.
Qed.

Lemma absorb_frame w row ss :
  controls (absorb w ss row) = controls ss
  /\ slept (absorb w ss row) = slept ss
  /\ q_parsed (absorb w ss row)
     = Queue.mk (Queue.maxsize (q_parsed ss)) (tail (Queue.items (q_parsed ss))).
Proof.
  unfold absorb, t_rel_of, controls. cbn [t0 set_q_parsed].
  destruct (t0 ss) as [start|] eqn:Et; [destruct (truthy start) eqn:Hs|];
    cbn; rewrite ?Et; repeat split.
Qed.

Lemma absorb_all_frame w (rows : list imu_row) : forall ss,
  controls (foldl (absorb w) ss rows) = controls ss
  /\ slept (foldl (absorb w) ss rows) = slept ss.
Proof.
  induction rows as [|row rows IH]; intros ss; cbn [foldl]; [split; reflexivity|].
  destruct (IH (absorb w ss row)) as [-> ->].
  destruct (absorb_frame w row ss) as (-> & -> & _). split; reflexivity.
Qed.

Lemma pump_passes_full w (passes : nat) : forall ss total,
  exists ss' new k,
    pump_passes passes w ss total = Ret (ss', total + len new)
    /\ all_rows ss' = all_rows ss ++ new
    /\ data ss' = foldl Deque.append (data ss) new
    /\ controls ss' = controls ss
    /\ slept ss' = slept ss ++ replicate k f_0_01
    /\ (k <= passes)%nat
    /\ (Queue.items (q_parsed ss) = [] -> ss' = ss /\ new = [] /\ k = 0%nat)
    /\ (passes <> 0%nat ->
        exists more,
          new = imap (fun i row => retime (stamp w ss i row) row)
                     (Queue.items (q_parsed ss)) ++ more).
Proof.
  induction passes as [|passes IH]; intros ss total; cbn [pump_passes].
  - exists ss, [], 0%nat. unfold len. cbn.
    rewrite Z.add_0_r, !app_nil_r. repeat split; try reflexivity; try lia.
  - rewrite (drain_spec w (Queue.items (q_parsed ss))) by (reflexivity || lia).
    cbn [bind].
    destruct (absorb_all w (Queue.items (q_parsed ss)) ss) as (Hrows & Hdata & _).
    destruct (absorb_all_frame w (Queue.items (q_parsed ss)) ss) as (Hctl & Hsl).
    cbv zeta in Hrows, Hdata.
    set (stamped := imap _ _) in Hrows, Hdata |- *.
    set (ss1 := foldl _ _ _) in *.
    assert (Hlen : len (Queue.items (q_parsed ss)) = len stamped).
    { unfold len, stamped. rewrite length_imap. reflexivity. }
    rewrite Z.add_0_l.
    destruct (Z.eqb_spec (len (Queue.items (q_parsed ss))) 0) as [Hz|Hnz].
    + assert (Hnil : Queue.items (q_parsed ss) = []).
      { destruct (Queue.items (q_parsed ss)); [reflexivity|].
        unfold len in Hz. cbn [length] in Hz. lia. }
      assert (Hst : stamped = []) by (unfold stamped; rewrite Hnil; reflexivity).
      assert (Hss : ss1 = ss) by (unfold ss1; rewrite Hnil; reflexivity).
      exists ss, [], 0%nat. rewrite Hss, Hz. unfold len. cbn.
      rewrite !app_nil_r. repeat split; try reflexivity; try lia.
      intros _. exists []. rewrite app_nil_r. symmetry. exact Hst.
    + destruct (sleep_full w f_0_01 ss1)
        as (ss2 & -> & Hr2 & Hd2 & Hc2 & _ & Hs2 & _). cbn [bind].
      destruct (IH ss2 (total + len (Queue.items (q_parsed ss))))
        as (ss3 & new & k & -> & Hr3 & Hd3 & Hc3 & Hs3 & Hk & _ & _).
      exists ss3, (stamped ++ new), (S k). repeat apply conj.
      * f_equal. f_equal. unfold len in *. rewrite length_app. lia.
      * rewrite Hr3, Hr2, Hrows, <- app_assoc. reflexivity.
      * rewrite Hd3, Hd2, Hdata, foldl_app. reflexivity.
      * congruence.
      * rewrite Hs3, Hs2, Hsl, <- app_assoc. reflexivity.
      * lia.
      * intros Hnil. rewrite Hnil in Hnz. unfold len in Hnz. cbn in Hnz. lia.
      * intros _. exists new. reflexivity.
Qed.

Lemma fast_start_wait_frame w d : forall fuel ss ss',
  fast_start_wait fuel w d ss = Ret ss' ->
  all_rows ss' = all_rows ss /\ data ss' = data ss /\ controls ss' = controls ss
  /\ exists naps, slept ss' = slept ss ++ replicate naps f_0_02.
Proof.
  induction fuel as [|fuel IH]; intros ss ss' H; cbn [fast_start_wait] in H;
    [discriminate|].
  unfold now in H. cbv zeta in H.
  destruct (flt _ d).
  - cbn [q_parsed] in H. destruct (negb (Queue.empty (q_parsed ss))).
    + injection H as <-. repeat split. exists 0%nat. cbn. rewrite app_nil_r. reflexivity.
    + match type of H with
      | (bind (sleep w f_0_02 ?s) _) = _ =>
          destruct (sleep_full w f_0_02 s) as (ss2 & Hrun & Hr & Hd & Hc & _ & Hs & _)
      end.
      rewrite Hrun in H. cbn [bind] in H.
      destruct (IH _ _ H) as (Hr' & Hd' & Hc' & naps & Hs').
      unfold controls in *. cbn in Hr, Hd, Hc, Hs.
      repeat apply conj; try congruence.
      exists (S naps). rewrite Hs', Hs. cbn. rewrite <- app_assoc. reflexivity.
  - injection H as <-. repeat split. exists 0%nat. cbn. rewrite app_nil_r. reflexivity.
Qed.

Lemma fast_start_wait_returns w d : forall k fuel ss,
  (k < fuel)%nat ->
  flt (time_time w (reads ss + k)) d = false ->
  exists ss', fast_start_wait fuel w d ss = Ret ss'.
Proof.
  induction k as [|k IH]; intros [|fuel] ss Hfuel Hclock; try lia;
    cbn [fast_start_wait]; unfold now; cbv zeta.
  - rewrite Nat.add_0_r in Hclock. rewrite Hclock. eauto.
  - destruct (flt (time_time w (reads ss)) d); [|eauto].
    cbn [q_parsed]. destruct (negb (Queue.empty (q_parsed ss))); [eauto|].
    match goal with
    | |- exists _, (bind (sleep w f_0_02 ?s) _) = _ =>
        destruct (sleep_full w f_0_02 s) as (ss2 & -> & _ & _ & _ & Hreads & _)
    end.
    cbn [bind]. apply IH; [lia|]. rewrite Hreads. cbn [reads].
    replace (S (reads ss) + k)%nat with (reads ss + S k)%nat by lia. exact Hclock.
Qed.

End BleSessionMore.

Section BleSessionFacts.
Import Py.
Import xiao_imu_ble_final.

Lemma start_reader_spec fuel w ss ss' :
  thread_alive ss = false ->
  start_reader fuel w ss = Ret ss' ->
  exists new naps k,
    all_rows ss' = new
    /\ data ss' = foldl Deque.append (Deque.clear (data ss)) new
    /\ controls ss'
       = (Some true, Some false, conn_flag w, err_holder w,
          Some (time_time w (reads ss)), 0, None, [])
    /\ slept ss'
       = slept ss ++ [f_0_5] ++ replicate naps f_0_02 ++ replicate k f_0_01
    /\ (k <= 3)%nat.
Proof.
  intros Halive H. unfold start_reader in H. rewrite Halive in H.
  match type of H with
  | context [sleep w f_0_5 ?s] =>
      destruct (sleep_full w f_0_5 s) as (ss1 & Hrun & Hr1 & Hd1 & Hc1 & _ & Hs1 & _)
  end.
  rewrite Hrun in H. cbn [bind] in H. unfold now in H. cbv zeta in H.
  match type of H with
  | context [fast_start_wait fuel w ?d ?s] =>
      destruct (fast_start_wait fuel w d s) as [ss2| |] eqn:Hf
  end; cbn [bind] in H; try discriminate.
  apply fast_start_wait_frame in Hf as (Hr2 & Hd2 & Hc2 & naps & Hs2).
  unfold pump_queue_into_buffers in H.
  destruct (pump_passes_full w (Z.to_nat (Z.max 1 3)) ss2 0)
    as (ss3 & new & k & Hp & Hr3 & Hd3 & Hc3 & Hs3 & Hk & _).
  rewrite Hp in H. cbn [bind fst] in H. injection H as <-.
  exists new, naps, k. unfold controls, reset_for_start in *.
  cbn [reader_thread stop_event connected last_error t0 q_parsed data all_rows
       plotted_n download_bytes download_name reads slept] in *.
  repeat apply conj.
  - rewrite Hr3, Hr2, Hr1. reflexivity.
  - rewrite Hd3, Hd2, Hd1. reflexivity.
  - injection Hc1 as E1 E2 E3 E4 E5 E6 E7 E8.
    injection Hc2 as F1 F2 F3 F4 F5 F6 F7 F8.
    rewrite Hc3, F1, F2, F3, F4, F5, F6, F7, F8, E1, E2, E5, E6, E7, E8. reflexivity.
  - rewrite Hs3, Hs2, Hs1, <- !app_assoc. reflexivity.
  - exact Hk.
Qed.

Lemma start_reader_returns fuel w ss (k : nat) :
  thread_alive ss = false ->
  (k < fuel)%nat ->
  flt (time_time w (reads ss + 2 + k))
      (fadd (time_time w (reads ss + 1)) FAST_START_WAIT_S) = false ->
  exists ss', start_reader fuel w ss = Ret ss'.
Proof.
  intros Halive Hfuel Hclock. unfold start_reader. rewrite Halive.
  match goal with
  | |- context [sleep w f_0_5 ?s] =>
      destruct (sleep_full w f_0_5 s) as (ss1 & -> & _ & _ & _ & Hreads & _)
  end.
  cbn [bind]. unfold now. cbv zeta.
  match goal with
  | |- context [fast_start_wait fuel w ?d ?s] =>
      destruct (fast_start_wait_returns w d k fuel s Hfuel) as [ss2 ->]
  end.
  - cbn [reads]. rewrite Hreads. unfold reset_for_start. cbn [reads].
    replace (S (S (reads ss)) + k)%nat with (reads ss + 2 + k)%nat by lia.
    replace (S (reads ss)) with (reads ss + 1)%nat by lia. exact Hclock.
  - cbn [bind]. unfold pump_queue_into_buffers.
    destruct (pump_passes_full w (Z.to_nat (Z.max 1 3)) ss2 0) as (ss3 & new & k' & -> & _).
    cbn [bind fst]. eauto.
Qed.

Lemma stop_spec w ss :
  exists ss', stop_reader_and_save w ss = Ret ss'
    /\ all_rows ss' = all_rows ss /\ data ss' = data ss
    /\ reader_thread ss' = None /\ stop_event ss' = None /\ connected ss' = false
    /\ download_bytes ss'
       = match all_rows ss with
         | [] => download_bytes ss
         | _ => Some (to_csv (all_rows ss))
         end
    /\ Queue.items (q_parsed ss) `prefix_of` Queue.items (q_parsed ss').
Proof.
  unfold stop_reader_and_save. destruct (thread_alive ss).
  - destruct (sleep_full w f_2_0 ss) as (ss1 & -> & Hr & Hd & Hc & _ & _ & _ & Hpre).
    cbn [bind]. eexists. split; [reflexivity|].
    unfold controls in Hc. injection Hc as _ _ _ _ _ _ Hdb _.
    cbn. rewrite Hr, Hdb. repeat apply conj; try reflexivity; try assumption.
  - cbn [bind]. eexists. split; [reflexivity|]. cbn.
    repeat apply conj; reflexivity.
Qed.

(** X6: the ring buffer always shows the tail of the accumulator.  If the
    ring holds the last [maxlen] rows of the accumulator, it still does after
    the pump, after a Start request and after Stop, so that a chart drawn
    from the ring shows the most recent rows of what the CSV will hold. *)
Theorem ring_shows_tail_of_accumulator w ss :
  ring_is_tail ss ->
  (forall repeat, exists ss' n,
      pump_queue_into_buffers w repeat ss = Ret (ss', n)
      /\ ring_is_tail ss'
      /\ Deque.maxlen (data ss') = Deque.maxlen (data ss))
  /\ (forall fuel ss', start_reader fuel w ss = Ret ss' ->
                       ring_is_tail ss'
                       /\ Deque.maxlen (data ss') = Deque.maxlen (data ss))
  /\ (exists ss', stop_reader_and_save w ss = Ret ss' /\ ring_is_tail ss')
  /\ length (Deque.items (data ss))
     = Nat.min (length (all_rows ss)) (Deque.maxlen (data ss)).
Proof.
  intros Hring. repeat apply conj.
  - intros repeat. unfold pump_queue_into_buffers.
    destruct (pump_passes_full w (Z.to_nat (Z.max 1 repeat)) ss 0)
      as (ss' & new & k & -> & Hr & Hd & _).
    exists ss', (0 + len new). split; [reflexivity|].
    exact (ring_is_tail_grow ss ss' new Hring Hr Hd).
  - intros fuel ss' H. destruct (thread_alive ss) eqn:Halive.
    + unfold start_reader in H. rewrite Halive in H. injection H as <-.
      split; [exact Hring | reflexivity].
    + destruct (start_reader_spec fuel w ss ss' Halive H)
        as (new & naps & k & Hr & Hd & _).
      apply (ring_is_tail_grow (with_all_rows (Session (reader_thread ss) (stop_event ss)
               (connected ss) (last_error ss) (t0 ss) (q_parsed ss)
               (Deque.clear (data ss)) [] (plotted_n ss) (download_bytes ss)
               (download_name ss) (reads ss) (slept ss)) []) ss' new).
      * reflexivity.
      * exact Hr.
      * exact Hd.
  - destruct (stop_spec w ss) as (ss' & Hrun & Hr & Hd & _).
    exists ss'. split; [exact Hrun|]. unfold ring_is_tail. rewrite Hr, Hd. exact Hring.
  - rewrite Hring, length_drop. lia.
Qed.

Lemma ring_shows_tail_of_accumulator_witness :
  let r := fun n => Row (float_of_Z n) fzero fzero fzero fzero fzero fzero in
  let w := World (fun n => float_of_Z (Z.of_nat n)) (fun _ => [r 7]) [] true [] true in
  let ss := Session None None false [] None (Queue.mk 20000 [r 4; r 5])
              (Deque.mk 2 [r 2; r 3]) [r 1; r 2; r 3] 0 None [] 0 [] in
  exists ss' n,
    pump_queue_into_buffers w 3 ss = Ret (ss', n)
    /\ ring_is_tail ss'
    /\ Deque.maxlen (data ss') = Deque.maxlen (data ss).
Proof.
  intros r w ss.
  apply (proj1 (ring_shows_tail_of_accumulator w ss eq_refl)).
Defined.

(** X8: Stop does not drain the channel.  The CSV it stores is built from
    the accumulator as it is when Stop is requested; the rows still waiting
    in the channel stay there, are appended to the accumulator by the next
    pump, and are not in the stored CSV, which the pump leaves as it is. *)
Theorem stop_saves_before_the_channel_is_drained w w' repeat ss :
  exists ss1 ss2 new,
    stop_reader_and_save w ss = Ret ss1
    /\ Queue.items (q_parsed ss) `prefix_of` Queue.items (q_parsed ss1)
    /\ download_bytes ss1
       = match all_rows ss with
         | [] => download_bytes ss
         | _ => Some (to_csv (all_rows ss))
         end
    /\ pump_queue_into_buffers w' repeat ss1 = Ret (ss2, len new)
    /\ all_rows ss2 = all_rows ss ++ new
    /\ (length (Queue.items (q_parsed ss)) <= length new)%nat
    /\ download_bytes ss2 = download_bytes ss1.
Proof.
  destruct (stop_spec w ss) as (ss1 & Hstop & Hr & _ & _ & _ & _ & Hdb & Hpre).
  unfold pump_queue_into_buffers.
  destruct (pump_passes_full w' (Z.to_nat (Z.max 1 repeat)) ss1 0)
    as (ss2 & new & k & Hp & Hr2 & _ & Hc & _ & _ & _ & Hfront).
  exists ss1, ss2, new. repeat apply conj; try assumption.
  - congruence.
  - destruct Hfront as [more ->]; [lia|].
    rewrite length_app, length_imap. apply prefix_length in Hpre. lia.
  - unfold controls in Hc. injection Hc as _ _ _ _ _ _ E _. exact E.
Qed.

End BleSessionFacts.

(** ** The LED controllers: what a command can come back with *)

Section LedMore.
Import Py.
Import controll_LEDs_BLE.

Lemma wait_loop_no_raise w t0 timeout_s : forall fuel m e,
  wait_loop fuel w t0 timeout_s m <> Raise e.
Proof.
  induction fuel as [|fuel IH]; intros m e; cbn [wait_loop read_clock]; [discriminate|].
  destruct (flt _ timeout_s); [|discriminate].
  cbn [last_reply]. destruct (last_reply m); [apply IH | discriminate].
Qed.

(** X10: [send_and_wait] raises in two cases only, both before any waiting:
    RuntimeError when there is no connected client (nothing is then written),
    and whatever the write raised when the write fails.  The polling loop
    that follows a successful write never raises. *)
Theorem send_and_wait_raises_only_on_send fuel w text timeout_s m e :
  send_and_wait fuel w text timeout_s m = Raise e
  <-> (client_ok m = false /\ e = RuntimeError)
      \/ (client_ok m = true /\ write_error w (length (written m)) = Some e).
Proof.
  unfold send_and_wait, send. destruct (client_ok m); cbn [negb].
  - destruct (write_error w (length (written m))) as [e'|]; cbn [bind].
    + split.
      * intros H. injection H as <-. right. split; reflexivity.
      * intros [[H _] | [_ H]]; [discriminate | injection H as <-; reflexivity].
    + unfold read_clock. split.
      * intros H. exfalso. exact (wait_loop_no_raise _ _ _ _ _ _ H).
      * intros [[H _] | [_ H]]; discriminate.
  - cbn [bind]. split.
    + intros H. injection H as <-. left. split; reflexivity.
    + intros [[_ ->] | [H _]]; [reflexivity | discriminate].
Qed.

End LedMore.

Section UsbLed.
Import Py.
Import app.

(** The reading loop of [send_cmd], entered at turn [k] with the clock past
    the end of the window by turn [k + n] at the latest. *)
Lemma read_reply_spec w t_end : forall n fuel k,
  (n < fuel)%nat ->
  flt (time_time w (S (k + n))) t_end = false ->
  exists j r,
    (j <= n)%nat
    /\ read_reply fuel w t_end k = Ret r
    /\ (forall i, (i < j)%nat ->
          flt (time_time w (S (k + i))) t_end = true
          /\ exists raw, readline w (k + i) = inr raw
                         /\ strip (decode_ignore raw) = [])
    /\ ((flt (time_time w (S (k + j))) t_end = false /\ r = inr [])
        \/ (flt (time_time w (S (k + j))) t_end = true
            /\ exists msg, readline w (k + j) = inl msg /\ r = inl msg)
        \/ (flt (time_time w (S (k + j))) t_end = true
            /\ exists raw, readline w (k + j) = inr raw
                           /\ strip (decode_ignore raw) <> []
                           /\ r = inr (strip (decode_ignore raw)))).
Proof.
  induction n as [|n IH]; intros [|fuel] k Hfuel Hend; try lia; cbn [read_reply].
  - rewrite Nat.add_0_r in Hend. rewrite Hend.
    exists 0%nat, (inr []). rewrite Nat.add_0_r.
    split; [lia|]. split; [reflexivity|]. split; [intros i Hi; lia|].
    left. split; [assumption | reflexivity].
  - destruct (flt (time_time w (S k)) t_end) eqn:Hin.
    + destruct (readline w k) as [msg|raw] eqn:Hread.
      * exists 0%nat, (inl msg). rewrite Nat.add_0_r.
        split; [lia|]. split; [reflexivity|]. split; [intros i Hi; lia|].
        right. left. split; [assumption|]. exists msg. split; [assumption | reflexivity].
      * destruct (strip (decode_ignore raw)) as [|c line] eqn:Hline.
        -- destruct (IH fuel (S k)) as (j & r & Hj & Hrun & Hblank & Hlast); [lia| |].
           { replace (S k + n)%nat with (k + S n)%nat by lia. exact Hend. }
           exists (S j), r. split; [lia|]. split; [exact Hrun|].
           replace (k + S j)%nat with (S k + j)%nat by lia.
           split; [|exact Hlast].
           intros [|i] Hi.
           ++ rewrite Nat.add_0_r. split; [assumption|].
              exists raw. split; assumption.
           ++ replace (k + S i)%nat with (S k + i)%nat by lia. apply Hblank. lia.
        -- exists 0%nat, (inr (c :: line)). rewrite Nat.add_0_r.
           split; [lia|]. split; [reflexivity|]. split; [intros i Hi; lia|].
           right. right. split; [assumption|]. exists raw.
           rewrite Hline. split; [assumption|]. split; [discriminate | reflexivity].
    + exists 0%nat, (inr []). rewrite Nat.add_0_r.
      split; [lia|]. split; [reflexivity|]. split; [intros i Hi; lia|].
      left. split; [assumption | reflexivity].
Qed.

(** X11: [send_cmd] never raises and never returns an empty text; once the
    clock passes the end of the 1.2 s window (by the [n]-th turn of the
    reading loop at the latest) it returns, and what it returns is fixed in
    this order.  If opening the port fails: the text of that exception.
    Else, if closing the port on the way out fails: the text of that
    exception, whatever happened in between.  Else the text of the exception
    of the buffer resets, else of the write.  Else the reading loop decides,
    at the first turn [j] that is past the window or whose line is not
    blank, every earlier turn having read a blank line within the window:
    past the window "(no reply)"; within it the text of the exception the
    read raised, or the line read, stripped. *)
Theorem send_cmd_always_answers (fuel : nat) (w : world) (cmd : str) (n : nat) :
  (n < fuel)%nat ->
  flt (time_time w (S n)) (fadd (time_time w 0) WINDOW_S) = false ->
  let in_window := fun j => flt (time_time w (S j)) (fadd (time_time w 0) WINDOW_S) in
  exists reply j,
    send_cmd fuel w cmd = Ret reply
    /\ reply <> []
    /\ (j <= n)%nat
    /\ (forall i, (i < j)%nat ->
          in_window i = true
          /\ exists blank, readline w i = inr blank
                           /\ strip (decode_ignore blank) = [])
    /\ (in_window j = true ->
        forall raw, readline w j = inr raw -> strip (decode_ignore raw) <> [])
    /\ reply
       = match open_error w with
         | Some msg => error_text msg
         | None =>
         match close_error w with
         | Some msg => error_text msg
         | None =>
         match reset_error w with
         | Some msg => error_text msg
         | None =>
         match write_error w with
         | Some msg => error_text msg
         | None =>
             if in_window j then
               match readline w j with
               | inl msg => error_text msg
               | inr raw => strip (decode_ignore raw)
               end
             else NO_REPLY
         end end end end.
Proof.
  intros Hfuel Hend in_window.
  assert (Herr : forall msg, error_text msg <> []) by (intros msg; discriminate).
  destruct (read_reply_spec w (fadd (time_time w 0) WINDOW_S) n fuel 0 Hfuel Hend)
    as (j & r & Hj & Hrun & Hblank & Hlast).
  cbn [Nat.add] in Hblank, Hlast. fold (in_window j) in Hlast.
  assert (Hturn : in_window j = true ->
                  forall raw, readline w j = inr raw -> strip (decode_ignore raw) <> []).
  { intros Hin raw Hraw.
    destruct Hlast as [[Hout _] | [(_ & msg & Hread & _) | (_ & raw' & Hread & Hne & _)]];
      [congruence | congruence |].
    rewrite Hraw in Hread. injection Hread as <-. exact Hne. }
  assert (Hbody : match r with
                  | inl msg => error_text msg
                  | inr reply => match reply with [] => NO_REPLY | _ => reply end
                  end
                  = if in_window j then
                      match readline w j with
                      | inl msg => error_text msg
                      | inr raw => strip (decode_ignore raw)
                      end
                    else NO_REPLY).
  { destruct Hlast as [[Hout ->] | [(Hin & msg & Hread & ->) | (Hin & raw & Hread & Hne & ->)]].
    - rewrite Hout. reflexivity.
    - rewrite Hin, Hread. reflexivity.
    - rewrite Hin, Hread. destruct (strip (decode_ignore raw)); [contradiction | reflexivity]. }
  assert (Hbody_ne : match r with
                     | inl msg => error_text msg
                     | inr reply => match reply with [] => NO_REPLY | _ => reply end
                     end <> []).
  { destruct r as [msg|[|c reply]]; [apply Herr | discriminate | discriminate]. }
  assert (Hearlier : forall i, (i < j)%nat ->
                       in_window i = true
                       /\ exists blank, readline w i = inr blank
                                        /\ strip (decode_ignore blank) = []).
  { intros i Hi. exact (Hblank i Hi). }
  unfold send_cmd.
  destruct (open_error w) as [msg|].
  { exists (error_text msg), j. repeat apply conj; try assumption; try reflexivity. apply Herr. }
  destruct (reset_error w) as [msg|]; cbn [bind].
  { destruct (close_error w) as [msg'|]; eexists; exists j;
      (repeat apply conj; try assumption; try reflexivity; apply Herr). }
  destruct (write_error w) as [msg|]; cbn [bind].
  { destruct (close_error w) as [msg'|]; eexists; exists j;
      (repeat apply conj; try assumption; try reflexivity; apply Herr). }
  rewrite Hrun. cbn [bind].
  destruct (close_error w) as [msg'|].
  { eexists; exists j; (repeat apply conj; try assumption; try reflexivity; apply Herr). }
  exists (match r with
          | inl msg => error_text msg
          | inr reply => match reply with [] => NO_REPLY | _ => reply end
          end), j.
  repeat apply conj; try assumption.
  destruct r; reflexivity.
Qed.

Lemma send_cmd_always_answers_witness :
  let w := World None None None
             (fun k => match k with
                       | O => inr [x0d; x0a]%byte
                       | _ => inr ["O"; "K"; " "; "D"; "7"; x0d; x0a]%byte
                       end)
             None (fun i => float_of_decimal false (5 * N.of_nat i) (-1)) in
  (exists reply j, send_cmd 3 w (lit "7") = Ret reply /\ reply <> [] /\ (j <= 2)%nat)
  /\ send_cmd 3 w (lit "7") = Ret (lit "OK D7").
Proof.
  intros w. split; [|vm_compute; reflexivity].
  destruct (send_cmd_always_answers 3 w (lit "7") 2) as (reply & j & Hrun & Hne & Hj & _).
  - lia.
  - vm_compute. reflexivity.
  - exists reply, j. repeat split; assumption.
Defined.

End UsbLed.

(** ** The text-buffer framer of xiao_usb.py and Test_BLE_Sense.py *)

Section TextFramer.
Import Py.

Lemma splitlines_from_nil s : forall cur,
  splitlines_from cur s = [] -> cur = [] /\ s = [].
Proof.
  induction s as [|c r IH]; intros cur H; cbn [splitlines_from] in H.
  - destruct cur; [split; reflexivity | discriminate].
  - destruct (is_linebreak c).
    + destruct r as [|c' r']; [discriminate|]. destruct (_ && _); discriminate.
    + apply IH in H as [H _]. destruct cur; discriminate.
Qed.

Lemma splitlines_from_clean_upto (n : nat) : forall s cur,
  (length s <= n)%nat ->
  Forall (fun c => is_linebreak c = false) cur ->
  Forall (Forall (fun c => is_linebreak c = false)) (splitlines_from cur s).
Proof.
  induction n as [|n IH]; intros [|c r] cur Hlen Hcur; cbn [length] in Hlen;
    try lia; cbn [splitlines_from].
  - destruct cur; [constructor | constructor; [assumption | constructor]].
  - destruct cur; [constructor | constructor; [assumption | constructor]].
  - destruct (is_linebreak c) eqn:Hc.
    + destruct r as [|c' r']; [constructor; [assumption | constructor]|].
      cbn [length] in Hlen.
      destruct (_ && _); constructor; try assumption; apply IH;
        cbn [length]; try lia; constructor.
    + apply IH; [lia|]. apply Forall_app. split; [assumption|].
      constructor; [assumption | constructor].
Qed.

Lemma splitlines_from_clean s cur :
  Forall (fun c => is_linebreak c = false) cur ->
  Forall (Forall (fun c => is_linebreak c = false)) (splitlines_from cur s).
Proof. apply (splitlines_from_clean_upto (length s)). lia. Qed.

Lemma deque_append_bounded {A} (d : Deque.t A) (x : A) :
  Deque.maxlen (Deque.append d x) = Deque.maxlen d
  /\ ((length (Deque.items d) <= Deque.maxlen d)%nat ->
      (length (Deque.items (Deque.append d x)) <= Deque.maxlen d)%nat).
Proof.
  unfold Deque.append. cbn [Deque.maxlen Deque.items]. split; [reflexivity|].
  intros H. destruct (Nat.ltb_spec (Deque.maxlen d) (length (Deque.items d ++ [x]))).
  - rewrite length_drop, length_app. cbn [length]. lia.
  - assumption.
Qed.

Lemma append_parsed_total {A} (parse : str -> outcome (option A)) (truthy : A -> bool) :
  (forall l, exists r, parse l = Ret r) ->
  forall lines data, exists data',
    LineBuffer.append_parsed parse truthy lines data = Ret data'
    /\ Deque.maxlen data' = Deque.maxlen data
    /\ ((length (Deque.items data) <= Deque.maxlen data)%nat ->
        (length (Deque.items data') <= Deque.maxlen data')%nat).
Proof.
  intros Hparse. induction lines as [|ln lines IH]; intros data;
    cbn [LineBuffer.append_parsed].
  - exists data. repeat split. intros H. exact H.
  - destruct (Hparse ln) as [r ->]. cbn [bind].
    set (d1 := match r with Some x => if truthy x then _ else data | None => data end).
    assert (H1 : Deque.maxlen d1 = Deque.maxlen data
                 /\ ((length (Deque.items data) <= Deque.maxlen data)%nat ->
                     (length (Deque.items d1) <= Deque.maxlen d1)%nat)).
    { subst d1. destruct r as [x|]; [destruct (truthy x)|]; try (split; [reflexivity | tauto]).
      destruct (deque_append_bounded data x) as [Hm Hb]. rewrite Hm. split; [reflexivity | exact Hb]. }
    destruct H1 as [Hm1 Hb1]. destruct (IH d1) as (data' & Hrun & Hm & Hb).
    exists data'. split; [exact Hrun|]. split; [congruence | tauto].
Qed.

Lemma feed_text_total {A} (parse : str -> outcome (option A)) (truthy : A -> bool) :
  (forall l, exists r, parse l = Ret r) ->
  forall text buffer data, exists buffer' data',
    LineBuffer.feed_text parse truthy text (buffer, data) = Ret (buffer', data')
    /\ (NL ∉ buffer')
    /\ Deque.maxlen data' = Deque.maxlen data
    /\ ((length (Deque.items data) <= Deque.maxlen data)%nat ->
        (length (Deque.items data') <= Deque.maxlen data')%nat)
    /\ (NL ∉ buffer ++ text -> buffer' = buffer ++ text /\ data' = data).
Proof.
  intros Hparse text buffer data. unfold LineBuffer.feed_text. cbn [fst snd].
  unfold contains. destruct (decide (NL ∈ buffer ++ text)) as [Hin|Hout].
  - rewrite (bool_decide_eq_true_2 _ Hin).
    assert (Hclean := splitlines_from_clean (buffer ++ text) [] (Forall_nil_2 _)).
    fold (splitlines (buffer ++ text)) in Hclean.
    destruct (negb (endswith (buffer ++ text) [NL])).
    + unfold LineBuffer.pop.
      destruct (last (splitlines (buffer ++ text))) as [l|] eqn:Hlast.
      * cbn [bind fst snd].
        destruct (append_parsed_total parse truthy Hparse
                    (take (length (splitlines (buffer ++ text)) - 1)
                          (splitlines (buffer ++ text))) data)
          as (data' & -> & Hm & Hb).
        cbn [bind]. exists l, data'. split; [reflexivity|].
        split; [|split; [exact Hm | split; [exact Hb | intros H; contradiction]]].
        intros Hl. apply last_Some_elem_of in Hlast.
        rewrite Forall_forall in Hclean. specialize (Hclean _ Hlast).
        rewrite Forall_forall in Hclean. specialize (Hclean _ Hl). discriminate Hclean.
      * apply last_None in Hlast. apply splitlines_from_nil in Hlast as [_ Hnil].
        rewrite Hnil in Hin. inversion Hin.
    + cbn [bind fst snd].
      destruct (append_parsed_total parse truthy Hparse (splitlines (buffer ++ text)) data)
        as (data' & -> & Hm & Hb).
      cbn [bind]. exists [], data'. split; [reflexivity|].
      split; [intros H; inversion H|].
      split; [exact Hm | split; [exact Hb | intros H; contradiction]].
  - rewrite (bool_decide_eq_false_2 _ Hout).
    exists (buffer ++ text), data. repeat split; tauto.
Qed.

End TextFramer.

(** X12: the callbacks that frame text with [splitlines]
    (Test_BLE_Sense's [handle_notify] and the read block of xiao_usb) never
    raise: [lines.pop()] always finds a line.  The buffer they leave holds no
    LF, the ring keeps its capacity and stays within it, and a chunk that
    brings no LF is only appended to the buffer, no line being decoded. *)
Theorem text_callbacks_total (chunk : bytes) :
  (forall buffer data, exists buffer' data',
      Test_BLE_Sense.handle_notify chunk (buffer, data) = Ret (buffer', data')
      /\ (Py.NL ∉ buffer')
      /\ Deque.maxlen data' = Deque.maxlen data
      /\ ((length (Deque.items data) <= Deque.maxlen data)%nat ->
          (length (Deque.items data') <= Deque.maxlen data')%nat)
      /\ (Py.NL ∉ buffer ++ Py.decode_ignore chunk ->
          buffer' = buffer ++ Py.decode_ignore chunk /\ data' = data))
  /\ (forall buffer data, exists buffer' data',
      xiao_usb.read_new_data chunk (buffer, data) = Ret (buffer', data')
      /\ (Py.NL ∉ buffer')
      /\ Deque.maxlen data' = Deque.maxlen data
      /\ ((length (Deque.items data) <= Deque.maxlen data)%nat ->
          (length (Deque.items data') <= Deque.maxlen data')%nat)
      /\ (Py.NL ∉ buffer ++ Py.decode_ignore chunk ->
          buffer' = buffer ++ Py.decode_ignore chunk /\ data' = data)).
Proof.
  split; intros buffer data.
  - apply feed_text_total. exact parse_line_total.
  - apply feed_text_total. intros l. destruct (try_parse_total l) as (r & H & _). eauto.
Qed.

Section TextFramerChunks.
Import Py.
Context {A : Type} (parse : str -> outcome (option A)) (truthy : A -> bool).

Lemma lf_cut_app (a b : str) : forall cur,
  lf_cut cur (a ++ b)
  = ((lf_cut cur a).1 ++ (lf_cut (lf_cut cur a).2 b).1, (lf_cut (lf_cut cur a).2 b).2).
Proof.
  induction a as [|c a IH]; intros cur; cbn [lf_cut app fst snd].
  - destruct (lf_cut cur b); reflexivity.
  - destruct (c =? NL)%N.
    + rewrite IH. destruct (lf_cut [] a) as [la ra]. cbn [fst snd].
      destruct (lf_cut ra b); reflexivity.
    + apply IH.
Qed.

Lemma lf_cut_no_nl (s : str) : forall cur, NL ∉ s -> lf_cut cur s = ([], cur ++ s).
Proof.
  induction s as [|c s IH]; intros cur Hs; cbn [lf_cut].
  - rewrite app_nil_r. reflexivity.
  - destruct (N.eqb_spec c NL) as [->|Hne]; [exfalso; apply Hs; left|].
    rewrite IH, <- app_assoc; [reflexivity|].
    intros Hin. apply Hs. right. exact Hin.
Qed.

Lemma lf_cut_rest_subset (s : str) : forall cur c,
  c ∈ (lf_cut cur s).2 -> c ∈ cur ++ s.
Proof.
  induction s as [|x s IH]; intros cur c Hc; cbn [lf_cut] in Hc.
  - rewrite app_nil_r. exact Hc.
  - destruct (x =? NL)%N.
    + specialize (IH [] c). destruct (lf_cut [] s) as [ls rest]. cbn [snd] in *.
      apply elem_of_app. right. right. apply IH. exact Hc.
    + apply IH in Hc. rewrite <- app_assoc in Hc. exact Hc.
Qed.

Lemma lf_cut_rest_no_nl (s : str) : forall cur, NL ∉ cur -> NL ∉ (lf_cut cur s).2.
Proof.
  induction s as [|x s IH]; intros cur Hcur; cbn [lf_cut].
  - exact Hcur.
  - destruct (N.eqb_spec x NL) as [->|Hne].
    + specialize (IH []). destruct (lf_cut [] s) as [ls rest]. cbn [snd] in *.
      apply IH. intros H. inversion H.
    + apply IH. intros H. apply elem_of_app in H as [H|H]; [exact (Hcur H)|].
      apply list_elem_of_singleton in H. congruence.
Qed.

Lemma lf_split (s : str) : forall cur,
  lf_only s ->
  splitlines_from cur s
  = (lf_cut cur s).1 ++ match (lf_cut cur s).2 with [] => [] | r => [r] end.
Proof.
  induction s as [|c r IH]; intros cur Hs; cbn [splitlines_from lf_cut fst snd].
  - destruct cur; reflexivity.
  - apply Forall_cons in Hs as [Hc Hr].
    destruct (is_linebreak c) eqn:Hlb.
    + rewrite (Hc eq_refl). rewrite N.eqb_refl.
      destruct r as [|c' r'].
      * reflexivity.
      * replace ((NL =? 13) && (c' =? 10))%N with false by reflexivity.
        rewrite (IH [] Hr). destruct (lf_cut [] (c' :: r')) as [ls rest]. reflexivity.
    + destruct (N.eqb_spec c NL) as [->|Hne]; [discriminate Hlb|].
      apply IH. exact Hr.
Qed.

Lemma endswith_nl (s : str) :
  endswith s [NL] = true <-> exists s', s = s' ++ [NL].
Proof.
  unfold endswith. destruct s as [|x s _] using rev_ind.
  - cbn. split; [discriminate|]. intros [s' H]. destruct s'; discriminate.
  - rewrite length_app. cbn [length].
    replace (length s + 1 - 1)%nat with (length s) by lia.
    rewrite drop_app_length.
    replace (1 <=? length s + 1)%nat with true by (symmetry; apply Nat.leb_le; lia).
    cbn [andb]. rewrite bool_decide_eq_true. split.
    + intros H. injection H as ->. eauto.
    + intros [s' H]. apply app_inj_tail in H as [_ ->]. reflexivity.
Qed.

Lemma append_parsed_app (l1 l2 : list str) : forall data,
  LineBuffer.append_parsed parse truthy (l1 ++ l2) data
  = (d <- LineBuffer.append_parsed parse truthy l1 data ;;
     LineBuffer.append_parsed parse truthy l2 d).
Proof.
  induction l1 as [|ln l1 IH]; intros data; cbn [LineBuffer.append_parsed app bind].
  - reflexivity.
  - destruct (parse ln) as [r| |]; cbn [bind]; [apply IH | reflexivity..].
Qed.

Lemma feed_text_lf (text buffer : str) (data : Deque.t A) :
  lf_only (buffer ++ text) ->
  LineBuffer.feed_text parse truthy text (buffer, data)
  = (data' <- LineBuffer.append_parsed parse truthy (lf_cut [] (buffer ++ text)).1 data ;;
     Ret ((lf_cut [] (buffer ++ text)).2, data')).
Proof.
  intros Hlf. unfold LineBuffer.feed_text. cbn [fst snd].
  set (s := buffer ++ text) in *. unfold contains.
  destruct (decide (NL ∈ s)) as [Hin|Hout].
  - rewrite (bool_decide_eq_true_2 _ Hin). unfold splitlines. rewrite (lf_split s [] Hlf).
    destruct (endswith s [NL]) eqn:Hend; cbn [negb].
    + apply endswith_nl in Hend as [s' Hs']. rewrite Hs', lf_cut_app. cbn [fst snd lf_cut].
      rewrite N.eqb_refl. cbn [fst snd bind]. rewrite app_nil_r. reflexivity.
    + assert (Hlast : exists s' x, s = s' ++ [x] /\ x <> NL).
      { destruct s as [|x s' _] using rev_ind; [inversion Hin|].
        exists s', x. split; [reflexivity|]. intros ->.
        assert (endswith (s' ++ [NL]) [NL] = true) by (apply endswith_nl; eauto).
        congruence. }
      destruct Hlast as (s' & x & Hs' & Hx). rewrite Hs', lf_cut_app.
      cbn [fst snd lf_cut]. apply N.eqb_neq in Hx. rewrite Hx. cbn [fst snd].
      rewrite app_nil_r.
      destruct ((lf_cut [] s').2 ++ [x]) as [|y rest] eqn:Hrest;
        [destruct (lf_cut [] s').2; discriminate|].
      unfold LineBuffer.pop. rewrite last_snoc, length_app. cbn [length bind fst snd].
      replace (length (lf_cut [] s').1 + 1 - 1)%nat with (length (lf_cut [] s').1) by lia.
      rewrite take_app_length. reflexivity.
  - rewrite (bool_decide_eq_false_2 _ Hout), (lf_cut_no_nl s [] Hout). reflexivity.
Qed.

Lemma feed_texts_lf (texts : list str) : forall (buffer : str) (data : Deque.t A),
  NL ∉ buffer ->
  lf_only (buffer ++ concat texts) ->
  LineBuffer.feed_texts parse truthy texts (buffer, data)
  = (data' <- LineBuffer.append_parsed parse truthy
                (lf_cut [] (buffer ++ concat texts)).1 data ;;
     Ret ((lf_cut [] (buffer ++ concat texts)).2, data')).
Proof.
  induction texts as [|text texts IH]; intros buffer data Hbuf Hlf;
    cbn [LineBuffer.feed_texts concat] in *.
  - rewrite app_nil_r, (lf_cut_no_nl buffer [] Hbuf). reflexivity.
  - rewrite app_assoc in Hlf. apply Forall_app in Hlf as [Hlf1 Hlf2].
    rewrite (feed_text_lf text buffer data Hlf1).
    rewrite app_assoc, (lf_cut_app (buffer ++ text) (concat texts) []). cbn [fst snd].
    rewrite (append_parsed_app (lf_cut [] (buffer ++ text)).1).
    destruct (LineBuffer.append_parsed parse truthy (lf_cut [] (buffer ++ text)).1 data)
      as [d1| |]; cbn [bind]; [|reflexivity..].
    assert (Hr1 : NL ∉ (lf_cut [] (buffer ++ text)).2).
    { apply lf_cut_rest_no_nl. intros H. inversion H. }
    rewrite IH; [|exact Hr1|].
    + rewrite lf_cut_app, (lf_cut_no_nl _ [] Hr1). reflexivity.
    + apply Forall_app. split; [|exact Hlf2].
      apply Forall_forall. intros c Hc. apply lf_cut_rest_subset in Hc.
      unfold lf_only in Hlf1. rewrite Forall_forall in Hlf1. apply Hlf1. exact Hc.
Qed.

(** X13: for text in which LF is the only line boundary, the framing with
    [splitlines] does not depend on how the text is cut into chunks: fed to
    a buffer that holds no LF, any sequence of chunks decodes the lines
    ended by LF of the buffer followed by the whole text, in order, and
    leaves what follows the last LF in the buffer, exactly as the whole text
    fed at once. *)
Theorem text_framing_ignores_chunking (texts : list str) (buffer : str)
    (data : Deque.t A) :
  NL ∉ buffer ->
  lf_only (buffer ++ concat texts) ->
  LineBuffer.feed_texts parse truthy texts (buffer, data)
  = LineBuffer.feed_text parse truthy (concat texts) (buffer, data)
  /\ LineBuffer.feed_texts parse truthy texts (buffer, data)
     = (data' <- LineBuffer.append_parsed parse truthy
                   (lf_cut [] (buffer ++ concat texts)).1 data ;;
        Ret ((lf_cut [] (buffer ++ concat texts)).2, data')).
Proof.
  intros Hbuf Hlf. rewrite (feed_texts_lf texts buffer data Hbuf Hlf).
  rewrite (feed_text_lf (concat texts) buffer data Hlf). split; reflexivity.
Qed.

End TextFramerChunks.

Lemma text_framing_ignores_chunking_witness :
  LineBuffer.feed_texts xiao_usb.try_parse xiao_usb.tuple_truthy
    [Py.lit "1,2"; Py.lit ",3"; [Py.NL; 0x34%N]] ([], Deque.mk 500 [])
  = LineBuffer.feed_text xiao_usb.try_parse xiao_usb.tuple_truthy
      (Py.lit "1,2,3" ++ [Py.NL; 0x34%N]) ([], Deque.mk 500 []).
Proof.
  apply (text_framing_ignores_chunking xiao_usb.try_parse xiao_usb.tuple_truthy
           [Py.lit "1,2"; Py.lit ",3"; [Py.NL; 0x34%N]] [] (Deque.mk 500 [])).
  - intros H. inversion H.
  - unfold Py.lf_only. repeat constructor; intros H; vm_compute in H; discriminate H.
Defined.

(** ** A whole run of the serial dashboard *)

Section StreamRun.
Import Py.
Import xiao_imu_stream.

Lemma stream_drain_frame w : forall fuel ss acc ss' out,
  drain fuel w ss acc = Ret (ss', out) ->
  reader_thread ss' = reader_thread ss
  /\ download_bytes ss' = download_bytes ss
  /\ download_name ss' = download_name ss
  /\ slept ss' = slept ss.
Proof.
  induction fuel as [|fuel IH]; intros ss acc ss' out H; cbn [drain] in H; [discriminate|].
  unfold xiao_imu_ble_final.next_row, Queue.get_nowait in H.
  destruct (Queue.items (q_parsed ss)) as [|row rows]; cbn [bind try_except] in H.
  - cbn in H. injection H as <- <-. repeat split.
  - destruct (t_rel_of w ss) as [t_rel reads']. apply IH in H. cbn in H. exact H.
Qed.

(** X14: Start, one pump and Stop of xiao_imu_stream, composed.  Start does
    not empty the channel: the rows still queued from before come first,
    followed by the rows the new thread offers during the 0.25 s pause, as
    far as the channel has room.  The pump returns them in that order,
    stamped with the clock offset from the new start time (0.0 when that
    reading is zero), and the CSV that Stop stores holds exactly the rows the
    pump returned; rows arriving while Stop joins the thread are not in
    it.  With no row at all, no CSV is stored and the name stays
    "data_xiao.csv". *)
Theorem stream_run_saves_what_was_pumped (w : world) (ss : session) :
  thread_alive ss = false ->
  channel_ok (q_parsed ss) ->
  let start := time_time w (reads ss) in
  let offered := take (Z.to_nat (Queue.maxsize (q_parsed ss)))
                      (Queue.items (q_parsed ss) ++ produced w (length (slept ss))) in
  let new := imap (fun i row =>
                     retime (if truthy start
                             then fsub (time_time w (S (reads ss) + i)) start
                             else fzero) row) offered in
  exists ss1 ss2 ss3,
    start_reader w ss = Ret ss1
    /\ pump_queue_into_buffers w ss1 = Ret (ss2, new)
    /\ stop_reader_and_save w ss2 = Ret ss3
    /\ all_rows ss3 = new
    /\ download_bytes ss3
       = match new with [] => None | _ => Some (to_csv new) end
    /\ download_name ss3
       = match new with
         | [] => lit "data_xiao.csv"
         | _ => lit "data_xiao_" ++ strftime w ++ lit ".csv"
         end.
Proof.
  intros Halive [Hmax Hlen] start offered new.
  pose (ss1 := Session (Some true) (Some false) (ser_open_flag w) (err_holder w)
                 (Some start) (Queue.mk (Queue.maxsize (q_parsed ss)) offered)
                 (Deque.clear (data ss)) [] None (lit "data_xiao.csv")
                 (S (reads ss)) (slept ss ++ [f_0_25])).
  assert (Hstart : start_reader w ss = Ret ss1).
  { unfold start_reader. rewrite Halive. unfold sleep. cbn [q_parsed slept].
    rewrite (relay_put_all_spec _ _ Hmax Hlen). reflexivity. }
  destruct (stream_drain_spec w offered (S (length offered)) ss1 [] eq_refl
              (Nat.lt_succ_diag_r _)) as (ss2 & Hrun & Hall & _).
  cbv zeta in Hrun, Hall.
  assert (Hnew : imap (fun i row => retime (stamp w ss1 i) row) offered = new).
  { subst new. apply imap_ext. intros i row _. reflexivity. }
  rewrite Hnew in Hrun, Hall. cbn [app all_rows ss1] in Hrun, Hall.
  destruct (stream_drain_frame w _ _ _ _ _ Hrun) as (Hth & Hdb & Hdn & _).
  cbn [reader_thread download_bytes download_name ss1] in Hth, Hdb, Hdn.
  assert (Hjoin : exists ss2', sleep w f_1_5 ss2 = Ret ss2'
                               /\ all_rows ss2' = new
                               /\ download_bytes ss2' = None
                               /\ download_name ss2' = lit "data_xiao.csv").
  { unfold sleep.
    destruct (relay_put_all_total (produced w (length (slept ss2))) (q_parsed ss2)) as [q ->].
    cbn [bind]. eexists. split; [reflexivity|]. cbn. repeat split; assumption. }
  destruct Hjoin as (ss2' & Hjoin & Hr & Hdb' & Hdn').
  exists ss1, ss2. eexists. split; [exact Hstart|]. split; [exact Hrun|].
  unfold stop_reader_and_save, thread_alive. rewrite Hth, Hjoin. cbn [bind].
  split; [reflexivity|]. cbn. rewrite Hr, Hdb', Hdn'.
  split; [reflexivity|]. destruct new; split; reflexivity.
Qed.

Lemma stream_run_saves_what_was_pumped_witness :
  let r := fun n => Row (float_of_Z n) fzero fzero fzero fzero fzero fzero in
  let w := World (fun n => float_of_Z (Z.of_nat n + 10)) (fun _ => [r 7]) [] true (lit "x") in
  let ss := Session None None false [] None (Queue.mk 2 [r 4]) (Deque.mk 2 []) []
              None [] 0 [] in
  exists ss1 ss2 ss3,
    start_reader w ss = Ret ss1
    /\ pump_queue_into_buffers w ss1
       = Ret (ss2, [retime (float_of_Z 1) (r 4); retime (float_of_Z 2) (r 7)])
    /\ stop_reader_and_save w ss2 = Ret ss3.
Proof.
  intros r w ss.
  destruct (stream_run_saves_what_was_pumped w ss) as (ss1 & ss2 & ss3 & H1 & H2 & H3 & _).
  - reflexivity.
  - split; unfold len; cbn; lia.
  - exists ss1, ss2, ss3. split; [exact H1|]. split; [|exact H3].
    rewrite H2. vm_compute. reflexivity.
Defined.

End StreamRun.

(** ** The pump of the USB live dashboard *)

Section UsbLivePump.
Import Py.
Import xiao_usb_live.

Lemma last_bytes_short (n : Z) (b : bytes) : len b <= n -> last_bytes n b = b.
Proof.
  intros H. unfold last_bytes. replace (Z.to_nat (len b - n)) with 0%nat by lia.
  reflexivity.
Qed.

Lemma last_bytes_app (n : Z) (a b : bytes) :
  0 <= n -> last_bytes n (last_bytes n a ++ b) = last_bytes n (a ++ b).
Proof.
  intros Hn. unfold last_bytes, len.
  rewrite <- (drop_app_le a b) by lia. rewrite drop_drop. f_equal.
  rewrite length_drop, !length_app. lia.
Qed.

Lemma last_bytes_length (n : Z) (b : bytes) : 0 <= n -> len (last_bytes n b) <= n.
Proof.
  intros Hn. unfold last_bytes, len. rewrite length_drop. lia.
Qed.

Lemma drain_raw_spec w (chunks : list bytes) : forall fuel ss,
  Queue.items (q_raw ss) = chunks -> (length chunks < fuel)%nat ->
  exists ss',
    drain_raw fuel w ss = Ret ss'
    /\ bytes_total ss' = bytes_total ss + len (concat chunks)
    /\ raw_tail ss'
       = match chunks with
         | [] => raw_tail ss
         | _ => last_bytes RAW_TAIL_BYTES (raw_tail ss ++ concat chunks)
         end
    /\ Queue.items (q_raw ss') = []
    /\ reads ss' = (reads ss + length chunks)%nat
    /\ (parsed ss', lines_total ss', q_parsed ss', logging ss', log_rows ss')
       = (parsed ss, lines_total ss, q_parsed ss, logging ss, log_rows ss).
Proof.
  induction chunks as [|ch chunks IH]; intros [|fuel] ss Hq Hfuel;
    cbn [length] in Hfuel; try lia; cbn [drain_raw];
    unfold next_raw, Queue.get_nowait; rewrite Hq; cbn [bind try_except].
  - exists ss. cbn. unfold len. cbn. rewrite Z.add_0_r, Nat.add_0_r. repeat split. exact Hq.
  - set (tail1 := if RAW_TAIL_BYTES <? len (raw_tail ss ++ ch) then _ else _).
    assert (Htail : tail1 = last_bytes RAW_TAIL_BYTES (raw_tail ss ++ ch)).
    { subst tail1. destruct (Z.ltb_spec RAW_TAIL_BYTES (len (raw_tail ss ++ ch)));
        [reflexivity|]. symmetry. apply last_bytes_short. assumption. }
    match goal with
    | |- exists _, drain_raw fuel w ?s = _ /\ _ =>
        destruct (IH fuel s) as (ss' & Hrun & Hb & Ht & Hqr & Hr & Hsame)
    end; [reflexivity | lia |].
    exists ss'. split; [exact Hrun|].
    cbn [bytes_total raw_tail reads parsed lines_total q_parsed logging log_rows]
      in Hb, Ht, Hr, Hsame.
    split; [|split; [|split; [exact Hqr | split; [cbn [length]; lia | exact Hsame]]]].
    + rewrite Hb. unfold len. cbn [concat]. rewrite length_app. lia.
    + rewrite Ht, Htail. cbn [concat]. destruct chunks as [|ch' chunks'].
      * cbn [concat]. rewrite app_nil_r. reflexivity.
      * rewrite last_bytes_app by (unfold RAW_TAIL_BYTES; lia).
        rewrite <- app_assoc. reflexivity.
Qed.

Lemma drain_parsed_spec w (rows : list row) : forall fuel ss,
  Queue.items (q_parsed ss) = rows -> (length rows < fuel)%nat ->
  exists ss',
    drain_parsed fuel w ss = Ret ss'
    /\ lines_total ss' = lines_total ss + len rows
    /\ parsed ss' = foldl Deque.append (parsed ss) rows
    /\ log_rows ss' = (if logging ss then log_rows ss ++ rows else log_rows ss)
    /\ Queue.items (q_parsed ss') = []
    /\ reads ss' = (reads ss + length rows)%nat
    /\ (bytes_total ss', raw_tail ss', q_raw ss', logging ss')
       = (bytes_total ss, raw_tail ss, q_raw ss, logging ss).
Proof.
  induction rows as [|r rows IH]; intros [|fuel] ss Hq Hfuel;
    cbn [length] in Hfuel; try lia; cbn [drain_parsed];
    unfold next_row, Queue.get_nowait; rewrite Hq; cbn [bind try_except].
  - exists ss. cbn. unfold len. cbn. rewrite Z.add_0_r, Nat.add_0_r.
    split; [reflexivity|]. split; [reflexivity|]. split; [reflexivity|].
    split; [destruct (logging ss); [rewrite app_nil_r|]; reflexivity|].
    split; [exact Hq|]. split; reflexivity.
  - match goal with
    | |- exists _, drain_parsed fuel w ?s = _ /\ _ =>
        destruct (IH fuel s) as (ss' & Hrun & Hl & Hp & Hlog & Hqp & Hr & Hsame)
    end; [reflexivity | lia |].
    exists ss'. split; [exact Hrun|].
    cbn [lines_total parsed log_rows logging reads bytes_total raw_tail q_raw]
      in Hl, Hp, Hlog, Hr, Hsame.
    split; [|split; [exact Hp | split; [|split; [exact Hqp | split; [cbn [length]; lia | exact Hsame]]]]].
    + rewrite Hl. unfold len. cbn [length]. lia.
    + rewrite Hlog. destruct (logging ss); [rewrite <- app_assoc|]; reflexivity.
Qed.

End UsbLivePump.

(** ** The charts of the BLE dashboard *)

Section BleCharts.
Import Py.
Import xiao_imu_ble_final.

Lemma getslice_tail {A} (l : list A) (n : nat) :
  (n <= length l)%nat -> getslice l (Z.of_nat n) (len l) = drop n l.
Proof.
  intros Hn. unfold getslice, slice_index, slice, len.
  replace (Z.of_nat n <? 0) with false by (symmetry; apply Z.ltb_ge; lia).
  replace (Z.of_nat (length l) <? 0) with false by (symmetry; apply Z.ltb_ge; lia).
  rewrite Z.min_l, Z.min_l by lia. rewrite Nat2Z.id.
  apply take_ge. rewrite length_drop. lia.
Qed.

(** X16: the charts follow the ring, not the accumulator.  With both charts
    drawn and [plotted_n] equal to the length of the ring, a pump followed by
    the chart block hands to the charts the rows the pump appended as far as
    the ring had room for them: the last [maxlen - len(ring)] at most, in
    order.  Once the ring is full the charts receive nothing more, whatever
    the pump appends, while the accumulator keeps growing. *)
Theorem charts_follow_ring (w : world) (repeat : Z) (ss : session)
    (ch : charts) (acc gyro : chart) :
  acc_chart ch = Some acc ->
  gyro_chart ch = Some gyro ->
  plotted_n ss = len (Deque.items (data ss)) ->
  (length (Deque.items (data ss)) <= Deque.maxlen (data ss))%nat ->
  exists ss1 new,
    pump_queue_into_buffers w repeat ss = Ret (ss1, len new)
    /\ all_rows ss1 = all_rows ss ++ new
    /\ (let shown := drop (length (Deque.items (data ss)) + length new
                           - Deque.maxlen (data ss)) new in
        update_charts None None (ch, ss1)
        = match shown with
          | [] => (ch, ss1)
          | _ => (Charts (Some (acc ++ map acc_view shown))
                         (Some (gyro ++ map gyro_view shown)),
                  set_plotted_n ss1 (len (Deque.items (data ss1))))
          end)
    /\ (length (Deque.items (data ss)) = Deque.maxlen (data ss) ->
        forall acc_err gyro_err, update_charts acc_err gyro_err (ch, ss1) = (ch, ss1)).
Proof.
  intros Hacc Hgyro Hplot Hroom. unfold pump_queue_into_buffers.
  destruct (pump_passes_full w (Z.to_nat (Z.max 1 repeat)) ss 0)
    as (ss1 & new & k & Hrun & Hrows & Hdata & Hctl & _).
  exists ss1, new. rewrite Hrun, Z.add_0_l. split; [reflexivity|]. split; [exact Hrows|].
  rewrite (deque_append_all new (data ss) Hroom) in Hdata.
  unfold controls in Hctl. injection Hctl as _ _ _ _ _ Hp _ _.
  set (old := Deque.items (data ss)) in *. set (m := Deque.maxlen (data ss)) in *.
  assert (Hitems : Deque.items (data ss1) = drop (length old + length new - m) (old ++ new)).
  { rewrite Hdata, length_app. reflexivity. }
  assert (Hlen1 : length (Deque.items (data ss1)) = Nat.min m (length old + length new)).
  { rewrite Hitems, length_drop, length_app. lia. }
  assert (Hslice : getslice (Deque.items (data ss1)) (plotted_n ss1)
                            (len (Deque.items (data ss1)))
                   = drop (length old + length new - m) new).
  { rewrite Hp, Hplot. unfold len at 1. rewrite getslice_tail by lia.
    rewrite Hitems, drop_drop.
    replace (length old + length new - m + length old)%nat
      with (length old + (length old + length new - m))%nat by lia.
    rewrite drop_app_add'; reflexivity. }
  assert (Hupd : forall acc_err gyro_err,
             update_charts acc_err gyro_err (ch, ss1)
             = if plotted_n ss1 <? len (Deque.items (data ss1))
               then let '(ch', ss') :=
                      add_rows acc_err gyro_err
                        (drop (length old + length new - m) new) acc ch ss1 in
                    (ch', set_plotted_n ss' (len (Deque.items (data ss1))))
               else (ch, ss1)).
  { intros acc_err gyro_err. unfold update_charts. cbn [fst snd]. rewrite Hacc.
    rewrite Hacc. rewrite Hslice. reflexivity. }
  split.
  - cbv zeta. rewrite Hupd, Hp, Hplot. unfold len. rewrite Hlen1.
    destruct (drop (length old + length new - m) new) as [|r shown] eqn:Hshown.
    + assert (Hl : length (drop (length old + length new - m) new) = 0%nat)
        by (rewrite Hshown; reflexivity).
      rewrite length_drop in Hl.
      replace (Z.of_nat (length old) <? Z.of_nat (Nat.min m (length old + length new)))
        with false by (symmetry; apply Z.ltb_ge; lia).
      reflexivity.
    + assert (Hl : length (drop (length old + length new - m) new) = S (length shown))
        by (rewrite Hshown; reflexivity).
      rewrite length_drop in Hl.
      replace (Z.of_nat (length old) <? Z.of_nat (Nat.min m (length old + length new)))
        with true by (symmetry; apply Z.ltb_lt; lia).
      unfold add_rows. cbn [gyro_chart acc_chart]. rewrite Hgyro. reflexivity.
  - intros Hfull acc_err gyro_err. rewrite Hupd, Hp, Hplot. unfold len. rewrite Hlen1.
    replace (Z.of_nat (length old) <? Z.of_nat (Nat.min m (length old + length new)))
      with false by (symmetry; apply Z.ltb_ge; lia).
    reflexivity.
Qed.

Lemma charts_follow_ring_witness :
  let r := fun n => Row (float_of_Z n) fzero fzero fzero fzero fzero fzero in
  let w := World (fun n => float_of_Z (Z.of_nat n)) (fun _ => []) [] true [] true in
  let ss := Session (Some true) (Some false) true [] None (Queue.mk 20000 [r 4; r 5])
              (Deque.mk 2 [r 2; r 3]) [r 1; r 2; r 3] 2 None [] 0 [] in
  let ch := Charts (Some [acc_view (r 3)]) (Some [gyro_view (r 3)]) in
  exists ss1 new,
    pump_queue_into_buffers w 3 ss = Ret (ss1, len new)
    /\ all_rows ss1 = all_rows ss ++ new
    /\ update_charts None None (ch, ss1) = (ch, ss1).
Proof.
  intros r w ss ch.
  destruct (charts_follow_ring w 3 ss ch [acc_view (r 3)] [gyro_view (r 3)])
    as (ss1 & new & H1 & H2 & _ & H4); try reflexivity.
  exists ss1, new. split; [exact H1|]. split; [exact H2|]. apply H4. reflexivity.
Defined.

End BleCharts.

(** ** Decoding: whitespace and broken characters *)

Section Whitespace.
Import Py.
Variable sp : N -> bool.

Lemma lstrip_pad_l (ws l : str) :
  Forall (fun c => sp c = true) ws -> lstrip_with sp (ws ++ l) = lstrip_with sp l.
Proof.
  induction 1 as [|c ws Hc _ IH]; [reflexivity|].
  cbn [app lstrip_with]. rewrite Hc. exact IH.
Qed.

Lemma lstrip_pad_r (l ws : str) :
  Forall (fun c => sp c = true) ws ->
  lstrip_with sp (l ++ ws)
  = match lstrip_with sp l with [] => [] | s => s ++ ws end.
Proof.
  intros Hws. induction l as [|c l IH]; cbn [app lstrip_with].
  - rewrite <- (app_nil_r ws), lstrip_pad_l by assumption. reflexivity.
  - destruct (sp c); [exact IH | reflexivity].
Qed.

Lemma rstrip_pad_r (l ws : str) :
  Forall (fun c => sp c = true) ws -> rstrip_with sp (l ++ ws) = rstrip_with sp l.
Proof.
  intros Hws. unfold rstrip_with. rewrite reverse_app, lstrip_pad_l; [reflexivity|].
  apply Forall_reverse. exact Hws.
Qed.

End Whitespace.

Lemma strip_pad (ws1 line ws2 : Py.str) :
  Forall (fun c => Py.isspace c = true) ws1 ->
  Forall (fun c => Py.isspace c = true) ws2 ->
  Py.strip (ws1 ++ line ++ ws2) = Py.strip line.
Proof.
  intros H1 H2. unfold Py.strip.
  rewrite lstrip_pad_l by assumption. rewrite lstrip_pad_r by assumption.
  destruct (Py.lstrip_with Py.isspace line) as [|c s] eqn:E; [reflexivity|].
  apply rstrip_pad_r. assumption.
Qed.

(** X17: none of the five record decoders sees whitespace around a line:
    padding a line on either side with characters that [str.strip] removes
    (blanks, tabs, a CR left by a CRLF ending, ...) changes neither whether
    the line is accepted nor the values decoded. *)
Theorem decoders_ignore_outer_whitespace (ws1 line ws2 : Py.str) :
  Forall (fun c => Py.isspace c = true) ws1 ->
  Forall (fun c => Py.isspace c = true) ws2 ->
  xiao_imu_ble_final.parse_csv_line (ws1 ++ line ++ ws2)
  = xiao_imu_ble_final.parse_csv_line line
  /\ xiao_imu_stream.parse_line (ws1 ++ line ++ ws2) = xiao_imu_stream.parse_line line
  /\ xiao_usb_live.try_parse (ws1 ++ line ++ ws2) = xiao_usb_live.try_parse line
  /\ xiao_usb.try_parse (ws1 ++ line ++ ws2) = xiao_usb.try_parse line
  /\ Test_BLE_Sense.parse_line (ws1 ++ line ++ ws2) = Test_BLE_Sense.parse_line line.
Proof.
  intros H1 H2.
  unfold xiao_imu_ble_final.parse_csv_line, xiao_imu_stream.parse_line,
    xiao_usb_live.try_parse, xiao_usb.try_parse, Test_BLE_Sense.parse_line.
  rewrite !(strip_pad ws1 line ws2 H1 H2). repeat split.
Qed.

Lemma decoders_ignore_outer_whitespace_witness :
  xiao_usb.try_parse (Py.lit " " ++ Py.lit "1,2,3" ++ [0x0D%N])
  = xiao_usb.try_parse (Py.lit "1,2,3").
Proof.
  apply (decoders_ignore_outer_whitespace (Py.lit " ") (Py.lit "1,2,3") [0x0D%N]);
    repeat constructor.
Defined.

Section Utf8.
Import Py.

Lemma cont_ascii (c : N) : (c <? 0x80)%N = true -> cont c = false.
Proof.
  intros H. apply N.ltb_lt in H. unfold cont, between.
  apply andb_false_iff. left. apply N.leb_gt. lia.
Qed.

Lemma second_ok_ascii (b0 c : N) : (c <? 0x80)%N = true -> second_ok b0 c = false.
Proof.
  intros H. pose proof (cont_ascii c H) as Hc. apply N.ltb_lt in H.
  unfold second_ok, between.
  repeat match goal with |- context [if ?x then _ else _] => destruct x end;
    try exact Hc; apply andb_false_iff; left; apply N.leb_gt; lia.
Qed.

Lemma utf8_ignore_sync_upto (c : N) (b : list N) :
  (c <? 0x80)%N = true ->
  forall n a, (length a <= n)%nat ->
    utf8_ignore (a ++ c :: b) = utf8_ignore a ++ c :: utf8_ignore b.
Proof.
  intros Hc. pose proof (cont_ascii c Hc) as Hcont.
  assert (Hhead : utf8_ignore (c :: b) = c :: utf8_ignore b).
  { cbn [utf8_ignore]. rewrite Hc. reflexivity. }
  induction n as [|n IH]; intros a Hlen.
  - destruct a; [exact Hhead | cbn [length] in Hlen; lia].
  - destruct a as [|b0 t0]; [exact Hhead|]. cbn [length] in Hlen.
    change ((b0 :: t0) ++ c :: b) with (b0 :: (t0 ++ c :: b)).
    remember (t0 ++ c :: b) as T eqn:HT.
    cbn [utf8_ignore].
    assert (Hrec : forall a', (length a' <= length t0)%nat ->
                     utf8_ignore (a' ++ c :: b) = utf8_ignore a' ++ c :: utf8_ignore b)
      by (intros a' Ha'; apply IH; lia).
    clear IH.
    destruct (b0 <? 0x80)%N.
    { subst T. cbn [app]. f_equal. apply Hrec. lia. }
    destruct (between 0xC2 0xDF b0).
    { subst T. destruct t0 as [|b1 t1]; cbn [app length] in *.
      - rewrite Hcont. exact Hhead.
      - destruct (cont b1); cbn [app].
        + f_equal. apply Hrec. lia.
        + apply (Hrec (b1 :: t1)). cbn [length]. lia. }
    destruct (between 0xE0 0xEF b0).
    { subst T. destruct t0 as [|b1 t1]; cbn [app length] in *.
      - rewrite (second_ok_ascii b0 c Hc). exact Hhead.
      - destruct (second_ok b0 b1); [|apply (Hrec (b1 :: t1)); cbn [length]; lia].
        destruct t1 as [|b2 t2]; cbn [app length] in *.
        + rewrite Hcont. exact Hhead.
        + destruct (cont b2); cbn [app].
          * f_equal. apply Hrec. lia.
          * apply (Hrec (b2 :: t2)). cbn [length]. lia. }
    destruct (between 0xF0 0xF4 b0).
    { subst T. destruct t0 as [|b1 t1]; cbn [app length] in *.
      - rewrite (second_ok_ascii b0 c Hc). exact Hhead.
      - destruct (second_ok b0 b1); [|apply (Hrec (b1 :: t1)); cbn [length]; lia].
        destruct t1 as [|b2 t2]; cbn [app length] in *.
        + rewrite Hcont. exact Hhead.
        + destruct (cont b2); [|apply (Hrec (b2 :: t2)); cbn [length]; lia].
          destruct t2 as [|b3 t3]; cbn [app length] in *.
          * rewrite Hcont. exact Hhead.
          * destruct (cont b3); cbn [app].
            -- f_equal. apply Hrec. lia.
            -- apply (Hrec (b3 :: t3)). cbn [length]. lia. }
    subst T. apply Hrec. lia.
Qed.

Lemma utf8_ignore_ascii (a : list N) :
  Forall (fun c => (c <? 0x80)%N = true) a -> utf8_ignore a = a.
Proof.
  induction 1 as [|c a Hc _ IH]; [reflexivity|].
  cbn [utf8_ignore]. rewrite Hc, IH. reflexivity.
Qed.

End Utf8.

(** X18: a byte below 0x80, a CR or LF in particular, is a synchronisation
    point of the decoder: whatever surrounds it, also a multi-byte character
    cut short just before it, the byte is decoded as itself and the text
    before and after it is decoded as if each part stood alone.  So a line
    terminator is never swallowed by a malformed character and a line
    decodes the same alone as inside the stream; bytes that are all below
    0x80 decode to themselves. *)
Theorem decoding_keeps_ascii_bytes (a b : bytes) (t : byte) :
  (Byte.to_N t < 0x80)%N \/ Framer.is_term t = true ->
  Py.decode_ignore (a ++ t :: b)
  = Py.decode_ignore a ++ Byte.to_N t :: Py.decode_ignore b
  /\ (Forall (fun x => (Byte.to_N x < 0x80)%N) a ->
      Py.decode_ignore a = map Byte.to_N a).
Proof.
  intros Ht.
  assert (Hlow : (Byte.to_N t < 0x80)%N).
  { destruct Ht as [Ht|Ht]; [exact Ht|].
    unfold Framer.is_term, LF, CR in Ht. apply orb_true_iff in Ht as [H|H];
      apply Byte.byte_dec_bl in H; subst t; vm_compute; reflexivity. }
  split.
  - unfold Py.decode_ignore. rewrite map_app. cbn [map].
    apply (utf8_ignore_sync_upto _ _ (proj2 (N.ltb_lt _ _) Hlow)
             (length (map Byte.to_N a))).
    reflexivity.
  - intros Ha. unfold Py.decode_ignore. apply utf8_ignore_ascii.
    apply Forall_map. eapply Forall_impl; [exact Ha|].
    intros x Hx. apply N.ltb_lt. exact Hx.
Qed.

Lemma decoding_keeps_ascii_bytes_witness :
  Py.decode_ignore ([xe2; x82] ++ x0a :: [x41])%byte
  = Py.decode_ignore [xe2; x82]%byte ++ Byte.to_N x0a :: Py.decode_ignore [x41]%byte.
Proof.
  apply (decoding_keeps_ascii_bytes [xe2; x82]%byte [x41]%byte x0a).
  right. reflexivity.
Defined.

(** ** From the wire to the accumulator *)

Lemma runs_one_line (line : bytes) (t : byte) :
  Framer.term_free line -> Framer.is_term t = true ->
  Framer.runs [] (line ++ [t]) = ([line], []).
Proof.
  intros Hfree Hterm. rewrite (runs_free [] line [t] Hfree).
  cbn [Framer.runs app]. rewrite Hterm. reflexivity.
Qed.

Section WireToAccumulator.
Import Py.
Import xiao_imu_ble_final.

(** X19: a record line reaches the accumulator whole.  However the bytes of
    one terminated line are cut into notifications, once the last of them
    has come the reader has put exactly the decoded record on the (empty,
    not full) channel and its buffer is empty again; the next pump appends
    that record first to the accumulator, the sensor values as decoded and
    the first field set by the pump. *)
Theorem line_reaches_accumulator (chunks : list bytes) (line : bytes) (t : byte)
    (row : imu_row) (w : world) (repeat : Z) (ss : session) :
  concat chunks = line ++ [t] ->
  Framer.term_free line ->
  Framer.is_term t = true ->
  parse_csv_line (safe_decode line) = Ret (Some row) ->
  Queue.items (q_parsed ss) = [] ->
  Queue.full (q_parsed ss) = false ->
  let q' := Queue.mk (Queue.maxsize (q_parsed ss)) [row] in
  handle_notify_all chunks ([], q_parsed ss) = Ret ([], q')
  /\ exists ss' n more,
       pump_queue_into_buffers w repeat (set_q_parsed ss q') = Ret (ss', n)
       /\ 1 <= n
       /\ all_rows ss' = all_rows ss ++ retime (stamp w ss 0 row) row :: more.
Proof.
  intros Hwire Hfree Hterm Hparse Hempty Hroom q'.
  assert (Hline : line <> []).
  { intros ->. cbn in Hparse. discriminate Hparse. }
  split.
  - rewrite handle_notify_all_chunks.
    destruct (process_chunks_fold chunks [] (Forall_nil_2 _)) as (fs & rest & Hrun & Hfs & Hrest).
    rewrite Hrun. rewrite Hwire, (runs_one_line line t Hfree Hterm) in Hfs, Hrest.
    cbn [fst snd] in Hfs, Hrest. subst rest.
    rewrite (fold_lines_skip_empty on_line ble_on_line_empty), Hfs.
    destruct line as [|b line]; [contradiction|].
    rewrite filter_cons, decide_True by (cbn; tauto). rewrite filter_nil.
    cbn [Framer.fold_lines]. unfold on_line at 1. rewrite Hparse. cbn [bind].
    rewrite relay_put_spec, Hroom, Hempty. reflexivity.
  - unfold pump_queue_into_buffers.
    destruct (pump_passes_full w (Z.to_nat (Z.max 1 repeat)) (set_q_parsed ss q') 0)
      as (ss' & new & k & Hrun & Hrows & _ & _ & _ & _ & _ & Hfront).
    destruct Hfront as [more Hnew]; [lia|].
    exists ss', (0 + len new), more. split; [exact Hrun|].
    rewrite Hrows, Hnew. cbn. split; [|reflexivity].
    unfold len. cbn [length]. lia.
Qed.

Lemma line_reaches_accumulator_witness :
  let f := float_of_Z in
  let w := World (fun n => f (Z.of_nat n)) (fun _ => []) [] true [] true in
  handle_notify_all
    [["1"; ","; "2"; ","; "3"; ","]%byte; ["4"; ","; "5"; ","; "6"; ","; "7"; x0d]%byte]
    ([], q_parsed initial)
  = Ret ([], Queue.mk (Queue.maxsize (q_parsed initial))
                      [Row (f 1) (f 2) (f 3) (f 4) (f 5) (f 6) (f 7)]).
Proof.
  intros f w.
  apply (line_reaches_accumulator
           [["1"; ","; "2"; ","; "3"; ","]%byte; ["4"; ","; "5"; ","; "6"; ","; "7"; x0d]%byte]
           ["1"; ","; "2"; ","; "3"; ","; "4"; ","; "5"; ","; "6"; ","; "7"]%byte
           x0d (Row (f 1) (f 2) (f 3) (f 4) (f 5) (f 6) (f 7)) w 3 initial).
  - reflexivity.
  - repeat constructor.
  - reflexivity.
  - vm_compute. reflexivity.
  - reflexivity.
  - reflexivity.
Defined.

End WireToAccumulator.

(** ** The key:value shape *)

Section KeyValueFacts.
Import Py.

Lemma kv_loop_returns_none (toks : list str) : forall kv r,
  KeyValue.kv_loop toks kv = Ret (Return r) -> r = None.
Proof.
  induction toks as [|tok toks IH]; intros kv r H; cbn [KeyValue.kv_loop] in H;
    [discriminate|].
  unfold contains in H. destruct (bool_decide (chr ":" ∈ tok)) eqn:Hin; cbn [negb] in H;
    [|exact (IH _ _ H)].
  apply bool_decide_eq_true in Hin. destruct (split1_two _ _ Hin) as (k & v & Hkv).
  rewrite Hkv in H. cbn [unpack2 bind] in H.
  destruct (bool_decide (k ∈ KeyValue.EXPECTED_KEYS)); [|exact (IH _ _ H)].
  destruct (float_of_str_outcome v) as [[x Hx] | Hx]; rewrite Hx in H; cbn in H.
  - exact (IH _ _ H).
  - injection H as <-. reflexivity.
Qed.

Lemma key_value_shape_zero_time (s : str) (row : imu_row) :
  KeyValue.key_value_shape s = Ret (Return (Some row)) -> r_t row = fzero.
Proof.
  unfold KeyValue.key_value_shape. intros H.
  destruct (KeyValue.kv_loop (split_ws s) ∅) as [[kv|r]| |] eqn:Hloop;
    cbn [bind] in H; try discriminate.
  - destruct (KeyValue.all_keys_present kv); [|discriminate].
    unfold dict_get in H.
    repeat match type of H with
           | context [kv !! ?k] => destruct (kv !! k); cbn [bind] in H; try discriminate
           end.
    injection H as <-. reflexivity.
  - apply kv_loop_returns_none in Hloop. subst r. discriminate.
Qed.

Lemma split_ws_from_tokens (c : N) (s : str) : forall cur,
  c ∉ cur -> c ∉ s -> Forall (fun tok => c ∉ tok) (split_ws_from cur s).
Proof.
  induction s as [|x s IH]; intros cur Hcur Hs; cbn [split_ws_from].
  - destruct cur; repeat constructor. assumption.
  - apply not_elem_of_cons in Hs as [Hx Hs].
    destruct (isspace x).
    + destruct cur; [|constructor; [assumption|]]; apply IH; try assumption;
        intros H; inversion H.
    + apply IH; [|assumption]. intros H. apply elem_of_app in H as [H|H]; [tauto|].
      apply list_elem_of_singleton in H. congruence.
Qed.

Lemma kv_loop_no_colon (toks : list str) (kv : gmap str float) :
  Forall (fun tok => chr ":" ∉ tok) toks ->
  KeyValue.kv_loop toks kv = Ret (Continue kv).
Proof.
  induction 1 as [|tok toks Htok _ IH]; cbn [KeyValue.kv_loop]; [reflexivity|].
  unfold contains. rewrite (bool_decide_eq_false_2 _ Htok). exact IH.
Qed.

(** X20: the key:value shape in the two IMU dashboards.  On a line that
    holds a colon and does not start with "#", the decoder of the serial
    dashboard and the decoder of the BLE dashboard return the same result;
    a line without a colon, a CSV line in particular, is always rejected by
    the serial dashboard; and a record decoded from the key:value shape
    carries no device time: its first field is 0.0. *)
Theorem imu_key_value_decoders (line : str) :
  (contains (chr ":") (strip line) = true ->
   startswith (strip line) (lit "#") = false ->
   xiao_imu_stream.parse_line line = xiao_imu_ble_final.parse_csv_line line)
  /\ (contains (chr ":") (strip line) = false ->
      xiao_imu_stream.parse_line line = Ret None)
  /\ (forall row, xiao_imu_stream.parse_line line = Ret (Some row) -> r_t row = fzero)
  /\ (forall row, contains (chr ":") (strip line) = true ->
                  xiao_imu_ble_final.parse_csv_line line = Ret (Some row) ->
                  r_t row = fzero).
Proof.
  unfold xiao_imu_stream.parse_line, xiao_imu_ble_final.parse_csv_line,
    xiao_imu_ble_final.csv_shape.
  set (s := strip line). repeat apply conj.
  - intros Hcolon Hhash. rewrite Hcolon, Hhash, orb_false_r, andb_false_r. cbn [bind].
    reflexivity.
  - intros Hcolon. destruct (_ || _); [reflexivity|].
    unfold KeyValue.key_value_shape, split_ws.
    rewrite kv_loop_no_colon.
    + cbn [bind]. reflexivity.
    + apply bool_decide_eq_false in Hcolon.
      apply split_ws_from_tokens; [intros H; inversion H | exact Hcolon].
  - intros row H. destruct (_ || _); [discriminate|].
    destruct (KeyValue.key_value_shape s) as [[[]|r]| |] eqn:Hkv; cbn [bind] in H;
      try discriminate.
    injection H as ->. exact (key_value_shape_zero_time s row Hkv).
  - intros row Hcolon H. rewrite Hcolon, andb_false_r in H.
    destruct (_ || _); [discriminate|]. cbn [bind] in H.
    destruct (KeyValue.key_value_shape s) as [[[]|r]| |] eqn:Hkv; cbn [bind] in H;
      try discriminate.
    injection H as ->. exact (key_value_shape_zero_time s row Hkv).
Qed.

End KeyValueFacts.

(** ** The USB live dashboard: from the port to the counters *)

Section UsbLiveReader.
Import Py.
Import xiao_usb_live.

Lemma usb_live_on_chunk_total chunk buf (q : Queue.t row) (qr : Queue.t bytes) :
  exists buf' q' qr',
    on_chunk chunk (buf, q, qr) = Ret (buf', q', qr')
    /\ relay_put qr chunk = Ret qr'
    /\ Framer.term_free buf'.
Proof.
  unfold on_chunk. rewrite relay_put_spec. cbn [bind].
  destruct (split_lines_fold (buf ++ chunk)) as (fs & rest & Hrun & _ & _ & _ & Hfree).
  unfold Framer.loop_fuel. rewrite Hrun by lia.
  destruct (fold_lines_total on_line usb_live_on_line_total fs q) as [q' ->].
  cbn [bind fst snd]. exists rest, q'. eexists. repeat split. exact Hfree.
Qed.

Lemma reader_loop_spec (chunks : list bytes) : forall buf (q : Queue.t row) (qr : Queue.t bytes),
  exists buf' q' qr',
    reader_loop chunks (buf, q, qr) = Ret (buf', q', qr')
    /\ relay_put_all qr (filter Framer.nonempty chunks) = Ret qr'.
Proof.
  induction chunks as [|chunk chunks IH]; intros buf q qr; cbn [reader_loop].
  - exists buf, q, qr. split; reflexivity.
  - rewrite filter_cons. destruct chunk as [|b chunk]; cbn [Framer.nonempty].
    + rewrite decide_False by (cbn; tauto). cbn [bind]. apply IH.
    + rewrite decide_True by (cbn; tauto).
      destruct (usb_live_on_chunk_total (b :: chunk) buf q qr)
        as (buf1 & q1 & qr1 & -> & Hraw & _).
      cbn [bind relay_put_all]. rewrite Hraw. cbn [bind]. apply IH.
Qed.

(** X21: the byte counter of the USB live dashboard counts what the port
    delivered.  When the raw channel has room for the chunks read (empty
    reads are skipped and take no room), the reader loop followed by
    [pump_queues] adds to [bytes_total] exactly the number of bytes read,
    on top of those still waiting in the channel, and adds to [lines_total]
    the number of rows in the parsed channel. *)
Theorem usb_live_counts_bytes_read (w : world) (ss : session) (chunks : list bytes)
    (buf : bytes) :
  0 < Queue.maxsize (q_raw ss) ->
  len (Queue.items (q_raw ss)) + len (filter Framer.nonempty chunks)
  <= Queue.maxsize (q_raw ss) ->
  exists buf' q' qr' ss',
    reader_loop chunks (buf, q_parsed ss, q_raw ss) = Ret (buf', q', qr')
    /\ pump_queues w (with_channels ss q' qr') = Ret ss'
    /\ bytes_total ss'
       = bytes_total ss + len (concat (Queue.items (q_raw ss))) + len (concat chunks)
    /\ lines_total ss' = lines_total ss + len (Queue.items q')
    /\ Queue.items (q_raw ss') = [] /\ Queue.items (q_parsed ss') = [].
Proof.
  intros Hmax Hroom.
  destruct (reader_loop_spec chunks buf (q_parsed ss) (q_raw ss))
    as (buf' & q' & qr' & Hloop & Hraw).
  rewrite relay_put_all_spec in Hraw by (unfold len in *; lia).
  rewrite take_ge in Hraw by (unfold len in *; rewrite length_app; lia).
  injection Hraw as <-.
  set (qr' := Queue.mk (Queue.maxsize (q_raw ss)) _) in *.
  unfold pump_queues.
  destruct (drain_raw_spec w (Queue.items qr') (S (length (Queue.items qr')))
              (with_channels ss q' qr') eq_refl (Nat.lt_succ_diag_r _))
    as (ss1 & Hr1 & Hb & _ & Hqr & _ & Hsame).
  injection Hsame as _ Hl Hq _ _.
  destruct (drain_parsed_spec w (Queue.items q')
              (S (length (Queue.items (q_parsed ss1)))) ss1)
    as (ss2 & Hr2 & Hl2 & _ & _ & Hqp2 & _ & Hsame2).
  { rewrite Hq. reflexivity. }
  { rewrite Hq. apply Nat.lt_succ_diag_r. }
  injection Hsame2 as Hb2 _ Hqr2 _.
  exists buf', q', qr', ss2. split; [exact Hloop|].
  split; [cbn [q_raw with_channels] in *; rewrite Hr1; cbn [bind]; exact Hr2|].
  repeat apply conj.
  - rewrite Hb2, Hb. cbn [bytes_total with_channels]. subst qr'. cbn [Queue.items].
    rewrite concat_app, concat_nonempty. unfold len. rewrite length_app. lia.
  - rewrite Hl2, Hl. reflexivity.
  - rewrite Hqr2. exact Hqr.
  - exact Hqp2.
Qed.

Lemma usb_live_counts_bytes_read_witness :
  let w := World (fun n => float_of_Z (Z.of_nat n)) (fun _ => []) (fun _ => []) [] true in
  let ss := Session (Some true) (Some false) true (Deque.mk 5000 []) [] 0 0 fzero []
              (Queue.mk 10000 []) (Queue.mk 10000 []) false [] 0 [] in
  exists buf' q' qr' ss',
    reader_loop [["1"; ","]%byte; []; ["2"; x0a]%byte] ([], q_parsed ss, q_raw ss)
    = Ret (buf', q', qr')
    /\ pump_queues w (with_channels ss q' qr') = Ret ss'
    /\ bytes_total ss' = 4.
Proof.
  intros w ss.
  destruct (usb_live_counts_bytes_read w ss [["1"; ","]%byte; []; ["2"; x0a]%byte] [])
    as (buf' & q' & qr' & ss' & H1 & H2 & H3 & _).
  - reflexivity.
  - vm_compute. discriminate.
  - exists buf', q', qr', ss'. split; [exact H1|]. split; [exact H2|].
    rewrite H3. reflexivity.
Defined.

End UsbLiveReader.

(** ** Start: what the accumulator holds afterwards *)

Lemma relay_put_all_from {A} (xs : list A) : forall (q q' : Queue.t A),
  relay_put_all q xs = Ret q' ->
  forall x, x ∈ Queue.items q' -> x ∈ Queue.items q ++ xs.
Proof.
  induction xs as [|y xs IH]; intros q q' H x Hx; cbn [relay_put_all] in H.
  - injection H as <-. rewrite app_nil_r. exact Hx.
  - rewrite relay_put_spec in H. cbn [bind] in H. specialize (IH _ _ H x Hx).
    destruct (Queue.full q); cbn [Queue.items] in IH.
    + apply elem_of_app in IH as [IH|IH]; apply elem_of_app; [left | right; right];
        exact IH.
    + rewrite <- app_assoc in IH. exact IH.
Qed.

Section BleStartFacts.
Import Py.
Import xiao_imu_ble_final.

Lemma restamped_mono (a b : list imu_row) (r : imu_row) :
  (forall x, x ∈ a -> x ∈ b) -> restamped a r -> restamped b r.
Proof. intros Hab (src & Hsrc & Hr). exists src. split; [apply Hab; exact Hsrc | exact Hr]. Qed.

Lemma stamped_restamped (f : nat -> imu_row -> float) (rows : list imu_row) :
  Forall (restamped rows) (imap (fun i row => retime (f i row) row) rows).
Proof.
  apply Forall_forall. intros r Hr.
  apply elem_of_lookup_imap in Hr as (i & row & -> & Hrow).
  exists row. split; [exact (list_elem_of_lookup_2 _ _ _ Hrow) | reflexivity].
Qed.

Lemma offered_during_S w from k :
  offered_during w from (S k) = produced w from ++ offered_during w (S from) k.
Proof. reflexivity. Qed.

Lemma sleep_channel w d ss ss' :
  sleep w d ss = Ret ss' ->
  slept ss' = slept ss ++ [d]
  /\ all_rows ss' = all_rows ss
  /\ forall x, x ∈ Queue.items (q_parsed ss') ->
               x ∈ Queue.items (q_parsed ss) ++ produced w (length (slept ss)).
Proof.
  unfold sleep. intros H.
  destruct (relay_put_all (q_parsed ss) (produced w (length (slept ss)))) as [q| |] eqn:Hq;
    cbn [bind] in H; try discriminate.
  injection H as <-. cbn. repeat split. exact (relay_put_all_from _ _ _ Hq).
Qed.

Lemma absorb_all_channel w (rows : list imu_row) : forall ss,
  Queue.items (q_parsed (foldl (absorb w) ss rows))
  = drop (length rows) (Queue.items (q_parsed ss)).
Proof.
  induction rows as [|row rows IH]; intros ss; cbn [foldl length]; [reflexivity|].
  rewrite IH. destruct (absorb_frame w row ss) as (_ & _ & ->). cbn [Queue.items].
  destruct (Queue.items (q_parsed ss)); cbn [tail]; [rewrite !drop_nil|]; reflexivity.
Qed.

(** The rows a pump appends come from the channel: from what it held at
    the call and from what the thread offered during the pump's sleeps. *)
Lemma pump_passes_origin w (passes : nat) : forall ss total ss' n,
  pump_passes passes w ss total = Ret (ss', n) ->
  exists m new,
    length (slept ss') = (length (slept ss) + m)%nat
    /\ all_rows ss' = all_rows ss ++ new
    /\ Forall (restamped (Queue.items (q_parsed ss)
                          ++ offered_during w (length (slept ss)) m)) new.
Proof.
  induction passes as [|passes IH]; intros ss total ss' n H; cbn [pump_passes] in H.
  - injection H as <- _. exists 0%nat, []. rewrite Nat.add_0_r, app_nil_r.
    repeat split. constructor.
  - rewrite (drain_spec w (Queue.items (q_parsed ss))) in H by (reflexivity || lia).
    cbn [bind] in H.
    destruct (absorb_all w (Queue.items (q_parsed ss)) ss) as (Hrows & _ & _).
    destruct (absorb_all_frame w (Queue.items (q_parsed ss)) ss) as (_ & Hsl).
    pose proof (absorb_all_channel w (Queue.items (q_parsed ss)) ss) as Hq.
    rewrite drop_all in Hq. cbv zeta in Hrows.
    pose proof (stamped_restamped (stamp w ss) (Queue.items (q_parsed ss))) as Hst.
    set (stamped := imap _ _) in Hrows, Hst.
    set (ss1 := foldl _ _ _) in *.
    destruct (0 + len (Queue.items (q_parsed ss)) =? 0).
    + injection H as <- _. exists 0%nat, stamped. rewrite Hsl, Nat.add_0_r.
      split; [reflexivity|]. split; [exact Hrows|].
      eapply Forall_impl; [exact Hst|]. intros r. apply restamped_mono.
      intros x Hx. apply elem_of_app. left. exact Hx.
    + destruct (sleep w f_0_01 ss1) as [ss2| |] eqn:Hsleep; cbn [bind] in H;
        try discriminate.
      apply sleep_channel in Hsleep as (Hs2 & Hr2 & Hq2).
      destruct (IH _ _ _ _ H) as (m & new & Hlen & Hall & Horigin).
      exists (S m), (stamped ++ new).
      rewrite Hs2, length_app, Hsl in Hlen. cbn [length] in Hlen.
      split; [lia|]. split; [rewrite Hall, Hr2, Hrows, <- app_assoc; reflexivity|].
      apply Forall_app. split.
      * eapply Forall_impl; [exact Hst|]. intros r. apply restamped_mono.
        intros x Hx. apply elem_of_app. left. exact Hx.
      * eapply Forall_impl; [exact Horigin|]. intros r. apply restamped_mono.
        intros x Hx. rewrite Hs2, length_app, Hsl in Hx. cbn [length] in Hx.
        replace (length (slept ss) + 1)%nat with (S (length (slept ss))) in Hx by lia.
        rewrite offered_during_S. apply elem_of_app. right.
        apply elem_of_app in Hx as [Hx|Hx].
        -- apply Hq2 in Hx. rewrite Hq, Hsl in Hx. cbn [app] in Hx.
           apply elem_of_app. left. exact Hx.
        -- apply elem_of_app. right. exact Hx.
Qed.

Lemma fast_start_wait_channel w d : forall fuel ss ss',
  fast_start_wait fuel w d ss = Ret ss' ->
  exists m,
    length (slept ss') = (length (slept ss) + m)%nat
    /\ forall x, x ∈ Queue.items (q_parsed ss') ->
                 x ∈ Queue.items (q_parsed ss) ++ offered_during w (length (slept ss)) m.
Proof.
  induction fuel as [|fuel IH]; intros ss ss' H; cbn [fast_start_wait] in H;
    [discriminate|].
  unfold now in H. cbv zeta in H.
  assert (Hhere : exists m,
             length (slept ss) = (length (slept ss) + m)%nat
             /\ forall x, x ∈ Queue.items (q_parsed ss) ->
                          x ∈ Queue.items (q_parsed ss)
                              ++ offered_during w (length (slept ss)) m).
  { exists 0%nat. split; [lia|]. intros x Hx. apply elem_of_app. left. exact Hx. }
  destruct (flt _ d).
  - cbn [q_parsed] in H. destruct (negb (Queue.empty (q_parsed ss))).
    + injection H as <-. exact Hhere.
    + match type of H with
      | (bind (sleep w f_0_02 ?s) _) = _ =>
          destruct (sleep w f_0_02 s) as [ss2| |] eqn:Hsleep
      end; cbn [bind] in H; try discriminate.
      apply sleep_channel in Hsleep as (Hs2 & _ & Hq2). cbn [slept q_parsed] in Hs2, Hq2.
      destruct (IH _ _ H) as (m & Hlen & Hsub).
      exists (S m). rewrite Hs2, length_app in Hlen, Hsub. cbn [length] in Hlen, Hsub.
      split; [lia|]. intros x Hx. apply Hsub in Hx.
      replace (length (slept ss) + 1)%nat with (S (length (slept ss))) in Hx by lia.
      rewrite offered_during_S. apply elem_of_app in Hx as [Hx|Hx].
      * apply Hq2 in Hx. rewrite app_assoc. apply elem_of_app. left. exact Hx.
      * apply elem_of_app. right. apply elem_of_app. right. exact Hx.
  - injection H as <-. exact Hhere.
Qed.

Lemma start_reader_origin fuel w ss ss' :
  thread_alive ss = false ->
  start_reader fuel w ss = Ret ss' ->
  exists m,
    length (slept ss') = (length (slept ss) + m)%nat
    /\ Forall (restamped (Queue.items (q_parsed ss)
                          ++ offered_during w (length (slept ss)) m)) (all_rows ss').
Proof.
  intros Halive H. unfold start_reader in H. rewrite Halive in H.
  match type of H with
  | context [sleep w f_0_5 ?s] => destruct (sleep w f_0_5 s) as [ss1| |] eqn:Hsleep
  end; cbn [bind] in H; try discriminate.
  apply sleep_channel in Hsleep as (Hs1 & Hr1 & Hq1).
  unfold reset_for_start in Hs1, Hr1, Hq1. cbn [slept all_rows q_parsed] in Hs1, Hr1, Hq1.
  unfold now in H. cbv zeta in H.
  match type of H with
  | context [fast_start_wait fuel w ?d ?s] =>
      destruct (fast_start_wait fuel w d s) as [ss2| |] eqn:Hwait
  end; cbn [bind] in H; try discriminate.
  pose proof (fast_start_wait_frame _ _ _ _ _ Hwait) as (Hr2 & _).
  apply fast_start_wait_channel in Hwait as (m2 & Hs2 & Hq2).
  cbn [slept q_parsed all_rows] in Hs2, Hq2, Hr2.
  unfold pump_queue_into_buffers in H.
  destruct (pump_passes (Z.to_nat (Z.max 1 3)) w ss2 0) as [[ss3 n]| |] eqn:Hpump;
    cbn [bind fst] in H; try discriminate.
  injection H as <-.
  apply pump_passes_origin in Hpump as (m3 & new & Hs3 & Hr3 & Horigin).
  exists (1 + m2 + m3)%nat. rewrite Hs1, length_app in Hs2. cbn [length] in Hs2.
  split; [lia|]. rewrite Hr3, Hr2, Hr1. cbn [app].
  eapply Forall_impl; [exact Horigin|]. intros r. apply restamped_mono.
  intros x Hx. rewrite Hs2 in Hx.
  assert (Hsplit : offered_during w (length (slept ss)) (1 + m2 + m3)
                   = produced w (length (slept ss))
                     ++ offered_during w (S (length (slept ss))) m2
                     ++ offered_during w (length (slept ss) + 1 + m2) m3).
  { unfold offered_during.
    replace (1 + m2 + m3)%nat with (1 + (m2 + m3))%nat by lia.
    rewrite (seq_app 1 (m2 + m3)), (seq_app m2 m3), !map_app, !concat_app.
    cbn [seq map concat]. rewrite app_nil_r.
    replace (length (slept ss) + 1)%nat with (S (length (slept ss))) by lia.
    replace (S (length (slept ss)) + m2)%nat with (length (slept ss) + 1 + m2)%nat by lia.
    reflexivity. }
  rewrite Hsplit. rewrite Hs1, length_app in Hq2. cbn [length] in Hq2.
  replace (length (slept ss) + 1)%nat with (S (length (slept ss))) in Hq2 by lia.
  apply elem_of_app in Hx as [Hx|Hx].
  - apply Hq2 in Hx. apply elem_of_app in Hx as [Hx|Hx].
    + apply Hq1 in Hx. rewrite app_assoc. apply elem_of_app. left. exact Hx.
    + apply elem_of_app. right. apply elem_of_app. right.
      apply elem_of_app. left. exact Hx.
  - apply elem_of_app. right. apply elem_of_app. right. apply elem_of_app. right.
    exact Hx.
Qed.

(** X9: a Start request made while no reader thread is alive returns as
    soon as the clock passes the fast-start deadline (one second after the
    half-second pause), whatever the thread delivers meanwhile.  The session
    then has the clock reading taken at Start as its start time, a running
    thread, a fresh stop flag, the connection flag and the error text the
    thread left, no CSV; it has paused 0.5 s once, then 0.02 s per poll, then
    at most three times 0.01 s.  Nothing of the previous run is left in the
    accumulator: every row it holds is a row that was waiting in the channel
    or that the thread offered during those pauses, with its first field
    replaced; and the ring holds these rows only. *)
Theorem start_reader_returns_by_deadline fuel w ss (k : nat) :
  thread_alive ss = false ->
  (k < fuel)%nat ->
  flt (time_time w (reads ss + 2 + k))
      (fadd (time_time w (reads ss + 1)) FAST_START_WAIT_S) = false ->
  exists ss' naps pumps,
    start_reader fuel w ss = Ret ss'
    /\ controls ss'
       = (Some true, Some false, conn_flag w, err_holder w,
          Some (time_time w (reads ss)), 0, None, [])
    /\ slept ss'
       = slept ss ++ [f_0_5] ++ replicate naps f_0_02 ++ replicate pumps f_0_01
    /\ (pumps <= 3)%nat
    /\ Forall (restamped (Queue.items (q_parsed ss)
                          ++ offered_during w (length (slept ss)) (1 + naps + pumps)))
              (all_rows ss')
    /\ data ss' = foldl Deque.append (Deque.clear (data ss)) (all_rows ss').
Proof.
  intros Halive Hfuel Hclock.
  destruct (start_reader_returns fuel w ss k Halive Hfuel Hclock) as [ss' Hrun].
  destruct (start_reader_spec fuel w ss ss' Halive Hrun)
    as (new & naps & pumps & Hr & Hd & Hc & Hs & Hk).
  destruct (start_reader_origin fuel w ss ss' Halive Hrun) as (m & Hlen & Horigin).
  assert (Hm : m = (1 + naps + pumps)%nat).
  { rewrite Hs, !length_app, !length_replicate in Hlen. cbn [length] in Hlen. lia. }
  subst m. exists ss', naps, pumps. rewrite Hr. repeat apply conj; try assumption.
  rewrite <- Hr. exact Horigin.
Qed.

Lemma start_reader_returns_by_deadline_witness :
  let f := float_of_Z in
  let old := Row (f 9) (f 9) (f 9) (f 9) (f 9) (f 9) (f 9) in
  let row := Row (f 42) (f 1) (f 2) (f 3) (f 4) (f 5) (f 6) in
  let w := World (fun n => float_of_decimal false (3 * (N.of_nat n + 1)) (-1))
                 (fun i => match i with 1%nat => [row] | _ => [] end)
                 [] true [] true in
  let ss := Session None None false (lit "old error") (Some (f 1)) (Queue.mk 20000 [])
              (Deque.mk 4000 [old]) [old] 1 (Some (to_csv [old])) (lit "old.csv") 0 [] in
  (exists ss' naps pumps,
      start_reader 4 w ss = Ret ss'
      /\ slept ss'
         = slept ss ++ [f_0_5] ++ replicate naps f_0_02 ++ replicate pumps f_0_01
      /\ Forall (restamped (Queue.items (q_parsed ss)
                            ++ offered_during w (length (slept ss)) (1 + naps + pumps)))
                (all_rows ss'))
  /\ (exists ss',
        start_reader 4 w ss = Ret ss'
        /\ all_rows ss' = [retime (fsub (time_time w 4) (time_time w 0)) row]
        /\ slept ss' = [f_0_5; f_0_02; f_0_01]).
Proof.
  intros f old row w ss. split.
  - destruct (start_reader_returns_by_deadline 4 w ss 3)
      as (ss' & naps & pumps & H1 & _ & H3 & _ & H5 & _).
    + reflexivity.
    + lia.
    + vm_compute. reflexivity.
    + exists ss', naps, pumps. repeat split; assumption.
  - eexists. split; [vm_compute; reflexivity|]. split; vm_compute; reflexivity.
Defined.

End BleStartFacts.

(** ** The pump while the reader thread runs *)

Lemma relay_put_all_length {A} (xs : list A) : forall (q q' : Queue.t A),
  relay_put_all q xs = Ret q' ->
  (length (Queue.items q') <= length (Queue.items q) + length xs)%nat.
Proof.
  induction xs as [|y xs IH]; intros q q' H; cbn [relay_put_all] in H.
  - injection H as <-. lia.
  - rewrite relay_put_spec in H. cbn [bind] in H. specialize (IH _ _ H).
    destruct (Queue.full q); cbn [Queue.items length] in *;
      rewrite ?length_app in IH; cbn [length] in *; lia.
Qed.

Lemma pending_step {A} (arrivals : nat -> list A) (K g : nat) :
  (forall g, (K <= g)%nat -> arrivals g = []) ->
  (length (arrivals g) + pending arrivals K (S g))%nat = pending arrivals K g.
Proof.
  intros quiet. unfold pending. destruct (Nat.lt_ge_cases g K) as [Hlt|Hge].
  - replace (K - g)%nat with (S (K - S g)) by lia.
    cbn [seq map concat]. rewrite length_app. reflexivity.
  - rewrite (quiet g Hge). replace (K - g)%nat with 0%nat by lia.
    replace (K - S g)%nat with 0%nat by lia. reflexivity.
Qed.

Section BleLivePump.
Import Py.
Import xiao_imu_ble_final.
Variable w : world.
Variable arrivals : nat -> list imu_row.
Variable K : nat.
Hypothesis quiet : forall g, (K <= g)%nat -> arrivals g = [].

Lemma offer_spec (rows : list imu_row) (ss : session) :
  exists ss1,
    offer rows ss = Ret ss1
    /\ Queue.items (q_parsed ss) `prefix_of` Queue.items (q_parsed ss1)
    /\ (length (Queue.items (q_parsed ss1))
        <= length (Queue.items (q_parsed ss)) + length rows)%nat
    /\ all_rows ss1 = all_rows ss /\ data ss1 = data ss
    /\ controls ss1 = controls ss /\ slept ss1 = slept ss
    /\ (rows = [] -> ss1 = ss).
Proof.
  unfold offer.
  destruct (relay_put_all_prefix rows (q_parsed ss)) as (q & Hq & _ & Hpre).
  rewrite Hq. cbn [bind]. eexists. split; [reflexivity|].
  cbn. repeat apply conj; try reflexivity; try assumption.
  - exact (relay_put_all_length _ _ _ Hq).
  - intros ->. cbn in Hq. injection Hq as <-. destruct ss; reflexivity.
Qed.

Lemma drain_live_eq (fuel gets : nat) (ss : session) (added : Z) :
  drain_live (S fuel) w arrivals gets ss added
  = (ss <- offer (arrivals gets) ss ;;
     got <- next_row (q_parsed ss) ;;
     match got with
     | None => Ret (ss, added, S gets)
     | Some (row, q) =>
         let ss := set_q_parsed ss q in
         let '(t_rel, ss) := t_rel_of w (r_t row) ss in
         let full := retime t_rel row in
         drain_live fuel w arrivals (S gets) (push full ss) (added + 1)
     end).
Proof. reflexivity. Qed.

Lemma drain_live_mono : forall fuel fuel' gets ss added r,
  (fuel <= fuel')%nat ->
  drain_live fuel w arrivals gets ss added = Ret r ->
  drain_live fuel' w arrivals gets ss added = Ret r.
Proof.
  induction fuel as [|fuel IH]; intros [|fuel'] gets ss added r Hle H;
    cbn [drain_live] in *; try discriminate; try lia.
  destruct (offer (arrivals gets) ss) as [ss1| |]; cbn [bind] in *; try discriminate.
  destruct (next_row (q_parsed ss1)) as [[[row q]|]| |]; cbn [bind] in *;
    try discriminate; [|exact H].
  destruct (t_rel_of w (r_t row) (set_q_parsed ss1 q)) as [t_rel ss2].
  apply (IH fuel'); [lia | exact H].
Qed.

Lemma drain_live_returns : forall n gets ss added,
  (length (Queue.items (q_parsed ss)) + pending arrivals K gets <= n)%nat ->
  exists ss' new gets',
    drain_live (S n) w arrivals gets ss added = Ret (ss', added + len new, gets')
    /\ all_rows ss' = all_rows ss ++ new
    /\ data ss' = foldl Deque.append (data ss) new
    /\ controls ss' = controls ss /\ slept ss' = slept ss
    /\ (length (Queue.items (q_parsed ss)) <= length new)%nat
    /\ (Queue.items (q_parsed ss) = [] -> arrivals gets = [] ->
        ss' = ss /\ new = [] /\ gets' = S gets).
Proof.
  induction n as [|n IH]; intros gets ss added Hn; rewrite drain_live_eq;
    destruct (offer_spec (arrivals gets) ss)
      as (ss1 & -> & Hpre & Hlen & Hr1 & Hd1 & Hc1 & Hs1 & Hsame);
    cbn [bind]; unfold next_row, Queue.get_nowait;
    pose proof (pending_step arrivals K gets quiet) as Hback;
    destruct (Queue.items (q_parsed ss1)) as [|row rest] eqn:Hitems;
    cbn [bind try_except].
  - exists ss1, [], (S gets). unfold len. cbn [length]. rewrite Z.add_0_r, app_nil_r.
    apply prefix_length in Hpre. cbn [length] in Hpre.
    repeat apply conj; try assumption; try reflexivity.
    intros _ Ha. rewrite (Hsame Ha). repeat split.
  - exfalso. cbn [length] in Hlen. lia.
  - exists ss1, [], (S gets). unfold len. cbn [length]. rewrite Z.add_0_r, app_nil_r.
    apply prefix_length in Hpre. cbn [length] in Hpre.
    repeat apply conj; try assumption; try reflexivity.
    intros _ Ha. rewrite (Hsame Ha). repeat split.
  - assert (Hstep : (let '(t_rel, ss0) :=
                       t_rel_of w (r_t row)
                         (set_q_parsed ss1 (Queue.mk (Queue.maxsize (q_parsed ss1)) rest)) in
                     push (retime t_rel row) ss0) = absorb w ss1 row).
    { unfold absorb. rewrite Hitems. reflexivity. }
    destruct (absorb_all w [row] ss1) as (Ha1 & Ha2 & _).
    destruct (absorb_frame w row ss1) as (Ha3 & Ha4 & Ha5).
    cbn [foldl imap] in Ha1, Ha2. cbv zeta in Ha1, Ha2.
    rewrite Hitems in Ha5. cbn [tail] in Ha5.
    destruct (t_rel_of w (r_t row) _) as [t_rel ss2] eqn:Ht.
    cbv zeta. rewrite <- Hstep in Ha1, Ha2, Ha3, Ha4, Ha5. clear Hstep.
    set (full := retime (stamp w ss1 0 row) row) in *.
    destruct (IH (S gets) (push (retime t_rel row) ss2) (added + 1))
      as (ss' & new & gets' & Hrun & Hr & Hd & Hc & Hs & Hcount & _).
    { rewrite Ha5. cbn [Queue.items]. cbn [length] in Hlen. lia. }
    exists ss', (full :: new), gets'. rewrite Hrun.
    apply prefix_length in Hpre. cbn [length] in Hpre, Hlen.
    rewrite Ha5 in Hcount. cbn [Queue.items] in Hcount.
    repeat apply conj.
    + f_equal. f_equal. f_equal. unfold len. cbn [length]. lia.
    + rewrite Hr, Ha1, Hr1, <- app_assoc. reflexivity.
    + rewrite Hd, Ha2, Hd1. reflexivity.
    + rewrite Hc, Ha3, Hc1. reflexivity.
    + rewrite Hs, Ha4, Hs1. reflexivity.
    + cbn [length]. lia.
    + intros Hempty Ha. rewrite (Hsame Ha) in Hitems. rewrite Hempty in Hitems.
      discriminate Hitems.
Qed.

Lemma pump_passes_live_returns (passes : nat) : forall gets ss total,
  exists fuel0, forall fuel, (fuel0 <= fuel)%nat ->
    exists ss' new gets' k,
      pump_passes_live fuel passes w arrivals gets ss total
      = Ret (ss', total + len new, gets')
      /\ all_rows ss' = all_rows ss ++ new
      /\ data ss' = foldl Deque.append (data ss) new
      /\ controls ss' = controls ss
      /\ slept ss' = slept ss ++ replicate k f_0_01
      /\ (k <= passes)%nat
      /\ (passes <> 0%nat ->
          (length (Queue.items (q_parsed ss)) <= length new)%nat
          /\ (Queue.items (q_parsed ss) = [] -> arrivals gets = [] ->
              ss' = ss /\ new = [] /\ gets' = S gets)).
Proof.
  induction passes as [|passes IH]; intros gets ss total.
  - exists 0%nat. intros fuel _. exists ss, [], gets, 0%nat. cbn.
    unfold len. cbn. rewrite Z.add_0_r, !app_nil_r.
    repeat apply conj; try reflexivity; try lia.
  - destruct (drain_live_returns
                (length (Queue.items (q_parsed ss)) + pending arrivals K gets)
                gets ss 0 (Nat.le_refl _))
      as (ss1 & new1 & gets1 & Hdrain & Hr1 & Hd1 & Hc1 & Hs1 & Hcount & Hidle).
    set (fuel1 := S (length (Queue.items (q_parsed ss)) + pending arrivals K gets)) in *.
    destruct (Z.eqb_spec (0 + len new1) 0) as [Hz|Hnz].
    + exists fuel1. intros fuel Hfuel. exists ss1, new1, gets1, 0%nat.
      cbn [pump_passes_live]. rewrite (drain_live_mono _ _ _ _ _ _ Hfuel Hdrain).
      cbn [bind]. destruct (Z.eqb_spec (0 + len new1) 0); [|contradiction].
      cbn [replicate]. rewrite app_nil_r.
      repeat apply conj; try assumption; try reflexivity; try lia;
        try (f_equal; f_equal; f_equal; lia).
      intros _. split; assumption.
    + destruct (sleep_full w f_0_01 ss1)
        as (ss2 & Hsleep & Hr2 & Hd2 & Hc2 & _ & Hs2 & _).
      destruct (IH gets1 ss2 (total + (0 + len new1))) as (fuel2 & Hrest).
      exists (Nat.max fuel1 fuel2). intros fuel Hfuel.
      destruct (Hrest fuel ltac:(lia))
        as (ss3 & new & gets3 & k & Hrun & Hr3 & Hd3 & Hc3 & Hs3 & Hk & _).
      exists ss3, (new1 ++ new), gets3, (S k).
      cbn [pump_passes_live].
      rewrite (drain_live_mono fuel1 fuel _ _ _ _ ltac:(lia) Hdrain).
      cbn [bind]. destruct (Z.eqb_spec (0 + len new1) 0); [contradiction|].
      rewrite Hsleep. cbn [bind]. rewrite Hrun.
      repeat apply conj.
      * f_equal. f_equal. f_equal. unfold len. rewrite length_app. lia.
      * rewrite Hr3, Hr2, Hr1, <- app_assoc. reflexivity.
      * rewrite Hd3, Hd2, Hd1, foldl_app. reflexivity.
      * rewrite Hc3, Hc2, Hc1. reflexivity.
      * rewrite Hs3, Hs2, Hs1, <- app_assoc. reflexivity.
      * lia.
      * intros _. split; [rewrite length_app; lia|].
        intros Hempty Ha. destruct (Hidle Hempty Ha) as (_ & Hnew & _).
        rewrite Hnew in Hnz. unfold len in Hnz. cbn in Hnz. lia.
Qed.

End BleLivePump.

Section BleLivePumpFacts.
Import Py.
Import xiao_imu_ble_final.

Lemma offer_nothing (ss : session) : offer [] ss = Ret ss.
Proof. destruct ss; reflexivity. Qed.

(** When the thread offers nothing between gets, the drain takes what the
    channel held at the call, as the drain of [pump_queue_into_buffers]. *)
Lemma drain_live_quiet w arrivals :
  (forall g, arrivals g = []) ->
  forall fuel gets ss added ss' n gets',
    drain_live fuel w arrivals gets ss added = Ret (ss', n, gets') ->
    drain (S (length (Queue.items (q_parsed ss)))) w ss added = Ret (ss', n).
Proof.
  intros Hquiet. induction fuel as [|fuel IH]; intros gets ss added ss' n gets' H;
    [discriminate|].
  rewrite drain_live_eq, Hquiet, offer_nothing in H. cbn [bind] in H.
  rewrite (drain_spec w (Queue.items (q_parsed ss))) by (reflexivity || lia).
  unfold next_row, Queue.get_nowait in H.
  destruct (Queue.items (q_parsed ss)) as [|row rest] eqn:Hitems; cbn [bind try_except] in H.
  - cbn in H. injection H as <- <- _. unfold len. cbn. rewrite Z.add_0_r. reflexivity.
  - assert (Hstep : (let '(t_rel, ss0) :=
                       t_rel_of w (r_t row)
                         (set_q_parsed ss (Queue.mk (Queue.maxsize (q_parsed ss)) rest)) in
                     push (retime t_rel row) ss0) = absorb w ss row).
    { unfold absorb. rewrite Hitems. reflexivity. }
    destruct (absorb_frame w row ss) as (_ & _ & Hq).
    rewrite Hitems in Hq. cbn [tail] in Hq.
    destruct (t_rel_of w (r_t row) _) as [t_rel ss2] eqn:Ht.
    cbv zeta in H. rewrite Hstep in H. apply IH in H.
    rewrite Hq in H. cbn [Queue.items] in H.
    rewrite (drain_spec w rest) in H by (rewrite ?Hq; reflexivity || lia).
    rewrite <- H. cbn [foldl]. f_equal. f_equal. unfold len. cbn [length]. lia.
Qed.

Lemma pump_passes_live_quiet w arrivals :
  (forall g, arrivals g = []) ->
  forall fuel passes gets ss total ss' n gets',
    pump_passes_live fuel passes w arrivals gets ss total = Ret (ss', n, gets') ->
    pump_passes passes w ss total = Ret (ss', n).
Proof.
  intros Hquiet fuel. induction passes as [|passes IH];
    intros gets ss total ss' n gets' H; cbn [pump_passes_live pump_passes] in *.
  - injection H as <- <- _. reflexivity.
  - destruct (drain_live fuel w arrivals gets ss 0) as [[[ss1 added] gets1]| |] eqn:Hdrain;
      cbn [bind] in H; try discriminate.
    rewrite (drain_live_quiet w arrivals Hquiet _ _ _ _ _ _ _ Hdrain). cbn [bind].
    destruct (added =? 0).
    + injection H as <- <- _. reflexivity.
    + destruct (sleep w f_0_01 ss1) as [ss2| |]; cbn [bind] in *; try discriminate.
      exact (IH _ _ _ _ _ _ H).
Qed.

(** X7: the pump with the reader thread running.  If the thread stops
    offering records between two reads of the channel from some read on (it
    may go on offering during the pump's sleeps), the pump returns.  It then
    has slept 0.01 s at most [max(1, repeat)] times, has taken at least the
    rows that were in the channel at the call, returns the number of rows it
    appended to the accumulator, and has not touched the Start/Stop fields
    of the session (thread, flags, start time, CSV).  On a channel that is
    empty and stays so at the first read it returns 0 at once and leaves the
    session exactly as it was.  When the thread offers nothing between
    reads at all, the outcome is that of the pump run on the channel as it
    stood at the call. *)
Theorem pump_is_bounded (w : world) (arrivals : nat -> list imu_row) (K gets : nat)
    (repeat : Z) (ss : session) :
  (forall g, (K <= g)%nat -> arrivals g = []) ->
  exists fuel0, forall fuel, (fuel0 <= fuel)%nat ->
    exists ss' n gets' (k : nat),
      pump_live fuel w arrivals gets repeat ss = Ret (ss', n, gets')
      /\ slept ss' = slept ss ++ replicate k f_0_01
      /\ Z.of_nat k <= Z.max 1 repeat
      /\ len (Queue.items (q_parsed ss)) <= n
      /\ n = len (all_rows ss') - len (all_rows ss)
      /\ controls ss' = controls ss
      /\ (Queue.items (q_parsed ss) = [] -> arrivals gets = [] -> ss' = ss /\ n = 0)
      /\ ((forall g, arrivals g = []) ->
          pump_queue_into_buffers w repeat ss = Ret (ss', n)).
Proof.
  intros Hquiet. unfold pump_live, pump_queue_into_buffers.
  destruct (pump_passes_live_returns w arrivals K Hquiet
              (Z.to_nat (Z.max 1 repeat)) gets ss 0) as (fuel0 & Hfuel0).
  exists fuel0. intros fuel Hfuel.
  destruct (Hfuel0 fuel Hfuel)
    as (ss' & new & gets' & k & Hrun & Hr & _ & Hc & Hs & Hk & Hfirst).
  destruct Hfirst as [Hcount Hidle]; [lia|].
  exists ss', (0 + len new), gets', k. repeat apply conj; try assumption.
  - lia.
  - unfold len. lia.
  - rewrite Hr. unfold len. rewrite length_app. lia.
  - intros Hempty Ha. destruct (Hidle Hempty Ha) as (-> & -> & _). split; reflexivity.
  - intros Hnone. exact (pump_passes_live_quiet w arrivals Hnone _ _ _ _ _ _ _ _ Hrun).
Qed.

Lemma pump_is_bounded_witness :
  let f := float_of_Z in
  let r := fun n => Row (f n) (f 1) (f 2) (f 3) (f 4) (f 5) (f 6) in
  let w := World (fun n => f (Z.of_nat n + 100)) (fun _ => []) [] true [] true in
  let arrivals := fun g => match g with 1%nat => [r 2] | _ => [] end in
  let ss := Session (Some true) (Some false) true [] (Some (f 100))
              (Queue.mk 20000 [r 1]) (Deque.mk 4000 []) [] 0 None [] 1 [] in
  (exists fuel0, forall fuel, (fuel0 <= fuel)%nat ->
     exists ss' n gets' (k : nat),
       pump_live fuel w arrivals 0 3 ss = Ret (ss', n, gets')
       /\ slept ss' = slept ss ++ replicate k f_0_01
       /\ Z.of_nat k <= 3
       /\ 1 <= n)
  /\ (exists ss' gets',
        pump_live 5 w arrivals 0 3 ss = Ret (ss', 2, gets')
        /\ map imu_values (all_rows ss')
           = [[f 1; f 1; f 2; f 3; f 4; f 5; f 6]; [f 2; f 1; f 2; f 3; f 4; f 5; f 6]]
        /\ slept ss' = [f_0_01]).
Proof.
  intros f r w arrivals ss. split.
  - destruct (pump_is_bounded w arrivals 2 0 3 ss) as (fuel0 & H).
    + intros [|[|g]] Hg; [lia | lia | reflexivity].
    + exists fuel0. intros fuel Hfuel.
      destruct (H fuel Hfuel) as (ss' & n & gets' & k & H1 & H2 & H3 & H4 & _).
      exists ss', n, gets', k. repeat split; assumption.
  - eexists. eexists. split; [vm_compute; reflexivity|]. split; vm_compute; reflexivity.
Defined.

End BleLivePumpFacts.

(** ** The pump of the USB live dashboard while the reader thread runs *)

Section UsbLiveLivePump.
Import Py.
Import xiao_usb_live.
Variable w : world.
Variable raw_arrivals : nat -> list bytes.
Variable row_arrivals : nat -> list row.
Variable K : nat.
Hypothesis quiet_raw : forall g, (K <= g)%nat -> raw_arrivals g = [].
Hypothesis quiet_rows : forall g, (K <= g)%nat -> row_arrivals g = [].

Lemma usb_offer_spec (chunks : list bytes) (rows : list row) (ss : session) :
  exists ss1,
    offer chunks rows ss = Ret ss1
    /\ Queue.items (q_raw ss) `prefix_of` Queue.items (q_raw ss1)
    /\ Queue.items (q_parsed ss) `prefix_of` Queue.items (q_parsed ss1)
    /\ (length (Queue.items (q_raw ss1))
        <= length (Queue.items (q_raw ss)) + length chunks)%nat
    /\ (length (Queue.items (q_parsed ss1))
        <= length (Queue.items (q_parsed ss)) + length rows)%nat
    /\ (parsed ss1, raw_tail ss1, bytes_total ss1, lines_total ss1, logging ss1,
        log_rows ss1, reads ss1)
       = (parsed ss, raw_tail ss, bytes_total ss, lines_total ss, logging ss,
          log_rows ss, reads ss)
    /\ (chunks = [] -> rows = [] -> ss1 = ss).
Proof.
  unfold offer.
  destruct (relay_put_all_prefix chunks (q_raw ss)) as (qr & Hqr & _ & Hpre_r).
  destruct (relay_put_all_prefix rows (q_parsed ss)) as (q & Hq & _ & Hpre).
  rewrite Hqr, Hq. cbn [bind]. eexists. split; [reflexivity|].
  cbn. repeat apply conj; try reflexivity; try assumption.
  - exact (relay_put_all_length _ _ _ Hqr).
  - exact (relay_put_all_length _ _ _ Hq).
  - intros -> ->. cbn in Hqr, Hq. injection Hqr as <-. injection Hq as <-.
    destruct ss; reflexivity.
Qed.

Lemma drain_raw_live_eq (fuel gets : nat) (ss : session) :
  drain_raw_live (S fuel) w raw_arrivals row_arrivals gets ss
  = (ss <- offer (raw_arrivals gets) (row_arrivals gets) ss ;;
     got <- next_raw (q_raw ss) ;;
     match got with
     | None => Ret (ss, S gets)
     | Some (ch, q) =>
         let tail := raw_tail ss ++ ch in
         let tail := if RAW_TAIL_BYTES <? len tail
                     then last_bytes RAW_TAIL_BYTES tail else tail in
         drain_raw_live fuel w raw_arrivals row_arrivals (S gets)
           (Session (reader_thread ss) (stop_event ss) (ser_open ss) (parsed ss)
                    tail (bytes_total ss + len ch) (lines_total ss)
                    (time_time w (reads ss)) (last_error ss) (q_parsed ss) q
                    (logging ss) (log_rows ss) (S (reads ss)) (slept ss))
     end).
Proof. reflexivity. Qed.

Lemma drain_parsed_live_eq (fuel gets : nat) (ss : session) :
  drain_parsed_live (S fuel) w raw_arrivals row_arrivals gets ss
  = (ss <- offer (raw_arrivals gets) (row_arrivals gets) ss ;;
     got <- next_row (q_parsed ss) ;;
     match got with
     | None => Ret (ss, S gets)
     | Some (r, q) =>
         drain_parsed_live fuel w raw_arrivals row_arrivals (S gets)
           (Session (reader_thread ss) (stop_event ss) (ser_open ss)
                    (Deque.append (parsed ss) r) (raw_tail ss) (bytes_total ss)
                    (lines_total ss + 1) (time_time w (reads ss)) (last_error ss)
                    q (q_raw ss) (logging ss)
                    (if logging ss then log_rows ss ++ [r] else log_rows ss)
                    (S (reads ss)) (slept ss))
     end).
Proof. reflexivity. Qed.

Lemma drain_raw_live_mono : forall fuel fuel' gets ss r,
  (fuel <= fuel')%nat ->
  drain_raw_live fuel w raw_arrivals row_arrivals gets ss = Ret r ->
  drain_raw_live fuel' w raw_arrivals row_arrivals gets ss = Ret r.
Proof.
  induction fuel as [|fuel IH]; intros [|fuel'] gets ss r Hle H;
    try discriminate; try lia.
  rewrite drain_raw_live_eq in *.
  destruct (offer _ _ ss) as [ss1| |]; cbn [bind] in *; try discriminate.
  destruct (next_raw (q_raw ss1)) as [[[ch q]|]| |]; cbn [bind] in *;
    try discriminate; [|exact H].
  cbv zeta in *. apply (IH fuel'); [lia | exact H].
Qed.

Lemma drain_parsed_live_mono : forall fuel fuel' gets ss r,
  (fuel <= fuel')%nat ->
  drain_parsed_live fuel w raw_arrivals row_arrivals gets ss = Ret r ->
  drain_parsed_live fuel' w raw_arrivals row_arrivals gets ss = Ret r.
Proof.
  induction fuel as [|fuel IH]; intros [|fuel'] gets ss r Hle H;
    try discriminate; try lia.
  rewrite drain_parsed_live_eq in *.
  destruct (offer _ _ ss) as [ss1| |]; cbn [bind] in *; try discriminate.
  destruct (next_row (q_parsed ss1)) as [[[x q]|]| |]; cbn [bind] in *;
    try discriminate; [|exact H].
  apply (IH fuel'); [lia | exact H].
Qed.

Lemma drain_raw_live_returns : forall n gets ss,
  (length (Queue.items (q_raw ss)) + pending raw_arrivals K gets <= n)%nat ->
  exists ss' chunks gets',
    drain_raw_live (S n) w raw_arrivals row_arrivals gets ss = Ret (ss', gets')
    /\ Queue.items (q_raw ss) `prefix_of` chunks
    /\ bytes_total ss' = bytes_total ss + len (concat chunks)
    /\ raw_tail ss'
       = match chunks with
         | [] => raw_tail ss
         | _ => last_bytes RAW_TAIL_BYTES (raw_tail ss ++ concat chunks)
         end
    /\ reads ss' = (reads ss + length chunks)%nat
    /\ (parsed ss', lines_total ss', logging ss', log_rows ss')
       = (parsed ss, lines_total ss, logging ss, log_rows ss)
    /\ Queue.items (q_parsed ss) `prefix_of` Queue.items (q_parsed ss')
    /\ ((forall g, raw_arrivals g = [] /\ row_arrivals g = []) ->
        chunks = Queue.items (q_raw ss) /\ q_parsed ss' = q_parsed ss
        /\ Queue.items (q_raw ss') = []).
Proof.
  induction n as [|n IH]; intros gets ss Hn; rewrite drain_raw_live_eq;
    destruct (usb_offer_spec (raw_arrivals gets) (row_arrivals gets) ss)
      as (ss1 & -> & Hpre_r & Hpre & Hlen & _ & Hsame & Hidle);
    cbn [bind]; unfold next_raw, Queue.get_nowait;
    pose proof (pending_step raw_arrivals K gets quiet_raw) as Hback;
    injection Hsame as Hp1 Ht1 Hb1 Hl1 Hlg1 Hlog1 Hr1;
    destruct (Queue.items (q_raw ss1)) as [|ch rest] eqn:Hitems;
    cbn [bind try_except].
  - exists ss1, [], (S gets). unfold len. cbn [concat length].
    rewrite Z.add_0_r, Nat.add_0_r.
    repeat apply conj; try assumption; try reflexivity; try congruence.
    intros Hnone. destruct (Hnone gets) as [Ha Hb].
    rewrite (Hidle Ha Hb) in *.
    repeat split; [|exact Hitems]. symmetry. exact Hitems.
  - exfalso. cbn [length] in Hlen. lia.
  - exists ss1, [], (S gets). unfold len. cbn [concat length].
    rewrite Z.add_0_r, Nat.add_0_r.
    repeat apply conj; try assumption; try reflexivity; try congruence.
    intros Hnone. destruct (Hnone gets) as [Ha Hb].
    rewrite (Hidle Ha Hb) in *.
    repeat split; [|exact Hitems]. symmetry. exact Hitems.
  - set (tail1 := if RAW_TAIL_BYTES <? len (raw_tail ss1 ++ ch) then _ else _).
    assert (Htail : tail1 = last_bytes RAW_TAIL_BYTES (raw_tail ss ++ ch)).
    { subst tail1. rewrite Ht1.
      destruct (Z.ltb_spec RAW_TAIL_BYTES (len (raw_tail ss ++ ch)));
        [reflexivity|]. symmetry. apply last_bytes_short. assumption. }
    cbv zeta.
    match goal with
    | |- exists _ _ _, drain_raw_live (S n) w _ _ _ ?s = _ /\ _ =>
        destruct (IH (S gets) s) as (ss' & chunks & gets' & Hrun & Hpre' & Hb & Ht & Hr & Hsame' & Hpre2 & Hnone')
    end.
    { cbn [q_raw Queue.items]. cbn [length] in Hlen. lia. }
    cbn [q_raw q_parsed Queue.items bytes_total raw_tail reads parsed lines_total
         logging log_rows] in Hpre', Hb, Ht, Hr, Hsame', Hpre2, Hnone'.
    exists ss', (ch :: chunks), gets'. split; [exact Hrun|].
    repeat apply conj.
    + etransitivity; [exact Hpre_r|]. apply prefix_cons. exact Hpre'.
    + rewrite Hb, Hb1. unfold len. cbn [concat]. rewrite length_app. lia.
    + rewrite Ht, Htail. cbn [concat]. destruct chunks as [|ch' chunks'].
      * cbn [concat]. rewrite app_nil_r. reflexivity.
      * rewrite last_bytes_app by (unfold RAW_TAIL_BYTES; lia).
        rewrite <- app_assoc. reflexivity.
    + rewrite Hr, Hr1. cbn [length]. lia.
    + rewrite Hsame', Hp1, Hl1, Hlg1, Hlog1. reflexivity.
    + etransitivity; [exact Hpre | exact Hpre2].
    + intros Hnone. destruct (Hnone gets) as [Ha Hb0].
      destruct (Hnone' Hnone) as (Hc & Hq & Hqr).
      rewrite (Hidle Ha Hb0) in *. rewrite Hitems. rewrite Hc.
      repeat split; assumption.
Qed.

Lemma drain_parsed_live_returns : forall n gets ss,
  (length (Queue.items (q_parsed ss)) + pending row_arrivals K gets <= n)%nat ->
  exists ss' rows gets',
    drain_parsed_live (S n) w raw_arrivals row_arrivals gets ss = Ret (ss', gets')
    /\ Queue.items (q_parsed ss) `prefix_of` rows
    /\ lines_total ss' = lines_total ss + len rows
    /\ parsed ss' = foldl Deque.append (parsed ss) rows
    /\ log_rows ss' = (if logging ss then log_rows ss ++ rows else log_rows ss)
    /\ Queue.items (q_parsed ss') = []
    /\ reads ss' = (reads ss + length rows)%nat
    /\ (bytes_total ss', raw_tail ss', logging ss')
       = (bytes_total ss, raw_tail ss, logging ss)
    /\ ((forall g, raw_arrivals g = [] /\ row_arrivals g = []) ->
        rows = Queue.items (q_parsed ss) /\ q_raw ss' = q_raw ss).
Proof.
  induction n as [|n IH]; intros gets ss Hn; rewrite drain_parsed_live_eq;
    destruct (usb_offer_spec (raw_arrivals gets) (row_arrivals gets) ss)
      as (ss1 & -> & _ & Hpre & _ & Hlen & Hsame & Hidle);
    cbn [bind]; unfold next_row, Queue.get_nowait;
    pose proof (pending_step row_arrivals K gets quiet_rows) as Hback;
    injection Hsame as Hp1 Ht1 Hb1 Hl1 Hlg1 Hlog1 Hr1;
    destruct (Queue.items (q_parsed ss1)) as [|r rest] eqn:Hitems;
    cbn [bind try_except].
  - exists ss1, [], (S gets). unfold len. cbn [length foldl].
    rewrite Z.add_0_r, Nat.add_0_r.
    repeat apply conj; try assumption; try reflexivity; try congruence.
    + rewrite Hlog1. destruct (logging ss); [rewrite app_nil_r|]; reflexivity.
    + intros Hnone. destruct (Hnone gets) as [Ha Hb].
      rewrite (Hidle Ha Hb) in *. split; [symmetry; exact Hitems | reflexivity].
  - exfalso. cbn [length] in Hlen. lia.
  - exists ss1, [], (S gets). unfold len. cbn [length foldl].
    rewrite Z.add_0_r, Nat.add_0_r.
    repeat apply conj; try assumption; try reflexivity; try congruence.
    + rewrite Hlog1. destruct (logging ss); [rewrite app_nil_r|]; reflexivity.
    + intros Hnone. destruct (Hnone gets) as [Ha Hb].
      rewrite (Hidle Ha Hb) in *. split; [symmetry; exact Hitems | reflexivity].
  - match goal with
    | |- exists _ _ _, drain_parsed_live (S n) w _ _ _ ?s = _ /\ _ =>
        destruct (IH (S gets) s)
          as (ss' & rows & gets' & Hrun & Hpre' & Hl & Hp & Hlog & Hq & Hr & Hsame' & Hnone')
    end.
    { cbn [q_parsed Queue.items]. cbn [length] in Hlen. lia. }
    cbn [q_raw q_parsed Queue.items bytes_total raw_tail reads parsed lines_total
         logging log_rows] in Hpre', Hl, Hp, Hlog, Hr, Hsame', Hnone'.
    exists ss', (r :: rows), gets'. split; [exact Hrun|].
    repeat apply conj.
    + etransitivity; [exact Hpre|]. apply prefix_cons. exact Hpre'.
    + rewrite Hl, Hl1. unfold len. cbn [length]. lia.
    + rewrite Hp, Hp1. reflexivity.
    + rewrite Hlog, Hlg1, Hlog1. destruct (logging ss); [rewrite <- app_assoc|]; reflexivity.
    + exact Hq.
    + rewrite Hr, Hr1. cbn [length]. lia.
    + rewrite Hsame', Hb1, Ht1, Hlg1. reflexivity.
    + intros Hnone. destruct (Hnone gets) as [Ha Hb0].
      destruct (Hnone' Hnone) as (Hc & Hqr).
      rewrite (Hidle Ha Hb0) in *. rewrite Hitems, Hc. split; [reflexivity | exact Hqr].
Qed.

End UsbLiveLivePump.

Section UsbLiveLivePumpFacts.
Import Py.
Import xiao_usb_live.

Lemma usb_offer_nothing (ss : session) : offer [] [] ss = Ret ss.
Proof. destruct ss; reflexivity. Qed.

Lemma drain_raw_eq w (fuel : nat) (ss : session) :
  drain_raw (S fuel) w ss
  = (got <- next_raw (q_raw ss) ;;
     match got with
     | None => Ret ss
     | Some (ch, q) =>
         let tail := raw_tail ss ++ ch in
         let tail := if RAW_TAIL_BYTES <? len tail
                     then last_bytes RAW_TAIL_BYTES tail else tail in
         drain_raw fuel w
           (Session (reader_thread ss) (stop_event ss) (ser_open ss) (parsed ss)
                    tail (bytes_total ss + len ch) (lines_total ss)
                    (time_time w (reads ss)) (last_error ss) (q_parsed ss) q
                    (logging ss) (log_rows ss) (S (reads ss)) (slept ss))
     end).
Proof. reflexivity. Qed.

Lemma drain_parsed_eq w (fuel : nat) (ss : session) :
  drain_parsed (S fuel) w ss
  = (got <- next_row (q_parsed ss) ;;
     match got with
     | None => Ret ss
     | Some (r, q) =>
         drain_parsed fuel w
           (Session (reader_thread ss) (stop_event ss) (ser_open ss)
                    (Deque.append (parsed ss) r) (raw_tail ss) (bytes_total ss)
                    (lines_total ss + 1) (time_time w (reads ss)) (last_error ss)
                    q (q_raw ss) (logging ss)
                    (if logging ss then log_rows ss ++ [r] else log_rows ss)
                    (S (reads ss)) (slept ss))
     end).
Proof. reflexivity. Qed.

Lemma drain_raw_live_quiet w raw_arrivals row_arrivals :
  (forall g, raw_arrivals g = [] /\ row_arrivals g = []) ->
  forall fuel gets ss ss' gets',
    drain_raw_live fuel w raw_arrivals row_arrivals gets ss = Ret (ss', gets') ->
    drain_raw (S (length (Queue.items (q_raw ss)))) w ss = Ret ss'.
Proof.
  intros Hnone. induction fuel as [|fuel IH]; intros gets ss ss' gets' H;
    [discriminate|].
  rewrite drain_raw_live_eq in H. destruct (Hnone gets) as [Ha Hb].
  rewrite Ha, Hb, usb_offer_nothing in H. cbn [bind] in H.
  rewrite drain_raw_eq. unfold next_raw, Queue.get_nowait in *.
  destruct (Queue.items (q_raw ss)) as [|ch rest] eqn:Hitems; cbn [bind try_except] in *.
  - cbn in H |- *. injection H as <- _. reflexivity.
  - cbv zeta in *. apply IH in H. cbn [q_raw Queue.items] in H. cbn [length]. exact H.
Qed.

Lemma drain_parsed_live_quiet w raw_arrivals row_arrivals :
  (forall g, raw_arrivals g = [] /\ row_arrivals g = []) ->
  forall fuel gets ss ss' gets',
    drain_parsed_live fuel w raw_arrivals row_arrivals gets ss = Ret (ss', gets') ->
    drain_parsed (S (length (Queue.items (q_parsed ss)))) w ss = Ret ss'.
Proof.
  intros Hnone. induction fuel as [|fuel IH]; intros gets ss ss' gets' H;
    [discriminate|].
  rewrite drain_parsed_live_eq in H. destruct (Hnone gets) as [Ha Hb].
  rewrite Ha, Hb, usb_offer_nothing in H. cbn [bind] in H.
  rewrite drain_parsed_eq. unfold next_row, Queue.get_nowait in *.
  destruct (Queue.items (q_parsed ss)) as [|r rest] eqn:Hitems; cbn [bind try_except] in *.
  - cbn in H |- *. injection H as <- _. reflexivity.
  - apply IH in H. cbn [q_parsed Queue.items] in H. cbn [length]. exact H.
Qed.

(** X15: [pump_queues] with the reader thread running.  If the thread stops
    putting chunks and rows between two reads of the channels from some read
    on, the pump returns.  The chunks and rows it has taken begin with those
    that were waiting at the call, in order; [bytes_total] has grown by the
    total length of the chunks taken and [lines_total] by the number of rows
    taken; the rows went to the ring in order, and to the session log
    exactly when logging is on; [raw_tail], however the bytes were cut into
    chunks, is the last 256 bytes of the previous tail followed by the
    chunks taken (unchanged when none was taken); the clock was read once
    per chunk and per row; and the parsed channel was found empty last (the
    raw channel may by then hold chunks again).  When the thread puts
    nothing during the pump, exactly what was waiting is taken, both
    channels end empty, and the outcome is that of the pump run on the
    channels as they stood at the call. *)
Theorem usb_live_pump_counts (w : world) (raw_arrivals : nat -> list bytes)
    (row_arrivals : nat -> list row) (K gets : nat) (ss : session) :
  (forall g, (K <= g)%nat -> raw_arrivals g = [] /\ row_arrivals g = []) ->
  exists fuel0, forall fuel, (fuel0 <= fuel)%nat ->
    exists ss' chunks rows gets',
      pump_queues_live fuel w raw_arrivals row_arrivals gets ss = Ret (ss', gets')
      /\ Queue.items (q_raw ss) `prefix_of` chunks
      /\ Queue.items (q_parsed ss) `prefix_of` rows
      /\ bytes_total ss' = bytes_total ss + len (concat chunks)
      /\ lines_total ss' = lines_total ss + len rows
      /\ parsed ss' = foldl Deque.append (parsed ss) rows
      /\ log_rows ss' = (if logging ss then log_rows ss ++ rows else log_rows ss)
      /\ raw_tail ss'
         = match chunks with
           | [] => raw_tail ss
           | _ => last_bytes RAW_TAIL_BYTES (raw_tail ss ++ concat chunks)
           end
      /\ (len (raw_tail ss) <= RAW_TAIL_BYTES -> len (raw_tail ss') <= RAW_TAIL_BYTES)
      /\ Queue.items (q_parsed ss') = []
      /\ reads ss' = (reads ss + length chunks + length rows)%nat
      /\ ((forall g, raw_arrivals g = [] /\ row_arrivals g = []) ->
          chunks = Queue.items (q_raw ss) /\ rows = Queue.items (q_parsed ss)
          /\ Queue.items (q_raw ss') = []
          /\ pump_queues w ss = Ret ss').
Proof.
  intros Hquiet.
  assert (Hqr : forall g, (K <= g)%nat -> raw_arrivals g = [])
    by (intros g Hg; apply (Hquiet g Hg)).
  assert (Hqp : forall g, (K <= g)%nat -> row_arrivals g = [])
    by (intros g Hg; apply (Hquiet g Hg)).
  destruct (drain_raw_live_returns w raw_arrivals row_arrivals K Hqr
              (length (Queue.items (q_raw ss)) + pending raw_arrivals K gets)
              gets ss (Nat.le_refl _))
    as (ss1 & chunks & gets1 & Hraw & Hpre_r & Hb & Ht & Hr & Hsame & Hpre & Hnone1).
  injection Hsame as Hp Hl Hlg Hlog.
  destruct (drain_parsed_live_returns w raw_arrivals row_arrivals K Hqp
              (length (Queue.items (q_parsed ss1)) + pending row_arrivals K gets1)
              gets1 ss1 (Nat.le_refl _))
    as (ss2 & rows & gets2 & Hrows & Hpre2 & Hl2 & Hp2 & Hlog2 & Hq2 & Hr2 & Hsame2 & Hnone2).
  injection Hsame2 as Hb2 Ht2 _.
  set (fuel1 := S (length (Queue.items (q_raw ss)) + pending raw_arrivals K gets)) in *.
  set (fuel2 := S (length (Queue.items (q_parsed ss1)) + pending row_arrivals K gets1)) in *.
  exists (Nat.max fuel1 fuel2). intros fuel Hfuel.
  assert (Hrun : pump_queues_live fuel w raw_arrivals row_arrivals gets ss = Ret (ss2, gets2)).
  { unfold pump_queues_live.
    rewrite (drain_raw_live_mono w raw_arrivals row_arrivals fuel1 fuel _ _ _
               ltac:(lia) Hraw).
    cbn [bind fst snd].
    exact (drain_parsed_live_mono w raw_arrivals row_arrivals fuel2 fuel _ _ _
             ltac:(lia) Hrows). }
  exists ss2, chunks, rows, gets2. split; [exact Hrun|].
  repeat apply conj.
  - exact Hpre_r.
  - etransitivity; [exact Hpre | exact Hpre2].
  - rewrite Hb2. exact Hb.
  - rewrite Hl2, Hl. reflexivity.
  - rewrite Hp2, Hp. reflexivity.
  - rewrite Hlog2, Hlg, Hlog. reflexivity.
  - rewrite Ht2. exact Ht.
  - intros Hshort. rewrite Ht2, Ht. destruct chunks; [exact Hshort|].
    apply last_bytes_length. unfold RAW_TAIL_BYTES. lia.
  - exact Hq2.
  - rewrite Hr2, Hr. reflexivity.
  - intros Hnone. destruct (Hnone1 Hnone) as (Hc & Hq & Hqr1).
    destruct (Hnone2 Hnone) as (Hrows' & Hqr2).
    repeat apply conj.
    + exact Hc.
    + rewrite Hrows', Hq. reflexivity.
    + rewrite Hqr2. exact Hqr1.
    + unfold pump_queues.
      rewrite (drain_raw_live_quiet w raw_arrivals row_arrivals Hnone _ _ _ _ _ Hraw).
      cbn [bind].
      exact (drain_parsed_live_quiet w raw_arrivals row_arrivals Hnone _ _ _ _ _ Hrows).
Qed.

Lemma usb_live_pump_counts_witness :
  let f := float_of_Z in
  let r := fun n => [f n; f 1; f 2; f 3; f 4; f 5; f 6] in
  let w := World (fun n => f (Z.of_nat n + 100)) (fun _ => []) (fun _ => []) [] true in
  let raw_arrivals := fun g => match g with 1%nat => [["c"; "d"; "e"]%byte] | _ => [] end in
  let row_arrivals := fun g => match g with 1%nat => [r 2] | _ => [] end in
  let ss := Session (Some true) (Some false) true (Deque.mk 5000 []) ["z"]%byte 1 0 fzero []
              (Queue.mk 10000 [r 1]) (Queue.mk 10000 [["a"; "b"]%byte]) true [] 0 [] in
  (exists fuel0, forall fuel, (fuel0 <= fuel)%nat ->
     exists ss' (chunks : list bytes) (rows : list row) gets',
       pump_queues_live fuel w raw_arrivals row_arrivals 0 ss = Ret (ss', gets')
       /\ bytes_total ss' = bytes_total ss + len (concat chunks)
       /\ lines_total ss' = lines_total ss + len rows)
  /\ (exists ss' gets',
        pump_queues_live 6 w raw_arrivals row_arrivals 0 ss = Ret (ss', gets')
        /\ bytes_total ss' = 6 /\ lines_total ss' = 2
        /\ raw_tail ss' = ["z"; "a"; "b"; "c"; "d"; "e"]%byte
        /\ log_rows ss' = [r 1; r 2]).
Proof.
  intros f r w raw_arrivals row_arrivals ss. split.
  - destruct (usb_live_pump_counts w raw_arrivals row_arrivals 2 0 ss) as (fuel0 & H).
    + intros [|[|g]] Hg; [lia | lia | split; reflexivity].
    + exists fuel0. intros fuel Hfuel.
      destruct (H fuel Hfuel) as (ss' & chunks & rows & gets' & H1 & _ & _ & H4 & H5 & _).
      exists ss', chunks, rows, gets'. repeat split; assumption.
  - eexists. eexists. split; [vm_compute; reflexivity|].
    repeat split; vm_compute; reflexivity.
Defined.

End UsbLiveLivePumpFacts.
